(** * GradientCast example utilities: synthetic time-series generators

    A shallow embedding of [examples/utils/synthetic_data.py] and the
    properties its specification states about it.

    Conventions of the embedding.
    - A Python [float] (and a NumPy [float64]) is an IEEE-754 binary64 value:
      [spec_float] at precision 53 and maximal exponent 1024, with the
      operations of [SpecFloat] (round to nearest, ties to even).
    - A Python [int] is a [Z]; a count ([n_points], [n_series], ...) is a [nat].
    - The process-wide NumPy random generator is a [RandomState] that is
      threaded through every call; what it returns is arbitrary (two streams
      of draws), and every theorem holds for whatever it returns.
    - An exception is a value: a call returns [Ok v] or [Raise e].
    - Float arithmetic does not raise (an overflow gives an infinity), except
      [**] on a Python [float], which raises [OverflowError] when the power
      overflows.
    - [np.sin], [np.log1p] and the C library's [pow] are not code of this
      repository: the generators take them as parameters. *)

From Stdlib Require Import ZArith List String Ascii Floats Lia Bool.
From stdpp Require Import gmap strings list fin_maps pretty.
Import ListNotations.

#[local] Set Warnings "-inexact-float,-clear-no-such-hyp".
#[local] Open Scope Z_scope.

(* ===================================================================== *)
(** * Binary64 arithmetic *)
(* ===================================================================== *)

Module F64.

Abbreviation float := spec_float.

Definition add : float -> float -> float := SF64add.
Definition sub : float -> float -> float := SF64sub.
Definition mul : float -> float -> float := SF64mul.
Definition div : float -> float -> float := SF64div.
Definition sqrt : float -> float := SF64sqrt.
Definition opp : float -> float := SFopp.

(** [float(i)] for a Python or NumPy integer: the nearest binary64 value. *)
Definition of_Z (i : Z) : float := binary_normalize prec emax i 0 false.
Definition of_nat (i : nat) : float := of_Z (Z.of_nat i).

Definition is_nan (x : float) : bool :=
  match x with S754_nan => true | _ => false end.

Definition is_finite (x : float) : bool :=
  match x with S754_zero _ | S754_finite _ _ _ => true | _ => false end.

Definition is_inf (x : float) : bool :=
  match x with S754_infinity _ => true | _ => false end.

Definition is_zero (x : float) : bool :=
  match x with S754_zero _ => true | _ => false end.

Definition signbit (x : float) : bool :=
  match x with
  | S754_zero s | S754_infinity s | S754_finite s _ _ => s
  | S754_nan => false
  end.

(** Python's [x == y] on floats: [-0.0 == 0.0], and [nan] equals nothing. *)
Definition eqb : float -> float -> bool := SFeqb.

(** A finite value whose sign bit is clear: [0.0] or a positive number. *)
Definition nonneg_finite (x : float) : bool := is_finite x && negb (signbit x).

Definition zero : float := S754_zero false.
Definition nan : float := S754_nan.

(** The literals of the source, each the binary64 value Python reads. *)
Definition lit_0_001 : float := Eval vm_compute in Prim2SF 0.001.
Definition lit_0_01 : float := Eval vm_compute in Prim2SF 0.01.
Definition lit_0_03 : float := Eval vm_compute in Prim2SF 0.03.
Definition lit_0_05 : float := Eval vm_compute in Prim2SF 0.05.
Definition lit_0_1 : float := Eval vm_compute in Prim2SF 0.1.
Definition lit_0_2 : float := Eval vm_compute in Prim2SF 0.2.
Definition lit_0_3 : float := Eval vm_compute in Prim2SF 0.3.
Definition lit_0_4 : float := Eval vm_compute in Prim2SF 0.4.
Definition lit_0_5 : float := Eval vm_compute in Prim2SF 0.5.
Definition lit_0_7 : float := Eval vm_compute in Prim2SF 0.7.
Definition lit_0_8 : float := Eval vm_compute in Prim2SF 0.8.
Definition lit_0_85 : float := Eval vm_compute in Prim2SF 0.85.
Definition lit_0_9 : float := Eval vm_compute in Prim2SF 0.9.
Definition lit_1 : float := Eval vm_compute in Prim2SF 1.
Definition lit_1_1 : float := Eval vm_compute in Prim2SF 1.1.
Definition lit_1_2 : float := Eval vm_compute in Prim2SF 1.2.
Definition lit_1_3 : float := Eval vm_compute in Prim2SF 1.3.
Definition lit_1_4 : float := Eval vm_compute in Prim2SF 1.4.
Definition lit_100 : float := Eval vm_compute in Prim2SF 100.
Definition lit_1000000 : float := Eval vm_compute in Prim2SF 1000000.
Definition lit_1500000 : float := Eval vm_compute in Prim2SF 1500000.
(** [np.pi] *)
Definition pi : float := Eval vm_compute in Prim2SF 0x1.921fb54442d18p+1.

(** [int(x)]: truncation toward zero. *)
Definition trunc (x : float) : option Z :=
  match x with
  | S754_zero _ => Some 0
  | S754_finite s m e =>
      let a := if 0 <=? e then Z.shiftl (Zpos m) e else Z.shiftr (Zpos m) (- e) in
      Some (if s then - a else a)
  | _ => None
  end.

End F64.

Abbreviation float := spec_float.

Declare Scope f64_scope.
Delimit Scope f64_scope with f64.
Infix "+" := F64.add : f64_scope.
Infix "-" := F64.sub : f64_scope.
Infix "*" := F64.mul : f64_scope.
Infix "/" := F64.div : f64_scope.

(* ===================================================================== *)
(** * Exceptions *)
(* ===================================================================== *)

Inductive exn : Type :=
| ValueError
| OverflowError.

Inductive result (A : Type) : Type :=
| Ok (a : A)
| Raise (e : exn).
Arguments Ok {A} a.
Arguments Raise {A} e.

Definition rbind {A B} (r : result A) (k : A -> result B) : result B :=
  match r with
  | Ok a => k a
  | Raise e => Raise e
  end.

Definition is_ok {A} (r : result A) : bool :=
  match r with Ok _ => true | Raise _ => false end.

(** [int(x)] raises on [nan] ([ValueError]) and on an infinity
    ([OverflowError]). *)
Definition py_int (x : float) : result Z :=
  match x with
  | S754_nan => Raise ValueError
  | S754_infinity _ => Raise OverflowError
  | _ => match F64.trunc x with Some z => Ok z | None => Raise ValueError end
  end.

(** A list comprehension whose element expression may raise. *)
Fixpoint rmap {A B} (f : A -> result B) (l : list A) : result (list B) :=
  match l with
  | [] => Ok []
  | a :: l' =>
      rbind (f a) (fun b => rbind (rmap f l') (fun bs => Ok (b :: bs)))
  end.

(* ===================================================================== *)
(** * The random generator *)
(* ===================================================================== *)

(** The state of [np.random]: the standard-normal draws and the raw uniform
    integers it is going to return, and how many of each were consumed. *)
Record RandomState : Type := mkRandomState {
  normals : nat -> float;
  integers : nat -> nat;
  normals_used : nat;
  integers_used : nat
}.

(** Code that draws random numbers and may raise. *)
Definition M (A : Type) : Type := RandomState -> result (A * RandomState).

Definition ret {A} (a : A) : M A := fun rs => Ok (a, rs).

Definition bind {A B} (m : M A) (k : A -> M B) : M B :=
  fun rs =>
    match m rs with
    | Ok (a, rs') => k a rs'
    | Raise e => Raise e
    end.

Definition raise {A} (e : exn) : M A := fun _ => Raise e.

Definition lift {A} (r : result A) : M A :=
  fun rs => match r with Ok a => Ok (a, rs) | Raise e => Raise e end.

Declare Scope rng_scope.
Delimit Scope rng_scope with rng.
Notation "'let*' x ':=' m 'in' k" := (bind m (fun x => k))
  (at level 10, x pattern, m at level 100, k at level 200) : rng_scope.

(** One standard-normal draw. *)
Definition gauss : M float :=
  fun rs =>
    Ok (normals rs (normals_used rs),
        mkRandomState (normals rs) (integers rs)
          (S (normals_used rs)) (integers_used rs)).

(** A uniform integer in [[0, bound)]. *)
Definition randbelow (bound : nat) : M nat :=
  fun rs =>
    Ok ((integers rs (integers_used rs) mod bound)%nat,
        mkRandomState (normals rs) (integers rs)
          (normals_used rs) (S (integers_used rs))).

Fixpoint replicateM {A} (n : nat) (m : M A) : M (list A) :=
  match n with
  | O => ret []
  | S n' => (let* x := m in let* xs := replicateM n' m in ret (x :: xs))%rng
  end.

(** A loop whose body draws random numbers: [for x in l: acc = body(acc, x)]. *)
Fixpoint foldM {A S} (body : S -> A -> M S) (l : list A) (acc : S) : M S :=
  match l with
  | [] => ret acc
  | a :: l' => (let* acc' := body acc a in foldM body l' acc')%rng
  end.

(** A comprehension whose element expression draws random numbers. *)
Fixpoint mapM {A B} (f : A -> M B) (l : list A) : M (list B) :=
  match l with
  | [] => ret []
  | a :: l' => (let* b := f a in let* bs := mapM f l' in ret (b :: bs))%rng
  end.

(* ===================================================================== *)
(** * The NumPy functions the module calls *)
(* ===================================================================== *)

(** [np.arange(n)]: the indices [0 .. n-1] (an [int64] array). *)
Definition np_arange (n : nat) : list Z := map Z.of_nat (seq 0 n).

(** [np.full(n, v)] and [[v] * n]. *)
Definition np_full {A} (n : nat) (v : A) : list A := replicate n v.

(** [np.tile(a, reps)] *)
Fixpoint np_tile {A} (a : list A) (reps : nat) : list A :=
  match reps with
  | O => []
  | S r => a ++ np_tile a r
  end.

(** Element-wise [a + b] of two arrays of one shape. *)
Definition arr_add (a b : list float) : list float := zip_with F64.add a b.
Definition arr_mul (a b : list float) : list float := zip_with F64.mul a b.

(** [np.linspace(start, stop, num)] with [endpoint=True]: the step is
    [delta / (num - 1)]; a step that rounds to zero is applied as
    [(i / div) * delta]; the last element is set to [stop]. *)
Definition np_linspace (start stop : float) (num : nat) : list float :=
  let delta := (stop - start)%f64 in
  let y := map F64.of_Z (np_arange num) in
  let y :=
    match num with
    | O | S O => map (fun yi => yi * delta)%f64 y
    | S div =>
        let step := (delta / F64.of_nat div)%f64 in
        if F64.eqb step F64.zero
        then map (fun yi => (yi / F64.of_nat div) * delta)%f64 y
        else map (fun yi => yi * step)%f64 y
    end in
  let y := map (fun yi => yi + start)%f64 y in
  match num with
  | O | S O => y
  | S div => <[div := stop]> y
  end.

(** [np.random.randn(n)] *)
Definition np_random_randn (n : nat) : M (list float) := replicateM n gauss.

(** NumPy refuses a scale whose sign bit is set (and is not [nan]):
    [ValueError: scale < 0]. *)
Definition scale_refused (scale : float) : bool :=
  negb (F64.is_nan scale) && F64.signbit scale.

(** [np.random.normal(loc, scale, n)]: each value is [loc + scale * z] for a
    standard-normal draw [z]. *)
Definition np_random_normal (loc scale : float) (n : nat) : M (list float) :=
  if scale_refused scale then raise ValueError
  else (let* zs := replicateM n gauss in
        ret (map (fun z => loc + scale * z)%f64 zs))%rng.

(** [np.random.normal(loc, scale)]: one value. *)
Definition np_random_normal1 (loc scale : float) : M float :=
  if scale_refused scale then raise ValueError
  else (let* z := gauss in ret (loc + scale * z)%f64)%rng.

Definition swap {A} (arr : list A) (i j : nat) : list A :=
  match arr !! i, arr !! j with
  | Some x, Some y => <[i := y]> (<[j := x]> arr)
  | _, _ => arr
  end.

(** The shuffle behind [np.random.permutation]:
    [for i in reversed(range(1, n)): j = uniform in [0, i]; swap]. *)
Fixpoint shuffle (i : nat) (arr : list Z) : M (list Z) :=
  match i with
  | O => ret arr
  | S i' => (let* j := randbelow (S i) in shuffle i' (swap arr i j))%rng
  end.

Definition np_random_permutation (n : nat) : M (list Z) :=
  shuffle (n - 1) (np_arange n).

(** [np.random.choice(a, size, replace=False)]: refuses an empty population
    unless no sample is taken, and a sample larger than the population; else
    the first [size] entries of a permutation of the population. *)
Definition np_random_choice_noreplace (a : list Z) (size : nat) : M (list Z) :=
  if (Nat.eqb (length a) 0 && negb (Nat.eqb size 0))%bool then raise ValueError
  else if (length a <? size)%nat then raise ValueError
  else (let* idx := np_random_permutation (length a) in
        ret (map (fun i => nth (Z.to_nat i) a 0) (take size idx)))%rng.

(** [np.random.choice(a)]: one element of [a], uniformly. *)
Definition np_random_choice1 (a : list Z) : M Z :=
  (let* i := randbelow (length a) in ret (nth i a 0))%rng.

(* ===================================================================== *)
(** * The series generators *)
(* ===================================================================== *)

Section Generators.

(** [np.sin], [np.log1p] and [pow] (behind Python's and NumPy's [**]). *)
Variable np_sin : float -> float.
Variable np_log1p : float -> float.
Variable libm_pow : float -> float -> float.

(** [2 * np.pi] *)
Definition two_pi : float := (F64.of_Z 2 * F64.pi)%f64.

Definition generate_trend_series
    (n_points : nat) (trend_type : string)
    (base_value trend_strength noise_level : float) : M (list float) :=
  let t := np_arange n_points in
  let trend :=
    if String.eqb trend_type "linear" then
      map (fun ti => base_value + trend_strength * F64.of_Z ti)%f64 t
    else if String.eqb trend_type "exponential" then
      map (fun ti =>
             base_value *
             libm_pow (F64.of_Z 1 + F64.lit_0_01 * trend_strength) (F64.of_Z ti))%f64 t
    else if String.eqb trend_type "logarithmic" then
      map (fun ti =>
             base_value + (trend_strength * F64.of_Z 10) * np_log1p (F64.of_Z ti))%f64 t
    else (* flat *)
      np_full n_points base_value in
  (let* noise := np_random_normal (F64.of_Z 0) (base_value * noise_level)%f64 n_points in
   ret (arr_add trend noise))%rng.

(** [period_map.get(seasonality, 7)] *)
Definition period_map_get (seasonality : string) : Z :=
  if String.eqb seasonality "hourly" then 24
  else if String.eqb seasonality "daily" then 7
  else if String.eqb seasonality "weekly" then 52
  else if String.eqb seasonality "monthly" then 12
  else if String.eqb seasonality "yearly" then 1
  else 7.

(** [sin(2 * np.pi * t / period)] at one index. *)
Definition sin_phase (ti period : Z) : float :=
  np_sin ((two_pi * F64.of_Z ti) / F64.of_Z period)%f64.

Definition generate_seasonal_series
    (n_points : nat) (base_value : float) (seasonality : string)
    (amplitude noise_level : float) : M (list float) :=
  let t := np_arange n_points in
  let period := period_map_get seasonality in
  let seasonal :=
    map (fun ti => (base_value * amplitude) * sin_phase ti period)%f64 t in
  (let* noise := np_random_normal (F64.of_Z 0) (base_value * noise_level)%f64 n_points in
   ret (arr_add (map (fun s => base_value + s)%f64 seasonal) noise))%rng.

Definition generate_trend_seasonal_series
    (n_points : nat) (base_value trend_strength : float) (seasonal_period : Z)
    (seasonal_amplitude noise_level : float) : M (list float) :=
  let t := np_arange n_points in
  let trend := map (fun ti => base_value + trend_strength * F64.of_Z ti)%f64 t in
  let seasonal :=
    map (fun ti => (base_value * seasonal_amplitude) * sin_phase ti seasonal_period)%f64 t in
  (let* noise := np_random_normal (F64.of_Z 0) (base_value * noise_level)%f64 n_points in
   ret (arr_add (arr_add trend seasonal) noise))%rng.

(** [f"series_{i}"] *)
Definition series_name (i : nat) : string := "series_" +:+ pretty i.

(** [[100.0 + i * 50 for i in range(n_series)]] *)
Definition default_base_values (n_series : nat) : list float :=
  map (fun i => F64.lit_100 + F64.of_Z (i * 50))%f64 (np_arange n_series).

(** [base_values[i] if i < len(base_values) else 100.0] *)
Definition base_of (base_values : list float) (i : nat) : float :=
  if (i <? length base_values)%nat then nth i base_values F64.lit_100
  else F64.lit_100.

(** [x ** 2] on a Python [float] overflows when [x] is finite and the power
    the platform's [pow] returns is an infinity. *)
Definition pow_2_overflows (x : float) : bool :=
  F64.is_finite x && F64.is_inf (libm_pow x (F64.of_Z 2)).

(** [x ** 2] on a Python [float]: the value of the platform's [pow], or
    [OverflowError] when it overflows. *)
Definition float_pow_2 (x : float) : result float :=
  if pow_2_overflows x then Raise OverflowError
  else Ok (libm_pow x (F64.of_Z 2)).

(** The body of the loop over the series: one more entry of the dictionary.
    [correlation] is a Python [float], so [correlation**2] may raise; the
    other operations are NumPy's. *)
Definition multivariate_step
    (n_points : nat) (base_values : list float) (correlation noise_level : float)
    (common_component : list float)
    (series_dict : gmap string (list float)) (i : nat)
    : M (gmap string (list float)) :=
  let base := base_of base_values i in
  (let* individual := np_random_randn n_points in
   let* square := lift (float_pow_2 correlation) in
   let weight := F64.sqrt (F64.of_Z 1 - square)%f64 in
   let combined :=
     arr_add (map (fun c => correlation * c)%f64 common_component)
             (map (fun x => weight * x)%f64 individual) in
   let trend := np_linspace (F64.of_Z 0) (base * F64.lit_0_3)%f64 n_points in
   let values :=
     arr_add (map (fun tr => base + tr)%f64 trend)
             (map (fun c => (c * base) * noise_level)%f64 combined) in
   ret (<[series_name i := values]> series_dict))%rng.

Definition generate_multivariate_series
    (n_series n_points : nat) (base_values : option (list float))
    (correlation noise_level : float) : M (gmap string (list float)) :=
  let base_values :=
    match base_values with
    | None => default_base_values n_series
    | Some l => l
    end in
  (let* common_component := np_random_randn n_points in
   foldM (multivariate_step n_points base_values correlation noise_level
            common_component)
         (seq 0 n_series) ∅)%rng.

(** The sign of one anomaly. *)
Definition anomaly_sign (anomaly_direction : string) : M Z :=
  if String.eqb anomaly_direction "up" then ret 1
  else if String.eqb anomaly_direction "down" then ret (-1)
  else np_random_choice1 [-1; 1].

(** The body of the loop over the anomaly indices: an index outside
    [[0, n_points)] changes nothing. *)
Definition inject_anomaly
    (n_points : nat) (base_value anomaly_magnitude : float)
    (anomaly_direction : string)
    (st : list float * list bool) (idx : Z) : M (list float * list bool) :=
  if ((0 <=? idx) && (idx <? Z.of_nat n_points))%bool then
    (let* sign := anomaly_sign anomaly_direction in
     let i := Z.to_nat idx in
     ret (alter (fun v => v + (F64.of_Z sign * base_value) * anomaly_magnitude)%f64
            i (fst st),
          <[i := true]> (snd st)))%rng
  else ret st.

Definition generate_anomaly_series
    (n_points : nat) (base_value : float) (anomaly_indices : option (list Z))
    (anomaly_magnitude : float) (anomaly_direction : string)
    (noise_level : float) : M (list float * list bool) :=
  let t := np_arange n_points in
  let trend :=
    map (fun ti => base_value + (F64.lit_0_001 * base_value) * F64.of_Z ti)%f64 t in
  (let* noise := np_random_normal (F64.of_Z 0) (base_value * noise_level)%f64 n_points in
   let values := arr_add trend noise in
   let anomaly_flags := np_full n_points false in
   let* anomaly_indices :=
     match anomaly_indices with
     | None =>
         let* k := lift (py_int (F64.of_nat n_points * F64.lit_0_05)%f64) in
         let n_anomalies := Z.max 1 k in
         np_random_choice_noreplace (np_arange n_points) (Z.to_nat n_anomalies)
     | Some l => ret l
     end in
   foldM (inject_anomaly n_points base_value anomaly_magnitude anomaly_direction)
         anomaly_indices (values, anomaly_flags))%rng.

End Generators.

(* ===================================================================== *)
(** * [datetime] and [timedelta] *)
(* ===================================================================== *)

Module Datetime.

Record datetime : Type := mkDatetime {
  year : Z; month : Z; day : Z;
  hour : Z; minute : Z; second : Z; microsecond : Z
}.

(** A [timedelta] is normalised: [0 <= seconds < 86400] and
    [0 <= microseconds < 1000000]. *)
Record timedelta : Type := mkTimedelta {
  days : Z; seconds : Z; microseconds : Z
}.

Definition MAXORDINAL : Z := 3652059.   (* date(9999, 12, 31).toordinal() *)
Definition MAX_DELTA_DAYS : Z := 999999999.

Definition is_leap (y : Z) : bool :=
  (y mod 4 =? 0) && (negb (y mod 100 =? 0) || (y mod 400 =? 0)).

Definition days_before_year (y : Z) : Z :=
  let y1 := y - 1 in y1 * 365 + y1 / 4 - y1 / 100 + y1 / 400.

Definition DAYS_IN_MONTH : list Z :=
  [-1; 31; 28; 31; 30; 31; 30; 31; 31; 30; 31; 30; 31].
Definition DAYS_BEFORE_MONTH : list Z :=
  [-1; 0; 31; 59; 90; 120; 151; 181; 212; 243; 273; 304; 334].

Definition days_before_month (y m : Z) : Z :=
  nth (Z.to_nat m) DAYS_BEFORE_MONTH 0
  + (if (2 <? m) && is_leap y then 1 else 0).

Definition ymd2ord (y m d : Z) : Z :=
  days_before_year y + days_before_month y m + d.

Definition DI400Y : Z := 146097.
Definition DI100Y : Z := 36524.
Definition DI4Y : Z := 1461.

(** [_ord2ymd]: the date of a proleptic Gregorian ordinal. *)
Definition ord2ymd (ordinal : Z) : Z * Z * Z :=
  let n := ordinal - 1 in
  let n400 := n / DI400Y in let n := n mod DI400Y in
  let y := n400 * 400 + 1 in
  let n100 := n / DI100Y in let n := n mod DI100Y in
  let n4 := n / DI4Y in let n := n mod DI4Y in
  let n1 := n / 365 in let n := n mod 365 in
  let y := y + n100 * 100 + n4 * 4 + n1 in
  if (n1 =? 4) || (n100 =? 4) then (y - 1, 12, 31)
  else
    let leapyear := (n1 =? 3) && (negb (n4 =? 24) || (n100 =? 3)) in
    let m := Z.shiftr (n + 50) 5 in
    let preceding :=
      nth (Z.to_nat m) DAYS_BEFORE_MONTH 0
      + (if (2 <? m) && leapyear then 1 else 0) in
    if n <? preceding then
      let m' := m - 1 in
      let preceding' :=
        preceding
        - (nth (Z.to_nat m') DAYS_IN_MONTH 0
           + (if (m' =? 2) && leapyear then 1 else 0)) in
      (y, m', n - preceding' + 1)
    else (y, m, n - preceding + 1).

Definition toordinal (dt : datetime) : Z :=
  ymd2ord (year dt) (month dt) (day dt).

Definition US_PER_SECOND : Z := 1000000.
Definition US_PER_DAY : Z := 86400 * 1000000.

(** The microseconds a [timedelta] stands for. *)
Definition delta_to_us (td : timedelta) : Z :=
  (days td * 86400 + seconds td) * US_PER_SECOND + microseconds td.

(** The normalised [timedelta] of a number of microseconds; more than
    999999999 days either way is an [OverflowError]. *)
Definition us_to_delta (us : Z) : result timedelta :=
  let d := us / US_PER_DAY in
  let r := us mod US_PER_DAY in
  if (Z.abs d <=? MAX_DELTA_DAYS)
  then Ok (mkTimedelta d (r / US_PER_SECOND) (r mod US_PER_SECOND))
  else Raise OverflowError.

(** [timedelta(hours=h)], [timedelta(days=d)], [timedelta(weeks=w)] for the
    small arguments of the source. *)
Definition td_hours (h : Z) : timedelta := mkTimedelta 0 (h * 3600) 0.
Definition td_days (d : Z) : timedelta := mkTimedelta d 0 0.
Definition td_weeks (w : Z) : timedelta := mkTimedelta (7 * w) 0 0.

(** [i * delta] *)
Definition mul (i : Z) (td : timedelta) : result timedelta :=
  us_to_delta (i * delta_to_us td).

(** [-delta] *)
Definition neg (td : timedelta) : result timedelta :=
  us_to_delta (- delta_to_us td).

(** The microseconds from the start of ordinal day 0 to [dt]. *)
Definition datetime_to_us (dt : datetime) : Z :=
  ((toordinal dt * 24 + hour dt) * 60 + minute dt) * 60 * US_PER_SECOND
  + second dt * US_PER_SECOND + microsecond dt.

(** [dt + delta]: [OverflowError] unless the day of the sum is one of the
    ordinals [1 .. MAXORDINAL] (years 1 to 9999). *)
Definition add (dt : datetime) (td : timedelta) : result datetime :=
  let us := datetime_to_us dt + delta_to_us td in
  let d := us / US_PER_DAY in
  let r := us mod US_PER_DAY in
  let s := r / US_PER_SECOND in
  if (0 <? d) && (d <=? MAXORDINAL) then
    let '(y, m, dd) := ord2ymd d in
    Ok (mkDatetime y m dd (s / 3600) ((s mod 3600) / 60) ((s mod 3600) mod 60)
          (r mod US_PER_SECOND))
  else Raise OverflowError.

(** [dt - delta] *)
Definition sub (dt : datetime) (td : timedelta) : result datetime :=
  rbind (neg td) (add dt).

(** A decimal number, zero-padded to [width] digits. *)
Definition zero_pad (width : nat) (z : Z) : string :=
  let digits := pretty z in
  String.concat "" (replicate (width - String.length digits) "0") +:+ digits.

(** [dt.strftime("%m/%d/%Y, %I:%M %p")] in the C locale. The C library
    prints [%Y] as the year in decimal, without padding: four digits from
    the year 1000 on, fewer before it. *)
Definition strftime (dt : datetime) : string :=
  let h12 := if hour dt mod 12 =? 0 then 12 else hour dt mod 12 in
  zero_pad 2 (month dt) +:+ "/" +:+ zero_pad 2 (day dt) +:+ "/"
  +:+ pretty (year dt) +:+ ", "
  +:+ zero_pad 2 h12 +:+ ":" +:+ zero_pad 2 (minute dt) +:+ " "
  +:+ (if hour dt <? 12 then "AM" else "PM").

(** A [datetime] the constructor accepts. *)
Definition valid (dt : datetime) : bool :=
  (1 <=? year dt) && (year dt <=? 9999)
  && (1 <=? month dt) && (month dt <=? 12)
  && (1 <=? day dt)
  && (day dt <=? nth (Z.to_nat (month dt)) DAYS_IN_MONTH 0
                 + (if (month dt =? 2) && is_leap (year dt) then 1 else 0))
  && (0 <=? hour dt) && (hour dt <? 24)
  && (0 <=? minute dt) && (minute dt <? 60)
  && (0 <=? second dt) && (second dt <? 60)
  && (0 <=? microsecond dt) && (microsecond dt <? 1000000).

End Datetime.

(* ===================================================================== *)
(** * Timestamps *)
(* ===================================================================== *)

(** [freq_delta.get(freq, timedelta(hours=1))] *)
Definition freq_delta_get (freq : string) : Datetime.timedelta :=
  if String.eqb freq "H" then Datetime.td_hours 1
  else if String.eqb freq "D" then Datetime.td_days 1
  else if String.eqb freq "W" then Datetime.td_weeks 1
  else if String.eqb freq "M" then Datetime.td_days 30
  else Datetime.td_hours 1.

(** The body of the loop: [dt = start_date + i * delta], formatted. *)
Definition timestamp_at (start_date : Datetime.datetime)
    (delta : Datetime.timedelta) (i : Z) : result string :=
  rbind (Datetime.mul i delta) (fun step =>
  rbind (Datetime.add start_date step) (fun dt =>
  Ok (Datetime.strftime dt))).

(** [for i in range(n_points): ...; timestamps.append(...)], from the list
    built so far. *)
Fixpoint timestamps_loop (start_date : Datetime.datetime)
    (delta : Datetime.timedelta) (indices : list Z) (timestamps : list string)
    : result (list string) :=
  match indices with
  | [] => Ok timestamps
  | i :: rest =>
      rbind (timestamp_at start_date delta i) (fun ts =>
      timestamps_loop start_date delta rest (timestamps ++ [ts]))
  end.

(** [now] is what [datetime.now()] returns during the call. *)
Definition generate_timestamps (now : Datetime.datetime)
    (n_points : nat) (start_date : option Datetime.datetime) (freq : string)
    : result (list string) :=
  rbind (match start_date with
         | None => Datetime.sub now (Datetime.td_days 30)
         | Some d => Ok d
         end) (fun start_date =>
  let delta := freq_delta_get freq in
  timestamps_loop start_date delta (np_arange n_points) []).

(* ===================================================================== *)
(** * Payload and covariate assemblers *)
(* ===================================================================== *)

(** [{"timestamp": ts, "value": int(v)}] *)
Record payload_record : Type := mkPayload {
  timestamp : string;
  value : Z
}.

(** The [if inject_anomalies: ... else: ...] of [generate_ad_payload_data]:
    the series whose values become the payload. *)
Definition ad_payload_series (n_points : nat) (base_value : float)
    (inject_anomalies : bool) (anomaly_ratio : float) : M (list float * list bool) :=
  if inject_anomalies then
    (let* k := lift (py_int (F64.of_nat n_points * anomaly_ratio)%f64) in
     let n_anomalies := Z.max 1 k in
     let* anomaly_indices :=
       np_random_choice_noreplace
         (drop (n_points / 2)%nat (np_arange n_points))   (* range(n // 2, n) *)
         (Z.to_nat n_anomalies) in
     generate_anomaly_series n_points base_value (Some anomaly_indices)
       F64.lit_0_4 "both" F64.lit_0_03)%rng
  else
    generate_anomaly_series n_points base_value (Some [])
      F64.lit_0_5 "both" F64.lit_0_03.

(** [[{"timestamp": ts, "value": int(v)} for ts, v in zip(timestamps, values)]] *)
Definition payload_records (timestamps : list string) (values : list float)
    : result (list payload_record) :=
  rmap (fun tv => rbind (py_int (snd tv)) (fun z => Ok (mkPayload (fst tv) z)))
       (zip timestamps values).

Definition generate_ad_payload_data (now : Datetime.datetime)
    (n_points : nat) (base_value : float) (inject_anomalies : bool)
    (anomaly_ratio : float) : M (list payload_record) :=
  (let* timestamps := lift (generate_timestamps now n_points None "H") in
   let* series := ad_payload_series n_points base_value inject_anomalies anomaly_ratio in
   lift (payload_records timestamps (fst series)))%rng.

(** The four sub-mappings of a covariate bundle, each from a covariate name
    to a mapping from series identifier to value. *)
Record covariates : Type := mkCovariates {
  static_numerical_covariates : gmap string (gmap string float);
  static_categorical_covariates : gmap string (gmap string string);
  dynamic_numerical_covariates : gmap string (gmap string (list float));
  dynamic_categorical_covariates : gmap string (gmap string (list string))
}.

(** [{k: f(i, k) for i, k in enumerate(keys)}]: a later duplicate of a key
    replaces the earlier entry. *)
Definition dict_of_enumerate {V} (f : nat -> string -> V) (keys : list string)
    : gmap string V :=
  fold_left (fun d ik => <[snd ik := f (fst ik) (snd ik)]> d)
            (zip (seq 0 (length keys)) keys) ∅.

(** [{k: <expression that draws> for k in keys}] *)
Definition dict_of_keysM {V} (f : string -> M V) (keys : list string)
    : M (gmap string V) :=
  foldM (fun d k => (let* v := f k in ret (<[k := v]> d))%rng) keys ∅.

Definition categories : list string := ["electronics"; "clothing"; "food"; "home"].
Definition week_days : list string := ["Mon"; "Tue"; "Wed"; "Thu"; "Fri"; "Sat"; "Sun"].

Section Assemblers.

Variable np_sin : float -> float.

(** [offset + scale * np.sin(2 * np.pi * t / 24) + np.random.normal(0, sd)] *)
Definition daily_wave (offset scale sd : Z) (t : Z) : M float :=
  (let* noise := np_random_normal1 (F64.of_Z 0) (F64.of_Z sd) in
   ret ((F64.of_Z offset + F64.of_Z scale * sin_phase np_sin t 24) + noise)%f64)%rng.

Definition generate_covariates
    (n_points : nat) (series_ids : list string)
    (include_horizon : bool) (horizon_len : nat) : M covariates :=
  let total_len := if include_horizon then (n_points + horizon_len)%nat else n_points in
  let static_numerical : gmap string (gmap string float) :=
    {[ "base_price" :=
         dict_of_enumerate
           (fun i _ => (F64.lit_100 + F64.of_Z (Z.of_nat i * 50))%f64) series_ids ]} in
  let static_categorical : gmap string (gmap string string) :=
    {[ "category" :=
         dict_of_enumerate
           (fun i _ => nth (i mod length categories)%nat categories "") series_ids ]} in
  (let* temperature :=
     dict_of_keysM (fun _ => mapM (daily_wave 20 10 2) (np_arange total_len))
       series_ids in
   let dynamic_numerical : gmap string (gmap string (list float)) :=
     {[ "temperature" := temperature ]} in
   let dynamic_categorical : gmap string (gmap string (list string)) :=
     {[ "day_of_week" :=
          dict_of_enumerate
            (fun _ _ => map (fun t => nth (Z.to_nat (t mod 7)) week_days "")
                          (np_arange total_len)) series_ids ]} in
   ret (mkCovariates static_numerical static_categorical
          dynamic_numerical dynamic_categorical))%rng.

(** The intraday shape: 24 multipliers, one per hour. *)
Definition hourly_pattern : list float :=
  [ F64.lit_0_8; F64.lit_0_7; F64.lit_0_7; F64.lit_0_7; F64.lit_0_8; F64.lit_0_9;
    F64.lit_1; F64.lit_1_2; F64.lit_1_3; F64.lit_1_2; F64.lit_1_1; F64.lit_1;
    F64.lit_1; F64.lit_1_1; F64.lit_1_1; F64.lit_1_2; F64.lit_1_3; F64.lit_1_4;
    F64.lit_1_3; F64.lit_1_2; F64.lit_1_1; F64.lit_1; F64.lit_0_9; F64.lit_0_8 ].

(** The prices of one country. *)
Definition electricity_prices (n_days : nat) (country : string) : M (list float) :=
  let n_points := (n_days * 24)%nat in
  let base := if String.eqb country "FR" then 50 else 55 in
  let hourly := np_tile hourly_pattern n_days in
  let weekly :=
    map (fun i => if (i / 24) mod 7 <? 5 then F64.lit_1 else F64.lit_0_85)
        (np_arange n_points) in
  let trend := np_linspace (F64.of_Z 0) (F64.of_Z 5) n_points in
  (let* noise := np_random_normal (F64.of_Z 0) (F64.of_Z 3) n_points in
   ret (arr_add
          (arr_add (arr_mul (map (fun h => F64.of_Z base * h)%f64 hourly) weekly) trend)
          noise))%rng.

Definition generate_electricity_like_data
    (n_days : nat) (countries : option (list string))
    : M (gmap string (list float) * covariates) :=
  let countries :=
    match countries with
    | None => ["FR"; "BE"]
    | Some l => l
    end in
  let n_points := (n_days * 24)%nat in
  (let* prices := dict_of_keysM (electricity_prices n_days) countries in
   let* covs := generate_covariates n_points countries true 24 in
   let* gen_forecast :=
     dict_of_keysM
       (fun _ => mapM (daily_wave 5000 2000 200) (np_arange (n_points + 24)))
       countries in
   ret (prices,
        mkCovariates
          (static_numerical_covariates covs)
          (static_categorical_covariates covs)
          (<["gen_forecast" := gen_forecast]> (dynamic_numerical_covariates covs))
          (dynamic_categorical_covariates covs)))%rng.

End Assemblers.

(* ===================================================================== *)
(** * A reference sine *)
(* ===================================================================== *)

(** The generators are stated for any [np.sin]. Where a concrete one is
    needed (to run a generator on an input), this is the binary64 sine
    rounded to nearest, computed in integer fixed-point arithmetic: the
    argument is reduced modulo [2 * pi] with 1280 fractional bits and the
    Taylor series is summed with 256. *)
Module RefLibm.

Definition Q : Z := 1280.
Definition P : Z := 256.

(** [pi * 2^1280], rounded to the nearest integer. *)
Definition PI_Q : Z :=
  65394966643636739982454006658084879917285523435267660358666221791612798833451100782669133881566364057228851914297016520454412154607585037864011043864363392505280070636898460920165518061809174518363624255031399576032218231647003468934803322838216450821808089998293699406708268960706643553590652488301825712669650823925862109289197957902356954429799206721770349377815778137150994907814326.

(** The terms [(-1)^k r^(2k+1) / (2k+1)!] after the [k]-th, added to [acc];
    [r2] is [r * r], all with [P] fractional bits. *)
Fixpoint sin_series (fuel : nat) (k : Z) (term r2 acc : Z) : Z :=
  match fuel with
  | O => acc
  | S fuel' =>
      let term' := - (Z.shiftr (term * r2) P / ((2 * k + 2) * (2 * k + 3))) in
      sin_series fuel' (k + 1) term' r2 (acc + term')
  end.

(** [sin r] for [|r| <= pi], with [P] fractional bits. *)
Definition sin_fixed (r : Z) : Z :=
  sin_series 64 0 r (Z.shiftr (r * r) P) r.

Definition sin (x : float) : float :=
  match x with
  | S754_zero _ => x
  | S754_finite s m e =>
      let n := Z.shiftl (Zpos m) (e + Q) in          (* |x| * 2^Q *)
      if n <? 2 ^ (Q - 30) then x                      (* sin x rounds to x *)
      else
        let r := n mod (2 * PI_Q) in
        let r := if PI_Q <? r then r - 2 * PI_Q else r in
        let v := sin_fixed (Z.shiftr r (Q - P)) in
        let v := Z.max (- 2 ^ P) (Z.min (2 ^ P) v) in      (* |sin| <= 1 *)
        binary_normalize prec emax (if s then - v else v) (- P) false
  | _ => S754_nan
  end.

End RefLibm.

(* ===================================================================== *)
(** * Notions used in the statements *)
(* ===================================================================== *)

(** The next [n] standard-normal draws, and the generator after them. *)
Definition draws (rs : RandomState) (n : nat) : list float :=
  map (fun k => normals rs (normals_used rs + k)%nat) (seq 0 n).

Definition advance (rs : RandomState) (n : nat) : RandomState :=
  mkRandomState (normals rs) (integers rs) (normals_used rs + n)%nat (integers_used rs).

(** Every standard-normal draw the generator will return is finite. *)
Definition finite_normals (rs : RandomState) : Prop :=
  forall k, F64.is_finite (normals rs k) = true.

(** A zero, or a finite value with a mantissa below [2^53] and an exponent
    of at most [k]: its magnitude is below [2^(k + 53)]. *)
Definition fin_le (k : Z) (x : float) : Prop :=
  match x with
  | S754_zero _ => True
  | S754_finite _ m e => Zpos m < 2 ^ 53 /\ e <= k
  | _ => False
  end.

(** An index of the series: [0 <= idx < n_points]. *)
Definition in_range (n_points : nat) (idx : Z) : Prop := 0 <= idx < Z.of_nat n_points.

(** What one pass of the anomaly loop does to the flags. *)
Definition mark (n_points : nat) (flags : list bool) (idx : Z) : list bool :=
  if ((0 <=? idx) && (idx <? Z.of_nat n_points))%bool
  then <[Z.to_nat idx := true]> flags
  else flags.

(** The number of [True] entries. *)
Definition count_true (flags : list bool) : nat :=
  length (List.filter (fun b => b) flags).

Section Curves.

Variable np_log1p : float -> float.
Variable libm_pow : float -> float -> float.

(** The noise-free curve of [generate_trend_series]. *)
Definition trend_curve (n_points : nat) (trend_type : string)
    (base_value trend_strength : float) : list float :=
  if String.eqb trend_type "linear" then
    map (fun ti => base_value + trend_strength * F64.of_Z ti)%f64 (np_arange n_points)
  else if String.eqb trend_type "exponential" then
    map (fun ti =>
           base_value *
           libm_pow (F64.of_Z 1 + F64.lit_0_01 * trend_strength) (F64.of_Z ti))%f64
        (np_arange n_points)
  else if String.eqb trend_type "logarithmic" then
    map (fun ti =>
           base_value + (trend_strength * F64.of_Z 10) * np_log1p (F64.of_Z ti))%f64
        (np_arange n_points)
  else np_full n_points base_value.

(** The values of one series, from its base value, the shared component
    and its own component. *)
Definition series_values (n_points : nat) (base correlation noise_level : float)
    (common_component individual : list float) : list float :=
  let weight := F64.sqrt (F64.of_Z 1 - libm_pow correlation (F64.of_Z 2))%f64 in
  let combined :=
    arr_add (map (fun c => correlation * c)%f64 common_component)
            (map (fun x => weight * x)%f64 individual) in
  let trend := np_linspace (F64.of_Z 0) (base * F64.lit_0_3)%f64 n_points in
  arr_add (map (fun tr => base + tr)%f64 trend)
          (map (fun c => (c * base) * noise_level)%f64 combined).

(** The series of index [i] of a call that starts from the generator [rs]:
    its own component is the [i]-th block of [n] draws after the shared one. *)
Definition series_of_call (n : nat) (bv : list float) (corr nl : float)
    (rs : RandomState) (i : nat) : list float :=
  series_values n (base_of bv i) corr nl (draws rs n)
    (draws (advance rs (n + i * n)) n).

End Curves.

(** The largest binary64 value below 100.0; Python prints it as
    99.99999999999999. *)
Definition below_100 : float := Eval vm_compute in Prim2SF 0x1.8ffffffffffffp+6.

(** A random generator with fixed draws. *)
Definition sample_rs : RandomState :=
  mkRandomState
    (fun k => if Nat.even k then F64.lit_0_5 else F64.opp F64.lit_1_2)
    (fun k => (7 * k + 3)%nat)
    0 0.

(** A clock reading: 2024-03-15 10:30:00. *)
Definition sample_now : Datetime.datetime :=
  Datetime.mkDatetime 2024 3 15 10 30 0 0.

(** The start of the default timestamps for the sample clock reading:
    2024-02-14 10:30:00, thirty days before it. *)
Definition sample_start : Datetime.datetime :=
  Datetime.mkDatetime 2024 2 14 10 30 0 0.

(** The value of the anomaly series at index [i] before any anomaly is
    injected: the slight trend plus the noise. *)
Definition anomaly_baseline (base_value noise_level : float) (rs : RandomState)
    (i : nat) : float :=
  ((base_value + (F64.lit_0_001 * base_value) * F64.of_Z (Z.of_nat i))
   + (F64.of_Z 0 + (base_value * noise_level) * normals rs (normals_used rs + i)%nat))%f64.

(** The change one anomaly of sign [sign] makes to a value. *)
Definition anomaly_shift (base_value anomaly_magnitude : float) (sign : Z)
    (v : float) : float :=
  (v + (F64.of_Z sign * base_value) * anomaly_magnitude)%f64.

(** A correlation whose square overflows: 1e200. *)
Definition huge_correlation : float := Eval vm_compute in Prim2SF 1e200.

(** A negative number: finite, not a zero, with the sign bit set. *)
Definition negative_number (x : float) : bool :=
  match x with
  | S754_finite true _ _ => true
  | _ => false
  end.

(** The values [offset + scale * sin(2 * pi * t / 24) + noise] for
    [t = 0 .. total - 1], the noise of index [t] made from the [t]-th next
    draw of the generator [rs]. *)
Definition wave_series (np_sin : float -> float) (offset scale sd : Z)
    (total : nat) (rs : RandomState) : list float :=
  map (fun t =>
         ((F64.of_Z offset + F64.of_Z scale * sin_phase np_sin (Z.of_nat t) 24)
          + (F64.of_Z 0 + F64.of_Z sd * normals rs (normals_used rs + t)%nat))%f64)
      (seq 0 total).

(** Every standard-normal draw the generator will return is below
    [2^(k + 53)] in magnitude. *)
Definition bounded_normals (k : Z) (rs : RandomState) : Prop :=
  forall i, fin_le k (normals rs i).

(* ===================================================================== *)
(** * What a call consumes from the random generator *)
(* ===================================================================== *)

Lemma advance_0 rs : advance rs 0 = rs.
Proof. destruct rs; unfold advance; simpl. f_equal. lia. Qed.

Lemma advance_advance rs a b : advance (advance rs a) b = advance rs (a + b).
Proof. unfold advance; simpl. f_equal. lia. Qed.

Lemma draws_length rs n : length (draws rs n) = n.
Proof. unfold draws. rewrite length_map. apply length_seq. Qed.

Lemma draws_S rs n :
  draws rs (S n) = normals rs (normals_used rs) :: draws (advance rs 1) n.
Proof.
  unfold draws. simpl. f_equal.
  - f_equal. lia.
  - rewrite <- seq_shift, map_map. apply map_ext. intros k. f_equal. lia.
Qed.

Lemma draws_lookup rs n j :
  (j < n)%nat -> draws rs n !! j = Some (normals rs (normals_used rs + j)%nat).
Proof.
  intros Hj. unfold draws.
  change (map ?f ?l) with (f <$> l).
  rewrite list_lookup_fmap.
  assert (seq 0 n !! j = Some j) as ->; [|reflexivity].
  apply lookup_seq. split; [reflexivity | exact Hj].
Qed.

Lemma finite_normals_advance rs n : finite_normals rs -> finite_normals (advance rs n).
Proof. intros H k. apply H. Qed.

Lemma finite_normals_draws rs n :
  finite_normals rs -> Forall (fun z => F64.is_finite z = true) (draws rs n).
Proof.
  intros H. unfold draws. apply List.Forall_forall. intros z Hz.
  apply in_map_iff in Hz as (k & <- & _). apply H.
Qed.

Lemma replicateM_gauss n : forall rs,
  replicateM n gauss rs = Ok (draws rs n, advance rs n).
Proof.
  induction n as [|n IH]; intros rs.
  - simpl. unfold ret. now rewrite advance_0.
  - simpl. unfold bind at 1. unfold gauss at 1.
    unfold bind. fold (advance rs 1).
    replace (mkRandomState (normals rs) (integers rs) (S (normals_used rs))
               (integers_used rs)) with (advance rs 1)
      by (unfold advance; f_equal; lia).
    rewrite IH. unfold ret. rewrite advance_advance, draws_S. reflexivity.
Qed.

Lemma np_random_randn_spec n rs :
  np_random_randn n rs = Ok (draws rs n, advance rs n).
Proof. apply replicateM_gauss. Qed.

(** [np.random.normal] returns unless the scale is refused, and then it
    returns [loc + scale * z] for the next [n] draws. *)
Lemma np_random_normal_ok loc scale n rs :
  scale_refused scale = false ->
  np_random_normal loc scale n rs
  = Ok (map (fun z => loc + scale * z)%f64 (draws rs n), advance rs n).
Proof.
  intros H. unfold np_random_normal. rewrite H.
  unfold bind. rewrite replicateM_gauss. reflexivity.
Qed.

Lemma np_random_normal_refused loc scale n rs :
  scale_refused scale = true -> np_random_normal loc scale n rs = Raise ValueError.
Proof. intros H. unfold np_random_normal. now rewrite H. Qed.

Lemma np_arange_length n : length (np_arange n) = n.
Proof. unfold np_arange. rewrite length_map. apply length_seq. Qed.

Lemma np_arange_lookup n i : (i < n)%nat -> np_arange n !! i = Some (Z.of_nat i).
Proof.
  intros Hi. unfold np_arange. change (map ?f ?l) with (f <$> l).
  rewrite list_lookup_fmap.
  assert (seq 0 n !! i = Some i) as ->; [|reflexivity].
  apply lookup_seq. split; [reflexivity | exact Hi].
Qed.

Lemma arr_add_length a b : length (arr_add a b) = Nat.min (length a) (length b).
Proof. unfold arr_add. apply length_zip_with. Qed.

Lemma arr_mul_length a b : length (arr_mul a b) = Nat.min (length a) (length b).
Proof. unfold arr_mul. apply length_zip_with. Qed.

(** The length of an array expression. *)
Ltac array_length :=
  repeat first
    [ rewrite arr_add_length | rewrite arr_mul_length | rewrite length_map
    | rewrite np_arange_length | rewrite draws_length | rewrite length_replicate
    | rewrite length_insert | rewrite length_alter ];
  try lia.

Lemma np_linspace_length start stop num : length (np_linspace start stop num) = num.
Proof.
  unfold np_linspace.
  destruct num as [|[|div]].
  - reflexivity.
  - reflexivity.
  - rewrite length_insert, length_map.
    destruct (F64.eqb _ _); rewrite length_map, length_map, np_arange_length; reflexivity.
Qed.

(* ===================================================================== *)
(** * Binary64 facts *)
(* ===================================================================== *)

Lemma of_Z_0 : F64.of_Z 0 = F64.zero.
Proof. reflexivity. Qed.

(** [base * 0] is [+0.0] for a finite [base] whose sign bit is clear. *)
Lemma mul_zero_nonneg base :
  F64.nonneg_finite base = true -> (base * F64.zero)%f64 = F64.zero.
Proof. destruct base as [[]|[]| |[] m e]; simpl; intros H; try discriminate; reflexivity. Qed.

(** A zero times a finite value is a zero. *)
Lemma zero_mul_finite s z :
  F64.is_finite z = true -> F64.is_zero (S754_zero s * z)%f64 = true.
Proof. destruct z; simpl; intros H; try discriminate; reflexivity. Qed.

(** [0.0 + 0.0 * z] is [+0.0] for a finite [z]: a noise of scale zero. *)
Lemma noise_of_zero_scale z :
  F64.is_finite z = true -> (F64.zero + F64.zero * z)%f64 = F64.zero.
Proof. destruct z as [[]|[]| |[] m e]; simpl; intros H; try discriminate; reflexivity. Qed.

Lemma add_zero_nonneg x :
  F64.nonneg_finite x = true -> (x + F64.zero)%f64 = x.
Proof. destruct x as [[]|[]| |[] m e]; simpl; intros H; try discriminate; reflexivity. Qed.



(** Rounding a non-negative mantissa never produces [nan]. *)
Lemma shr_1_nonneg mrs : 0 <= shr_m mrs -> 0 <= shr_m (shr_1 mrs).
Proof.
  destruct mrs as [m r s]. simpl. intros H.
  destruct m as [|p|p]; [simpl; lia | | lia].
  destruct p; simpl; lia.
Qed.

Lemma iter_shr_1_nonneg p : forall mrs,
  0 <= shr_m mrs -> 0 <= shr_m (SpecFloat.iter_pos shr_1 p mrs).
Proof.
  induction p as [p IH|p IH|]; intros mrs H; simpl.
  - apply IH, IH, shr_1_nonneg, H.
  - apply IH, IH, H.
  - apply shr_1_nonneg, H.
Qed.

Lemma shr_fexp_nonneg m e l :
  0 <= m -> 0 <= shr_m (fst (shr_fexp prec emax m e l)).
Proof.
  intros H. unfold shr_fexp, shr.
  assert (0 <= shr_m (shr_record_of_loc m l)) as H0
    by (destruct l as [|[]]; simpl; exact H).
  destruct (_ - e) as [|p|p]; simpl; try exact H0.
  apply iter_shr_1_nonneg, H0.
Qed.

Lemma round_nearest_even_nonneg m l : 0 <= m -> 0 <= round_nearest_even m l.
Proof.
  intros H. unfold round_nearest_even.
  destruct l as [|[]]; try lia. destruct (Z.even m); lia.
Qed.

Lemma binary_round_aux_not_nan s m e l :
  0 <= m -> F64.is_nan (binary_round_aux prec emax s m e l) = false.
Proof.
  intros H. unfold binary_round_aux.
  pose proof (shr_fexp_nonneg m e l H) as H1.
  destruct (shr_fexp prec emax m e l) as [mrs' e'].
  simpl in H1.
  pose proof (shr_fexp_nonneg _ e' loc_Exact
                (round_nearest_even_nonneg _ (loc_of_shr_record mrs') H1)) as H2.
  destruct (shr_fexp prec emax _ e' loc_Exact) as [mrs'' e''].
  simpl in H2.
  destruct (shr_m mrs'') as [|p|p]; [reflexivity | | lia].
  destruct (e'' <=? emax - prec); reflexivity.
Qed.

Lemma binary_normalize_not_nan m e :
  F64.is_nan (binary_normalize prec emax m e false) = false.
Proof.
  unfold binary_normalize. destruct m as [|p|p]; [reflexivity| |];
    unfold binary_round; destruct (shl_align _ _ _) as [mz ez];
    apply binary_round_aux_not_nan; lia.
Qed.

Lemma of_Z_not_nan i : F64.is_nan (F64.of_Z i) = false.
Proof. apply binary_normalize_not_nan. Qed.

Lemma of_Z_finite_or_inf_nonneg i : 0 <= i -> F64.signbit (F64.of_Z i) = false.
Proof.
  intros H. unfold F64.of_Z, binary_normalize.
  destruct i as [|p|p]; [reflexivity | | lia].
  unfold binary_round. destruct (shl_align _ _ _) as [mz ez].
  unfold binary_round_aux.
  destruct (shr_fexp prec emax (Z.pos mz) ez loc_Exact) as [mrs' e'].
  destruct (shr_fexp prec emax _ e' loc_Exact) as [mrs'' e''].
  destruct (shr_m mrs''); [reflexivity | | reflexivity].
  destruct (_ <=? _); reflexivity.
Qed.



(* ===================================================================== *)
(** * Rounding: when a result is finite *)
(* ===================================================================== *)

Lemma fexp_eq x : fexp prec emax x = Z.max (x - 53) (-1074).
Proof. reflexivity. Qed.

Lemma digits2_pos_bounds p :
  2 ^ (Zpos (digits2_pos p) - 1) <= Zpos p < 2 ^ Zpos (digits2_pos p).
Proof.
  induction p as [p IH|p IH|]; simpl digits2_pos.
  - rewrite Pos2Z.inj_succ.
    replace (Z.succ (Zpos (digits2_pos p)) - 1) with (Z.succ (Zpos (digits2_pos p) - 1)) by lia.
    rewrite !Z.pow_succ_r by lia. lia.
  - rewrite Pos2Z.inj_succ.
    replace (Z.succ (Zpos (digits2_pos p)) - 1) with (Z.succ (Zpos (digits2_pos p) - 1)) by lia.
    rewrite !Z.pow_succ_r by lia. lia.
  - simpl. lia.
Qed.

Lemma Zdigits2_nonneg m : 0 <= Zdigits2 m.
Proof. destruct m; simpl; lia. Qed.

Lemma Zdigits2_bound m : 0 <= m -> m < 2 ^ Zdigits2 m.
Proof.
  destruct m as [|p|p]; simpl; intros H; [lia | | lia].
  apply digits2_pos_bounds.
Qed.


Lemma Zdigits2_le m k : 0 <= m < 2 ^ k -> 0 <= k -> Zdigits2 m <= k.
Proof.
  intros [H0 H1] Hk. destruct m as [|p|p]; simpl; [lia | | lia].
  pose proof (digits2_pos_bounds p) as [Hl _].
  assert (2 ^ (Zpos (digits2_pos p) - 1) < 2 ^ k) as Hlt by lia.
  apply Z.pow_lt_mono_r_iff in Hlt; lia.
Qed.

Lemma shr_1_m mrs : 0 <= shr_m mrs -> shr_m (shr_1 mrs) = shr_m mrs / 2.
Proof.
  destruct mrs as [m r s]. simpl. intros H.
  destruct m as [|p|p]; [reflexivity | | lia].
  destruct p as [p|p|]; simpl shr_m.
  - rewrite Pos2Z.inj_xI. apply Z.div_unique with (r := 1); lia.
  - rewrite Pos2Z.inj_xO. apply Z.div_unique with (r := 0); lia.
  - reflexivity.
Qed.

Lemma iter_shr_1_m p : forall mrs,
  0 <= shr_m mrs ->
  shr_m (SpecFloat.iter_pos shr_1 p mrs) = shr_m mrs / 2 ^ Zpos p.
Proof.
  induction p as [p IH|p IH|]; intros mrs H; simpl SpecFloat.iter_pos.
  - rewrite IH by (apply iter_shr_1_nonneg, shr_1_nonneg, H).
    rewrite IH by (apply shr_1_nonneg, H).
    rewrite shr_1_m by exact H.
    rewrite !Z.div_div by lia.
    f_equal.
    replace (2 ^ Zpos p~1) with (2 ^ 1 * 2 ^ Zpos p * 2 ^ Zpos p); [lia|].
    rewrite <- !Z.pow_add_r by lia. f_equal. lia.
  - rewrite IH by (apply iter_shr_1_nonneg, H).
    rewrite IH by exact H.
    rewrite !Z.div_div by lia.
    f_equal.
    replace (2 ^ Zpos p~0) with (2 ^ Zpos p * 2 ^ Zpos p); [lia|].
    rewrite <- !Z.pow_add_r by lia. f_equal. lia.
  - rewrite shr_1_m by exact H. reflexivity.
Qed.

Lemma shr_record_of_loc_m m l : shr_m (shr_record_of_loc m l) = m.
Proof. destruct l as [|[]]; reflexivity. Qed.

(** What [shr_fexp] does to a non-negative mantissa: the exponent is raised
    to [fexp] of the magnitude and the mantissa is shifted accordingly. *)
Lemma shr_fexp_facts m e l mrs e' :
  0 <= m -> shr_fexp prec emax m e l = (mrs, e') ->
  e' = Z.max e (fexp prec emax (Zdigits2 m + e))
  /\ shr_m mrs = m / 2 ^ (e' - e).
Proof.
  intros Hm. unfold shr_fexp, shr.
  destruct (fexp prec emax (Zdigits2 m + e) - e) as [|p|p] eqn:En; intros [= <- <-].
  - split; [lia|]. rewrite Z.sub_diag, Z.pow_0_r, Z.div_1_r. apply shr_record_of_loc_m.
  - split; [lia|].
    rewrite iter_shr_1_m by (rewrite shr_record_of_loc_m; exact Hm).
    rewrite shr_record_of_loc_m. f_equal. f_equal. lia.
  - split; [lia|]. rewrite Z.sub_diag, Z.pow_0_r, Z.div_1_r. apply shr_record_of_loc_m.
Qed.

Lemma shr_fexp_small m e l mrs e' :
  0 <= m -> shr_fexp prec emax m e l = (mrs, e') ->
  0 <= shr_m mrs < 2 ^ 53.
Proof.
  intros Hm H. destruct (shr_fexp_facts m e l mrs e' Hm H) as [He' Hm'].
  rewrite Hm'. rewrite fexp_eq in He'.
  pose proof (Zdigits2_bound m Hm) as Hd.
  pose proof (Zdigits2_nonneg m) as Hd0.
  split; [apply Z.div_pos; [lia | apply Z.pow_pos_nonneg; lia]|].
  apply Z.div_lt_upper_bound; [apply Z.pow_pos_nonneg; lia|].
  rewrite <- Z.pow_add_r by lia.
  eapply Z.lt_le_trans; [exact Hd|].
  apply Z.pow_le_mono_r; lia.
Qed.

Lemma fin_le_finite k x : fin_le k x -> F64.is_finite x = true.
Proof. destruct x; simpl; intros H; try reflexivity; contradiction. Qed.

Lemma fin_le_mono k k' x : k <= k' -> fin_le k x -> fin_le k' x.
Proof. destruct x; simpl; intros Hk H; try exact H. split; lia. Qed.

Lemma round_nearest_even_bounds m l :
  m <= round_nearest_even m l <= m + 1.
Proof.
  unfold round_nearest_even. destruct l as [|[]]; try lia.
  destruct (Z.even m); lia.
Qed.

Lemma Zdigits2_abs_le m k : Z.abs m < 2 ^ k -> 0 <= k -> Zdigits2 m <= k.
Proof.
  intros H Hk. destruct m as [|p|p].
  - simpl; lia.
  - apply Zdigits2_le; [simpl in H; lia | exact Hk].
  - change (Zdigits2 (Zneg p)) with (Zdigits2 (Zpos p)).
    apply Zdigits2_le; [simpl in H; lia | exact Hk].
Qed.

(** Rounding does not overflow below the largest exponent, and keeps the
    mantissa below [2^53]. *)
Lemma binary_round_aux_fin s m e l K :
  0 <= m -> e <= K -> Zdigits2 m + e - 53 <= K -> -1074 <= K -> K + 1 <= 971 ->
  fin_le (K + 1) (binary_round_aux prec emax s m e l).
Proof.
  intros Hm He Hd HK0 HK. unfold binary_round_aux.
  destruct (shr_fexp prec emax m e l) as [mrs' e'] eqn:E1.
  destruct (shr_fexp_facts _ _ _ _ _ Hm E1) as [He' _].
  pose proof (shr_fexp_small _ _ _ _ _ Hm E1) as Hs1.
  rewrite fexp_eq in He'.
  pose proof (round_nearest_even_bounds (shr_m mrs') (loc_of_shr_record mrs')) as Hr.
  set (mr := round_nearest_even (shr_m mrs') (loc_of_shr_record mrs')) in *.
  assert (0 <= mr) as Hmr by lia.
  destruct (shr_fexp prec emax mr e' loc_Exact) as [mrs'' e''] eqn:E2.
  destruct (shr_fexp_facts _ _ _ _ _ Hmr E2) as [He'' _].
  pose proof (shr_fexp_small _ _ _ _ _ Hmr E2) as Hs2.
  rewrite fexp_eq in He''.
  assert (Zdigits2 mr <= 54) as Hdr.
  { apply Zdigits2_le; [|lia]. split; [lia|].
    change (2 ^ 54) with (2 * 2 ^ 53). lia. }
  destruct (shr_m mrs'') as [|p|p] eqn:Em; simpl.
  - exact I.
  - change (emax - prec) with 971.
    destruct (Z.leb_spec e'' 971) as [Hle|Hgt]; simpl; [split; lia | lia].
  - lia.
Qed.




Lemma iter_xO_mul mx d : Zpos (Pos.iter xO mx d) = Zpos mx * 2 ^ Zpos d.
Proof.
  induction d as [|d IH] using Pos.peano_ind.
  - simpl. lia.
  - rewrite Pos.iter_succ, Pos2Z.inj_xO, IH, Pos2Z.inj_succ, Z.pow_succ_r by lia. lia.
Qed.

Lemma shl_align_facts mx ex ex' mz ez :
  shl_align mx ex ex' = (mz, ez) ->
  ez = Z.min ex ex' /\ Zpos mz = Zpos mx * 2 ^ (ex - ez).
Proof.
  unfold shl_align. destruct (ex' - ex) as [|d|d] eqn:E; intros [= <- <-].
  - split; [lia|]. rewrite Z.sub_diag. simpl. lia.
  - split; [lia|]. rewrite Z.sub_diag. simpl. lia.
  - split; [lia|]. rewrite iter_xO_mul. f_equal. f_equal. lia.
Qed.

Lemma binary_round_fin s mx ex K :
  Zpos (digits2_pos mx) + ex - 53 <= K -> -1074 <= K -> K + 1 <= 971 ->
  fin_le (K + 1) (binary_round prec emax s mx ex).
Proof.
  intros Hd HK0 HK. unfold binary_round.
  destruct (shl_align mx ex _) as [mz ez] eqn:E.
  destruct (shl_align_facts _ _ _ _ _ E) as [Hez Hmz].
  rewrite fexp_eq in Hez.
  pose proof (digits2_pos_bounds mx) as [_ Hb].
  apply binary_round_aux_fin; try lia.
  assert (Zdigits2 (Zpos mz) <= Zpos (digits2_pos mx) + (ex - ez)); [|lia].
  apply Zdigits2_le; [|lia]. split; [lia|].
  rewrite Hmz, Z.pow_add_r by lia.
  apply Z.mul_lt_mono_pos_r; [apply Z.pow_pos_nonneg; lia | exact Hb].
Qed.

Lemma binary_normalize_fin m e K :
  Zdigits2 m + e - 53 <= K -> -1074 <= K -> K + 1 <= 971 ->
  fin_le (K + 1) (binary_normalize prec emax m e false).
Proof.
  intros Hd HK0 HK. destruct m as [|p|p]; simpl.
  - exact I.
  - apply binary_round_fin; assumption.
  - apply binary_round_fin; assumption.
Qed.

(** [float(i)] is finite for an integer below [2^l] in magnitude. *)
Lemma of_Z_fin i l K :
  Z.abs i < 2 ^ l -> 0 <= l -> l - 53 <= K -> -1074 <= K -> K + 1 <= 971 ->
  fin_le (K + 1) (F64.of_Z i).
Proof.
  intros Hi Hl HlK HK0 HK. apply binary_normalize_fin; try assumption.
  pose proof (Zdigits2_abs_le i l Hi Hl). lia.
Qed.

Lemma mul_fin k1 k2 K x y :
  fin_le k1 x -> fin_le k2 y ->
  k1 + k2 + 53 <= K -> -1074 <= K -> K + 1 <= 971 ->
  fin_le (K + 1) (x * y)%f64.
Proof.
  destruct x as [sx| | |sx mx ex], y as [sy| | |sy my ey]; simpl;
    intros Hx Hy HK1 HK0 HK; try contradiction; try exact I.
  destruct Hx as [Hmx Hex], Hy as [Hmy Hey].
  apply binary_round_aux_fin; try lia.
  assert (Zdigits2 (Zpos (mx * my)) <= 106); [|lia].
  apply Zdigits2_le; [|lia]. split; [lia|].
  rewrite Pos2Z.inj_mul. change (2 ^ 106) with (2 ^ 53 * 2 ^ 53).
  apply Z.mul_lt_mono_nonneg; lia.
Qed.

Lemma add_fin k1 k2 K x y :
  fin_le k1 x -> fin_le k2 y ->
  k1 + 1 <= K -> k2 + 1 <= K -> -1074 <= K -> K + 1 <= 971 ->
  fin_le (K + 1) (x + y)%f64.
Proof.
  destruct x as [sx| | |sx mx ex], y as [sy| | |sy my ey]; simpl;
    intros Hx Hy HK1 HK2 HK0 HK; try contradiction.
  - destruct sx, sy; exact I.
  - split; lia.
  - split; lia.
  - destruct Hx as [Hmx Hex], Hy as [Hmy Hey].
    destruct (shl_align mx ex (Z.min ex ey)) as [m1 e1] eqn:E1.
    destruct (shl_align my ey (Z.min ex ey)) as [m2 e2] eqn:E2.
    destruct (shl_align_facts _ _ _ _ _ E1) as [He1 Hm1].
    destruct (shl_align_facts _ _ _ _ _ E2) as [He2 Hm2].
    simpl fst.
    apply binary_normalize_fin; try lia.
    set (ez := Z.min ex ey) in *.
    set (M := Z.max ex ey).
    assert (Zpos m1 < 2 ^ (53 + (M - ez))) as B1.
    { rewrite Hm1, Z.pow_add_r by lia.
      apply Z.le_lt_trans with (Zpos mx * 2 ^ (M - ez)).
      - apply Z.mul_le_mono_nonneg_l; [lia | apply Z.pow_le_mono_r; lia].
      - apply Z.mul_lt_mono_pos_r; [apply Z.pow_pos_nonneg; lia | lia]. }
    assert (Zpos m2 < 2 ^ (53 + (M - ez))) as B2.
    { rewrite Hm2, Z.pow_add_r by lia.
      apply Z.le_lt_trans with (Zpos my * 2 ^ (M - ez)).
      - apply Z.mul_le_mono_nonneg_l; [lia | apply Z.pow_le_mono_r; lia].
      - apply Z.mul_lt_mono_pos_r; [apply Z.pow_pos_nonneg; lia | lia]. }
    assert (Zdigits2 (cond_Zopp sx (Zpos m1) + cond_Zopp sy (Zpos m2))
            <= 54 + (M - ez)); [|lia].
    apply Zdigits2_abs_le; [|lia].
    replace (54 + (M - ez)) with (Z.succ (53 + (M - ez))) by lia.
    rewrite Z.pow_succ_r by lia.
    destruct sx, sy; simpl; lia.
Qed.





(* ===================================================================== *)
(** * Element-wise facts about arrays *)
(* ===================================================================== *)

Lemma map_arange_lookup {A} (f : Z -> A) n t :
  (t < n)%nat -> map f (np_arange n) !! t = Some (f (Z.of_nat t)).
Proof.
  intros Ht. change (map f ?l) with (f <$> l).
  now rewrite list_lookup_fmap, np_arange_lookup.
Qed.

Lemma map_draws_lookup {A} (f : float -> A) rs n t :
  (t < n)%nat ->
  map f (draws rs n) !! t = Some (f (normals rs (normals_used rs + t)%nat)).
Proof.
  intros Ht. change (map f ?l) with (f <$> l).
  now rewrite list_lookup_fmap, draws_lookup.
Qed.

Lemma arr_add_lookup a b t x y :
  a !! t = Some x -> b !! t = Some y -> arr_add a b !! t = Some (x + y)%f64.
Proof.
  intros Ha Hb. unfold arr_add. rewrite lookup_zip_with, Ha, Hb. reflexivity.
Qed.

(** A constant array plus a noise that each time leaves the constant as it is. *)
Lemma arr_add_replicate_noise (f : float -> float) base n : forall rs,
  finite_normals rs ->
  (forall z, F64.is_finite z = true -> (base + f z)%f64 = base) ->
  arr_add (replicate n base) (map f (draws rs n)) = replicate n base.
Proof.
  induction n as [|n IH]; intros rs Hrs Hf; [reflexivity|].
  rewrite draws_S. simpl. unfold arr_add in *. simpl. f_equal.
  - apply Hf, Hrs.
  - apply IH; [apply finite_normals_advance, Hrs | exact Hf].
Qed.

(* ===================================================================== *)
(** * Inputs on which the generators are run *)
(* ===================================================================== *)

Lemma sample_rs_finite : finite_normals sample_rs.
Proof. intros k. simpl. destruct (Nat.even k); reflexivity. Qed.

(* ===================================================================== *)
(** * What the trend and seasonal generators return *)
(* ===================================================================== *)

Section SeriesFacts.

Variable np_sin : float -> float.
Variable np_log1p : float -> float.
Variable libm_pow : float -> float -> float.

Lemma trend_curve_length n tt base k :
  length (trend_curve np_log1p libm_pow n tt base k) = n.
Proof.
  unfold trend_curve, np_full.
  repeat destruct (String.eqb _ _);
    rewrite ?length_map, ?np_arange_length, ?length_replicate; reflexivity.
Qed.

Lemma generate_trend_series_ok n tt base k nl rs :
  scale_refused (base * nl)%f64 = false ->
  generate_trend_series np_log1p libm_pow n tt base k nl rs
  = Ok (arr_add (trend_curve np_log1p libm_pow n tt base k)
          (map (fun z => F64.of_Z 0 + (base * nl) * z)%f64 (draws rs n)),
        advance rs n).
Proof.
  intros H. unfold generate_trend_series, bind.
  rewrite np_random_normal_ok by exact H. reflexivity.
Qed.

Lemma generate_seasonal_series_ok n base seasonality amp nl rs :
  scale_refused (base * nl)%f64 = false ->
  generate_seasonal_series np_sin n base seasonality amp nl rs
  = Ok (arr_add
          (map (fun s => base + s)%f64
             (map (fun ti => (base * amp) * sin_phase np_sin ti (period_map_get seasonality))%f64
                (np_arange n)))
          (map (fun z => F64.of_Z 0 + (base * nl) * z)%f64 (draws rs n)),
        advance rs n).
Proof.
  intros H. unfold generate_seasonal_series, bind.
  rewrite np_random_normal_ok by exact H. reflexivity.
Qed.

Lemma generate_trend_seasonal_series_ok n base k period amp nl rs :
  scale_refused (base * nl)%f64 = false ->
  generate_trend_seasonal_series np_sin n base k period amp nl rs
  = Ok (arr_add
          (arr_add
             (map (fun ti => base + k * F64.of_Z ti)%f64 (np_arange n))
             (map (fun ti => (base * amp) * sin_phase np_sin ti period)%f64 (np_arange n)))
          (map (fun z => F64.of_Z 0 + (base * nl) * z)%f64 (draws rs n)),
        advance rs n).
Proof.
  intros H. unfold generate_trend_seasonal_series, bind.
  rewrite np_random_normal_ok by exact H. reflexivity.
Qed.

Lemma zero_scale_accepted base :
  F64.nonneg_finite base = true -> scale_refused (base * F64.of_Z 0)%f64 = false.
Proof. intros H. rewrite of_Z_0, mul_zero_nonneg by exact H. reflexivity. Qed.

End SeriesFacts.


(* ===================================================================== *)
(** * The reference sine is finite on finite arguments *)
(* ===================================================================== *)


Lemma ref_sin_zero : RefLibm.sin F64.zero = F64.zero.
Proof. reflexivity. Qed.

(* ===================================================================== *)
(** * Flat trend, zero amplitude, yearly seasonality *)
(* ===================================================================== *)

Lemma trend_curve_flat np_log1p libm_pow n trend_type base strength :
  trend_type <> "linear" -> trend_type <> "exponential" ->
  trend_type <> "logarithmic" ->
  trend_curve np_log1p libm_pow n trend_type base strength = replicate n base.
Proof.
  intros H1 H2 H3. unfold trend_curve.
  apply String.eqb_neq in H1, H2, H3. now rewrite H1, H2, H3.
Qed.

(** C6 (as amended): with [noise_level = 0] and the trend type 'flat', or
    any trend type other than 'linear', 'exponential' and 'logarithmic',
    [generate_trend_series] returns [base_value] at every one of its
    [n_points] indices, whatever the point count and whatever the random
    generator draws, for every finite [base_value] with a clear sign bit
    (0.0 or a positive number, as the default 100.0 is). *)
Theorem flat_trend_is_constant np_log1p libm_pow n trend_type base strength rs :
  trend_type <> "linear" -> trend_type <> "exponential" ->
  trend_type <> "logarithmic" ->
  F64.nonneg_finite base = true ->
  finite_normals rs ->
  generate_trend_series np_log1p libm_pow n trend_type base strength (F64.of_Z 0) rs
  = Ok (replicate n base, advance rs n).
Proof.
  intros H1 H2 H3 Hbase Hrs.
  rewrite generate_trend_series_ok by (apply zero_scale_accepted, Hbase).
  rewrite trend_curve_flat by assumption.
  rewrite arr_add_replicate_noise; [reflexivity | exact Hrs |].
  intros z Hz. rewrite of_Z_0, mul_zero_nonneg by exact Hbase.
  rewrite noise_of_zero_scale by exact Hz. apply add_zero_nonneg, Hbase.
Qed.

(** [generate_trend_series(n_points=5, trend_type='flat', noise_level=0)]
    is [[100.0, 100.0, 100.0, 100.0, 100.0]]. *)
Lemma flat_trend_five_points :
  generate_trend_series (fun _ => F64.nan) (fun _ _ => F64.nan)
    5 "flat" F64.lit_100 F64.lit_1 (F64.of_Z 0) sample_rs
  = Ok ([F64.lit_100; F64.lit_100; F64.lit_100; F64.lit_100; F64.lit_100],
        advance sample_rs 5).
Proof.
  apply (flat_trend_is_constant (fun _ => F64.nan) (fun _ _ => F64.nan)
           5 "flat" F64.lit_100 F64.lit_1 sample_rs);
    [discriminate | discriminate | discriminate | reflexivity | exact sample_rs_finite].
Defined.

(** C6, as stated, fails for a negative base value: the scale of the noise,
    [-100.0 * 0], is [-0.0], which [np.random.normal] refuses, and the call
    raises [ValueError] instead of returning [[-100.0] * 5]. *)
Lemma flat_trend_of_negative_base_raises :
  generate_trend_series (fun _ => F64.nan) (fun _ _ => F64.nan)
    5 "flat" (F64.opp F64.lit_100) F64.lit_1 (F64.of_Z 0) sample_rs
  = Raise ValueError
  /\ (F64.opp F64.lit_100 * F64.of_Z 0)%f64 = S754_zero true.
Proof. split; vm_compute; reflexivity. Qed.





(** A noise of scale zero adds [+0.0] to every element. *)
Lemma arr_add_zero_noise (a : list float) : forall rs,
  finite_normals rs ->
  arr_add a (map (fun z => F64.zero + F64.zero * z)%f64 (draws rs (length a)))
  = map (fun x => x + F64.zero)%f64 a.
Proof.
  induction a as [|x a IH]; intros rs Hrs; [reflexivity|].
  simpl length. rewrite draws_S. unfold arr_add in *. cbn [map zip_with]. f_equal.
  - f_equal. apply noise_of_zero_scale, Hrs.
  - apply IH, finite_normals_advance, Hrs.
Qed.

Lemma mul_finite_zero y s :
  F64.is_finite y = true -> F64.is_zero (y * S754_zero s)%f64 = true.
Proof. destruct y; simpl; intros H; try discriminate; reflexivity. Qed.

Lemma add_nonneg_any_zero x z :
  F64.nonneg_finite x = true -> F64.is_zero z = true -> (x + z)%f64 = x.
Proof.
  destruct x as [[]|[]| |[] m e], z as [[]| | |]; simpl; intros Hx Hz;
    try discriminate; reflexivity.
Qed.

(** C4, as stated, fails: with seasonality 'yearly', the default amplitude 0.2
    and [noise_level = 0], four points are
    [[100.0, 100.0, 99.99999999999999, 99.99999999999999]], not
    [[100.0] * 4]. The sine of the binary64 value of [2 * pi * t] is not 0
    for [t >= 1] (it is -4.9e-16 at [t = 2]). *)
Lemma yearly_seasonal_is_not_constant :
  generate_seasonal_series RefLibm.sin 4 F64.lit_100 "yearly" F64.lit_0_2
    (F64.of_Z 0) sample_rs
  = Ok ([F64.lit_100; F64.lit_100; below_100; below_100], advance sample_rs 4)
  /\ F64.eqb below_100 F64.lit_100 = false.
Proof. split; vm_compute; reflexivity. Qed.

(** C4 (as amended): with seasonality 'yearly' (period 1) and
    [noise_level = 0], [generate_seasonal_series] returns [n_points] values
    that do not depend on the random generator: the one at index [t] is
    [base_value + base_value * amplitude * sin(2 * pi * t / 1) + 0.0], and
    the one at index 0 is exactly [base_value] (for every point count, every
    finite base value with a clear sign bit and every amplitude with
    [base_value * amplitude] finite; [np.sin] is any function with
    [sin(0.0) = 0.0]). *)
Theorem yearly_seasonal_values np_sin n base amplitude rs :
  np_sin F64.zero = F64.zero ->
  F64.nonneg_finite base = true ->
  F64.is_finite (base * amplitude)%f64 = true ->
  finite_normals rs ->
  exists out,
    generate_seasonal_series np_sin n base "yearly" amplitude (F64.of_Z 0) rs
    = Ok (out, advance rs n)
    /\ out = map (fun t => (base + (base * amplitude) * sin_phase np_sin t 1)
                           + F64.zero)%f64 (np_arange n)
    /\ length out = n
    /\ ((0 < n)%nat -> out !! 0%nat = Some base).
Proof.
  intros Hsin Hbase Hamp Hrs.
  rewrite generate_seasonal_series_ok by (apply zero_scale_accepted, Hbase).
  rewrite of_Z_0, mul_zero_nonneg by exact Hbase.
  eexists. split; [reflexivity|].
  assert (forall a : list float, length a = n ->
            arr_add a (map (fun z => F64.zero + F64.zero * z)%f64 (draws rs n))
            = map (fun x => x + F64.zero)%f64 a) as Hnoise.
  { intros a <-. apply (arr_add_zero_noise a rs Hrs). }
  rewrite Hnoise by array_length.
  rewrite !map_map.
  change (period_map_get "yearly") with 1.
  split; [reflexivity|]. split; [array_length|].
  intros Hn.
  rewrite (map_arange_lookup _ n 0 Hn). f_equal.
  unfold sin_phase. change (Z.of_nat 0) with 0.
  replace ((two_pi * F64.of_Z 0) / F64.of_Z 1)%f64 with F64.zero by reflexivity.
  rewrite Hsin.
  pose proof (mul_finite_zero _ false Hamp) as Hz.
  change (S754_zero false) with F64.zero in Hz.
  rewrite (add_nonneg_any_zero base _ Hbase Hz).
  apply add_zero_nonneg, Hbase.
Qed.

Lemma yearly_seasonal_example :
  exists out,
    generate_seasonal_series RefLibm.sin 4 F64.lit_100 "yearly" F64.lit_0_2
      (F64.of_Z 0) sample_rs
    = Ok (out, advance sample_rs 4)
    /\ out = map (fun t => (F64.lit_100
                            + (F64.lit_100 * F64.lit_0_2) * sin_phase RefLibm.sin t 1)
                           + F64.zero)%f64 (np_arange 4)
    /\ length out = 4%nat
    /\ ((0 < 4)%nat -> out !! 0%nat = Some F64.lit_100).
Proof.
  apply (yearly_seasonal_values RefLibm.sin 4 F64.lit_100 F64.lit_0_2 sample_rs);
    [reflexivity | reflexivity | reflexivity | exact sample_rs_finite].
Defined.

(* ===================================================================== *)
(** * Anomaly flags *)
(* ===================================================================== *)

Lemma anomaly_sign_ok dir rs : exists s rs', anomaly_sign dir rs = Ok (s, rs').
Proof.
  unfold anomaly_sign.
  destruct (String.eqb dir "up"); [eexists _, _; reflexivity|].
  destruct (String.eqb dir "down"); eexists _, _; reflexivity.
Qed.

(** The anomaly loop never raises; it keeps the number of values, and marks
    the flags as [mark] does, whatever signs are drawn. *)
Lemma inject_anomalies_spec n base mag dir idxs : forall st rs,
  exists vals rs',
    foldM (inject_anomaly n base mag dir) idxs st rs
    = Ok ((vals, fold_left (mark n) idxs (snd st)), rs')
    /\ length vals = length (fst st).
Proof.
  induction idxs as [|idx idxs IH]; intros [vals flags] rs.
  - exists vals, rs. split; reflexivity.
  - cbn [foldM fold_left]. unfold bind, inject_anomaly at 1, mark at 2.
    destruct ((0 <=? idx) && (idx <? Z.of_nat n))%bool.
    + unfold bind. destruct (anomaly_sign_ok dir rs) as (s & rs1 & ->).
      unfold ret. cbn [fst snd].
      destruct (IH (alter (fun v => (v + F64.of_Z s * base * mag)%f64) (Z.to_nat idx) vals,
                    <[Z.to_nat idx := true]> flags) rs1) as (vals' & rs' & -> & Hlen).
      exists vals', rs'. split; [reflexivity|].
      cbn [fst] in Hlen. now rewrite Hlen, length_alter.
    + unfold ret. cbn [snd]. apply (IH (vals, flags) rs).
Qed.

Lemma mark_length n flags idx : length (mark n flags idx) = length flags.
Proof. unfold mark. destruct (_ && _)%bool; [apply length_insert | reflexivity]. Qed.

Lemma marks_length n idxs : forall flags,
  length (fold_left (mark n) idxs flags) = length flags.
Proof.
  induction idxs as [|idx idxs IH]; intros flags; [reflexivity|].
  cbn [fold_left]. now rewrite IH, mark_length.
Qed.

Lemma mark_lookup n flags idx i :
  mark n flags idx !! i = Some true
  <-> flags !! i = Some true
      \/ ((i < length flags)%nat /\ in_range n idx /\ idx = Z.of_nat i).
Proof.
  unfold mark, in_range.
  destruct (Z.leb_spec 0 idx), (Z.ltb_spec idx (Z.of_nat n)); cbn [andb];
    try (split; [auto | intros [?|(_ & ? & _)]; [assumption | lia]]).
  destruct (decide (Z.to_nat idx = i)) as [<-|Hne].
  - split.
    + intros Hl. right. split; [|split; [lia | lia]].
      apply lookup_lt_Some in Hl. now rewrite length_insert in Hl.
    + intros [Hl|(Hl & _)].
      * apply lookup_lt_Some in Hl. now apply list_lookup_insert_eq.
      * now apply list_lookup_insert_eq.
  - rewrite list_lookup_insert_ne by exact Hne.
    split; [auto | intros [?|(_ & _ & ->)]; [assumption | lia]].
Qed.

Lemma marks_lookup n idxs : forall flags i,
  fold_left (mark n) idxs flags !! i = Some true
  <-> flags !! i = Some true
      \/ ((i < length flags)%nat /\ (i < n)%nat /\ Z.of_nat i ∈ idxs).
Proof.
  induction idxs as [|idx idxs IH]; intros flags i; cbn [fold_left].
  - split; [auto | intros [?|(_ & _ & H)]; [assumption | inversion H]].
  - rewrite IH, mark_lookup, mark_length. unfold in_range. split.
    + intros [[H|(H1 & H2 & ->)]|(H1 & H2 & H3)].
      * now left.
      * right. split; [exact H1|]. split; [lia | left].
      * right. split; [exact H1|]. split; [exact H2 | now right].
    + intros [H|(H1 & H2 & H3)].
      * left. now left.
      * apply elem_of_cons in H3 as [<-|H3].
        -- left. right. split; [exact H1|]. split; [lia | reflexivity].
        -- right. auto.
Qed.

Lemma count_true_insert (flags : list bool) : forall i,
  (i < length flags)%nat ->
  count_true (<[i := true]> flags)
  = (count_true flags
     + match flags !! i with Some false => 1 | _ => 0 end)%nat.
Proof.
  unfold count_true.
  induction flags as [|b flags IH]; intros i Hi; [simpl in Hi; lia|].
  destruct i as [|i].
  - destruct b; simpl; lia.
  - simpl in Hi. cbn [insert list_insert lookup list_lookup].
    change (list_insert i true flags) with (<[i := true]> flags).
    change (list_lookup i flags) with (flags !! i).
    destruct b; cbn [List.filter length]; rewrite IH by lia; reflexivity.
Qed.

(** The flags hold one [True] for each distinct in-range index. *)
Lemma marks_count n idxs :
  count_true (fold_left (mark n) idxs (replicate n false))
  = size (list_to_set (filter (in_range n) idxs) : gset Z).
Proof.
  induction idxs as [|idx idxs IH] using rev_ind.
  - cbn [fold_left]. rewrite filter_nil, list_to_set_nil, size_empty.
    unfold count_true. induction n as [|n IHn]; [reflexivity | exact IHn].
  - rewrite fold_left_app, filter_app, list_to_set_app_L. cbn [fold_left].
    set (flags := fold_left (mark n) idxs (replicate n false)) in *.
    assert (length flags = n) as Hlen
      by (unfold flags; now rewrite marks_length, length_replicate).
    unfold mark. destruct (decide (in_range n idx)) as [Hin|Hout].
    + unfold in_range in Hin.
      destruct (Z.leb_spec 0 idx); [|lia].
      destruct (Z.ltb_spec idx (Z.of_nat n)); [|lia]. cbn [andb].
      rewrite filter_cons_True, filter_nil by exact Hin.
      rewrite list_to_set_singleton.
      rewrite count_true_insert by lia.
      destruct (flags !! Z.to_nat idx) as [b|] eqn:El;
        [|apply lookup_ge_None in El; lia].
      assert (b = true <-> idx ∈ (list_to_set (filter (in_range n) idxs) : gset Z)) as Hb.
      { rewrite elem_of_list_to_set, list_elem_of_filter.
        pose proof (marks_lookup n idxs (replicate n false) (Z.to_nat idx)) as Hm.
        fold flags in Hm. rewrite El in Hm. rewrite length_replicate in Hm.
        rewrite Z2Nat.id in Hm by lia.
        split.
        - intros ->. destruct Hm as [Hm _]. destruct (Hm eq_refl) as [Hr|(_ & _ & He)].
          + apply lookup_replicate in Hr as [Hr _]. discriminate.
          + split; [unfold in_range; lia | exact He].
        - intros [_ He]. destruct Hm as [_ Hm].
          assert (Some b = Some true) as [= ->]; [|reflexivity].
          apply Hm. right. split; [lia|]. split; [lia | exact He]. }
      destruct b.
      * assert (idx ∈ (list_to_set (filter (in_range n) idxs) : gset Z)) as He
          by now apply Hb.
        rewrite IH.
        replace (list_to_set (filter (in_range n) idxs) ∪ {[idx]})
          with (list_to_set (filter (in_range n) idxs) : gset Z) by set_solver.
        lia.
      * assert (idx ∉ (list_to_set (filter (in_range n) idxs) : gset Z)) as He
          by (intros He; apply Hb in He; discriminate).
        rewrite size_union by set_solver. rewrite size_singleton, IH. lia.
    + assert (((0 <=? idx) && (idx <? Z.of_nat n))%bool = false) as ->.
      { unfold in_range in Hout.
        destruct (Z.leb_spec 0 idx), (Z.ltb_spec idx (Z.of_nat n)); cbn [andb];
          try reflexivity; lia. }
      rewrite filter_cons_False, filter_nil by exact Hout.
      rewrite list_to_set_nil, IH. f_equal. set_solver.
Qed.

Lemma generate_anomaly_series_explicit n base idxs mag dir nl rs :
  scale_refused (base * nl)%f64 = false ->
  exists vals rs',
    generate_anomaly_series n base (Some idxs) mag dir nl rs
    = Ok ((vals, fold_left (mark n) idxs (replicate n false)), rs')
    /\ length vals = n.
Proof.
  intros Hscale. unfold generate_anomaly_series, bind at 1.
  rewrite np_random_normal_ok by exact Hscale.
  unfold bind at 1, ret at 1.
  match goal with
  | |- context [foldM _ idxs ?st ?rs0] =>
      destruct (inject_anomalies_spec n base mag dir idxs st rs0)
        as (vals & rs' & Heq & Hlen)
  end.
  exists vals, rs'. split; [exact Heq|].
  rewrite Hlen. cbn [fst]. array_length.
Qed.

(** C2 (as amended): for every point count, every explicitly supplied list
    of anomaly indices and every noise scale [base_value * noise_level] that
    is not negative, [generate_anomaly_series] returns (it does not raise:
    an index outside [[0, n)] is skipped) as many flags as values,
    [n_points] of each; a flag is [True] exactly at the supplied indices
    that lie in [[0, n)]; and the number of [True] flags is the number of
    distinct in-range indices supplied, which is the number of in-range
    entries of the list when the list repeats no index. *)
Theorem anomaly_flags_mark_supplied_indices n base idxs mag dir nl rs :
  scale_refused (base * nl)%f64 = false ->
  exists vals flags rs',
    generate_anomaly_series n base (Some idxs) mag dir nl rs
    = Ok ((vals, flags), rs')
    /\ length vals = n /\ length flags = length vals
    /\ (forall i, flags !! i = Some true <-> (i < n)%nat /\ Z.of_nat i ∈ idxs)
    /\ count_true flags = size (list_to_set (filter (in_range n) idxs) : gset Z)
    /\ (NoDup idxs -> count_true flags = length (filter (in_range n) idxs)).
Proof.
  intros Hscale.
  destruct (generate_anomaly_series_explicit n base idxs mag dir nl rs Hscale)
    as (vals & rs' & Heq & Hlen).
  exists vals, (fold_left (mark n) idxs (replicate n false)), rs'.
  split; [exact Heq|]. split; [exact Hlen|]. split.
  { now rewrite marks_length, length_replicate. }
  split.
  { intros i. rewrite marks_lookup, length_replicate. split.
    - intros [H|(_ & H1 & H2)]; [|auto].
      apply lookup_replicate in H as [H _]. discriminate.
    - intros [H1 H2]. right. auto. }
  split; [apply marks_count|].
  intros Hnd. rewrite marks_count.
  apply size_list_to_set, NoDup_filter, Hnd.
Qed.

Lemma anomaly_flags_example :
  exists vals flags rs',
    generate_anomaly_series 6 F64.lit_1000000 (Some [4; -1; 9; 1])
      F64.lit_0_5 "both" F64.lit_0_05 sample_rs
    = Ok ((vals, flags), rs')
    /\ length vals = 6%nat /\ length flags = length vals
    /\ (forall i, flags !! i = Some true
                  <-> (i < 6)%nat /\ Z.of_nat i ∈ [4; -1; 9; 1])
    /\ count_true flags
       = size (list_to_set (filter (in_range 6) [4; -1; 9; 1]) : gset Z)
    /\ (NoDup [4; -1; 9; 1]
        -> count_true flags = length (filter (in_range 6) [4; -1; 9; 1])).
Proof.
  apply (anomaly_flags_mark_supplied_indices 6 F64.lit_1000000 [4; -1; 9; 1]
           F64.lit_0_5 "both" F64.lit_0_05 sample_rs).
  reflexivity.
Defined.

(** C2, as stated, fails when the list repeats an index: with 5 points and
    the indices [[3, 3]] one flag is [True], and two indices of the list are
    in range. *)
Lemma repeated_index_is_flagged_once :
  exists vals rs',
    generate_anomaly_series 5 F64.lit_1000000 (Some [3; 3])
      F64.lit_0_5 "both" F64.lit_0_05 sample_rs
    = Ok ((vals, [false; false; false; true; false]), rs')
    /\ count_true [false; false; false; true; false] = 1%nat
    /\ length (filter (in_range 5) [3; 3]) = 2%nat.
Proof.
  eexists _, _. split; [vm_compute; reflexivity|].
  split; reflexivity.
Qed.

(* ===================================================================== *)
(** * Correlated series *)
(* ===================================================================== *)

Lemma series_name_inj i j : series_name i = series_name j -> i = j.
Proof.
  unfold series_name. intros H.
  apply (inj (String.app "series_")) in H.
  now apply (inj pretty) in H.
Qed.

Section Multivariate.

Variable libm_pow : float -> float -> float.

(** A finite square does not overflow. *)
Lemma finite_square_no_overflow corr :
  F64.is_finite (libm_pow corr (F64.of_Z 2)) = true ->
  pow_2_overflows libm_pow corr = false.
Proof.
  intros H. unfold pow_2_overflows.
  destruct (libm_pow corr (F64.of_Z 2)); try discriminate; apply andb_false_r.
Qed.

Lemma float_pow_2_ok corr :
  pow_2_overflows libm_pow corr = false ->
  float_pow_2 libm_pow corr = Ok (libm_pow corr (F64.of_Z 2)).
Proof. intros H. unfold float_pow_2. now rewrite H. Qed.

Lemma float_pow_2_overflow corr :
  pow_2_overflows libm_pow corr = true ->
  float_pow_2 libm_pow corr = Raise OverflowError.
Proof. intros H. unfold float_pow_2. now rewrite H. Qed.

Lemma multivariate_step_spec n bv corr nl common d i rs :
  pow_2_overflows libm_pow corr = false ->
  multivariate_step libm_pow n bv corr nl common d i rs
  = Ok (<[series_name i :=
            series_values libm_pow n (base_of bv i) corr nl common (draws rs n)]> d,
        advance rs n).
Proof.
  intros Hpow. unfold multivariate_step, bind. rewrite np_random_randn_spec.
  unfold lift. rewrite float_pow_2_ok by exact Hpow. reflexivity.
Qed.

(** The first pass of the loop raises when the square overflows. *)
Lemma multivariate_step_overflow n bv corr nl common d i rs :
  pow_2_overflows libm_pow corr = true ->
  multivariate_step libm_pow n bv corr nl common d i rs = Raise OverflowError.
Proof.
  intros Hpow. unfold multivariate_step, bind. rewrite np_random_randn_spec.
  unfold lift. rewrite float_pow_2_overflow by exact Hpow. reflexivity.
Qed.

Lemma multivariate_loop_spec n bv corr nl rs k :
  pow_2_overflows libm_pow corr = false ->
  forall a d,
  foldM (multivariate_step libm_pow n bv corr nl (draws rs n)) (seq a k) d
    (advance rs (n + a * n))
  = Ok (fold_left
          (fun d i => <[series_name i := series_of_call libm_pow n bv corr nl rs i]> d)
          (seq a k) d,
        advance rs (n + (a + k) * n)).
Proof.
  intros Hpow. induction k as [|k IH]; intros a d.
  - cbn [seq foldM fold_left]. unfold ret. do 2 f_equal. f_equal. lia.
  - cbn [seq foldM fold_left]. unfold bind.
    rewrite multivariate_step_spec, advance_advance by exact Hpow.
    replace (n + a * n + n)%nat with (n + S a * n)%nat by lia.
    rewrite IH. do 2 f_equal. f_equal. lia.
Qed.

Lemma generate_multivariate_series_spec n_series n bv corr nl rs :
  pow_2_overflows libm_pow corr = false ->
  generate_multivariate_series libm_pow n_series n bv corr nl rs
  = Ok (fold_left
          (fun d i =>
             <[series_name i :=
                 series_of_call libm_pow n
                   (match bv with None => default_base_values n_series | Some l => l end)
                   corr nl rs i]> d)
          (seq 0 n_series) ∅,
        advance rs (n + n_series * n)).
Proof.
  intros Hpow.
  unfold generate_multivariate_series, bind. rewrite np_random_randn_spec.
  pose proof (multivariate_loop_spec n
                (match bv with None => default_base_values n_series | Some l => l end)
                corr nl rs n_series Hpow 0 ∅) as H.
  replace (n + 0 * n)%nat with n in H by lia.
  exact H.
Qed.

(** With at least one series, an overflowing square makes the call raise. *)
Lemma generate_multivariate_series_overflow n_series n bv corr nl rs :
  pow_2_overflows libm_pow corr = true -> (0 < n_series)%nat ->
  generate_multivariate_series libm_pow n_series n bv corr nl rs
  = Raise OverflowError.
Proof.
  intros Hpow Hn. destruct n_series as [|k]; [lia|].
  unfold generate_multivariate_series, bind. rewrite np_random_randn_spec.
  cbn [seq foldM]. unfold bind.
  now rewrite multivariate_step_overflow by exact Hpow.
Qed.

End Multivariate.

(** The dictionary the loop builds: one entry per index. *)
Lemma series_dict_lookup {V} (f : nat -> V) k : forall a (d : gmap string V) i,
  fold_left (fun d i => <[series_name i := f i]> d) (seq a k) d !! series_name i
  = if decide (a <= i < a + k)%nat then Some (f i) else d !! series_name i.
Proof.
  induction k as [|k IH]; intros a d i; cbn [seq fold_left].
  - destruct (decide _); [lia | reflexivity].
  - rewrite IH. destruct (decide (S a <= i < S a + k)%nat).
    + destruct (decide _); [reflexivity | lia].
    + destruct (decide (a <= i < a + S k)%nat).
      * assert (i = a) as -> by lia. apply lookup_insert_eq.
      * apply lookup_insert_ne. intros H. apply series_name_inj in H. lia.
Qed.

Lemma series_dict_size {V} (f : nat -> V) k : forall a (d : gmap string V),
  (forall i, (a <= i)%nat -> d !! series_name i = None) ->
  size (fold_left (fun d i => <[series_name i := f i]> d) (seq a k) d)
  = (size d + k)%nat.
Proof.
  induction k as [|k IH]; intros a d Hfresh; cbn [seq fold_left]; [lia|].
  rewrite IH.
  - rewrite map_size_insert_None by (apply Hfresh; lia). lia.
  - intros i Hi. rewrite lookup_insert_ne; [apply Hfresh; lia|].
    intros H. apply series_name_inj in H. lia.
Qed.

Lemma series_values_length libm_pow n base corr nl common individual :
  length common = n -> length individual = n ->
  length (series_values libm_pow n base corr nl common individual) = n.
Proof.
  intros H1 H2. unfold series_values.
  rewrite !arr_add_length, !length_map, arr_add_length, !length_map,
    np_linspace_length, H1, H2. lia.
Qed.

Lemma series_of_call_length libm_pow n bv corr nl rs i :
  length (series_of_call libm_pow n bv corr nl rs i) = n.
Proof. apply series_values_length; apply draws_length. Qed.

(** One value of a series. *)
Lemma series_values_lookup libm_pow n base corr nl common individual j z w r :
  common !! j = Some z -> individual !! j = Some w ->
  np_linspace (F64.of_Z 0) (base * F64.lit_0_3)%f64 n !! j = Some r ->
  series_values libm_pow n base corr nl common individual !! j
  = Some ((base + r)
          + ((corr * z
              + F64.sqrt (F64.of_Z 1 - libm_pow corr (F64.of_Z 2)) * w) * base)
            * nl)%f64.
Proof.
  intros Hz Hw Hr. unfold series_values.
  apply arr_add_lookup.
  - change (map ?f ?l) with (f <$> l). now rewrite list_lookup_fmap, Hr.
  - change (map ?f ?l) with (f <$> l). rewrite list_lookup_fmap.
    erewrite arr_add_lookup; [reflexivity | |].
    + now rewrite list_lookup_fmap, Hz.
    + now rewrite list_lookup_fmap, Hw.
Qed.

(** The last point of [np.linspace] is the stop value. *)
Lemma np_linspace_last start stop num :
  (2 <= num)%nat -> np_linspace start stop num !! (num - 1)%nat = Some stop.
Proof.
  intros H. destruct num as [|[|div]]; [lia | lia |].
  unfold np_linspace. replace (S (S div) - 1)%nat with (S div) by lia.
  apply list_lookup_insert_eq.
  destruct (F64.eqb _ _); rewrite !length_map, np_arange_length; lia.
Qed.

(** The base value of a series: the entry of the list at its index, and
    100.0 past the end of the list. *)
Lemma base_of_lookup bv i :
  base_of bv i = match bv !! i with Some b => b | None => F64.lit_100 end.
Proof.
  unfold base_of. destruct (Nat.ltb_spec i (length bv)) as [H|H].
  - destruct (lookup_lt_is_Some_2 bv i H) as [b Hb]. rewrite Hb.
    now apply nth_lookup_Some.
  - now rewrite (lookup_ge_None_2 bv i H).
Qed.

Lemma base_of_default k i :
  (i < k)%nat ->
  base_of (default_base_values k) i = (F64.lit_100 + F64.of_Z (Z.of_nat i * 50))%f64.
Proof.
  intros Hi. unfold base_of, default_base_values.
  rewrite length_map, np_arange_length.
  destruct (Nat.ltb_spec i k); [|lia].
  apply nth_lookup_Some.
  apply (map_arange_lookup (fun i => F64.lit_100 + F64.of_Z (i * 50))%f64), Hi.
Qed.

(** The base value of series [i], whether the list is supplied or not. *)
Lemma base_of_call n_series bv i :
  (i < n_series)%nat ->
  base_of (match bv with None => default_base_values n_series | Some l => l end) i
  = match bv with
    | None => (F64.lit_100 + F64.of_Z (Z.of_nat i * 50))%f64
    | Some l => match l !! i with Some b => b | None => F64.lit_100 end
    end.
Proof.
  intros Hi. destruct bv as [l|]; [apply base_of_lookup | now apply base_of_default].
Qed.

(** C7: a call of [generate_multivariate_series] draws one shared
    standard-normal sequence of [n_points] values (the first [n_points]
    draws), and after it one sequence of [n_points] values per series, the
    [i]-th block for ["series_i"]: [n_points * (1 + n_series)] draws in all.
    The value of series [i] at index [j] is
    [base_i + ramp_j + (correlation * common_j
       + sqrt(1 - correlation ** 2) * individual_ij) * base_i * noise_level],
    where [base_i] is [base_values[i]] (100.0 past the end of the list, and
    [100.0 + i * 50] when the list is omitted) and the ramp is
    [np.linspace(0, base_i * 0.3, n_points)], whose last point is
    [base_i * 0.3]. The series exist when the call returns: it raises
    [OverflowError] when [correlation ** 2] overflows. *)
Theorem one_common_component_per_call libm_pow n_series n bv corr nl rs :
  pow_2_overflows libm_pow corr = false ->
  exists d,
    generate_multivariate_series libm_pow n_series n bv corr nl rs
    = Ok (d, advance rs (n + n_series * n))
    /\ forall i, (i < n_series)%nat ->
       let base :=
         match bv with
         | None => (F64.lit_100 + F64.of_Z (Z.of_nat i * 50))%f64
         | Some l => match l !! i with Some b => b | None => F64.lit_100 end
         end in
       let ramp := np_linspace (F64.of_Z 0) (base * F64.lit_0_3)%f64 n in
       exists vals,
         d !! series_name i = Some vals
         /\ length vals = n
         /\ ((2 <= n)%nat -> ramp !! (n - 1)%nat = Some (base * F64.lit_0_3)%f64)
         /\ forall j, (j < n)%nat ->
            exists r,
              ramp !! j = Some r
              /\ vals !! j
                 = Some ((base + r)
                         + ((corr * normals rs (normals_used rs + j)
                             + F64.sqrt (F64.of_Z 1 - libm_pow corr (F64.of_Z 2))
                               * normals rs (normals_used rs + (n + i * n) + j)) * base)
                           * nl)%f64.
Proof.
  intros Hpow. rewrite generate_multivariate_series_spec by exact Hpow.
  eexists. split; [reflexivity|].
  intros i Hi base ramp.
  rewrite (series_dict_lookup _ n_series 0 ∅ i).
  destruct (decide _) as [_|]; [|lia].
  eexists. split; [reflexivity|].
  split; [apply series_of_call_length|].
  split; [apply np_linspace_last|].
  intros j Hj.
  destruct (ramp !! j) as [r|] eqn:Er.
  2:{ apply lookup_ge_None in Er. unfold ramp in Er.
      rewrite np_linspace_length in Er. lia. }
  exists r. split; [reflexivity|].
  unfold series_of_call. rewrite (base_of_call n_series bv i Hi). fold base.
  apply series_values_lookup; [| | exact Er].
  - now apply draws_lookup.
  - rewrite draws_lookup by exact Hj. reflexivity.
Qed.

(** Two series of three points from one supplied base value: the first is
    built on it, the second on 100.0, both on the first three draws. *)
Lemma one_common_component_of_two_series :
  exists d,
    generate_multivariate_series (fun x _ => x * x)%f64 2 3 (Some [F64.lit_1000000])
      F64.lit_0_5 F64.lit_0_1 sample_rs
    = Ok (d, advance sample_rs (3 + 2 * 3))
    /\ forall i, (i < 2)%nat ->
       let base :=
         match [F64.lit_1000000] !! i with Some b => b | None => F64.lit_100 end in
       let ramp := np_linspace (F64.of_Z 0) (base * F64.lit_0_3)%f64 3 in
       exists vals,
         d !! series_name i = Some vals
         /\ length vals = 3%nat
         /\ ((2 <= 3)%nat -> ramp !! (3 - 1)%nat = Some (base * F64.lit_0_3)%f64)
         /\ forall j, (j < 3)%nat ->
            exists r,
              ramp !! j = Some r
              /\ vals !! j
                 = Some ((base + r)
                         + ((F64.lit_0_5 * normals sample_rs (normals_used sample_rs + j)
                             + F64.sqrt (F64.of_Z 1 - (F64.lit_0_5 * F64.lit_0_5))
                               * normals sample_rs
                                   (normals_used sample_rs + (3 + i * 3) + j)) * base)
                           * F64.lit_0_1)%f64.
Proof.
  apply (one_common_component_per_call (fun x _ => x * x)%f64 2 3
           (Some [F64.lit_1000000]) F64.lit_0_5 F64.lit_0_1 sample_rs).
  reflexivity.
Defined.

Lemma base_of_short bv i : (length bv <= i)%nat -> base_of bv i = F64.lit_100.
Proof.
  intros H. unfold base_of.
  destruct (Nat.ltb_spec i (length bv)); [lia | reflexivity].
Qed.

(** C10 (as amended): with an explicit [base_values] list of any length and
    a correlation whose square does not overflow,
    [generate_multivariate_series] does not raise and returns [n_series]
    entries, one per name ["series_i"]; every series whose index is at least
    [len(base_values)] is the series generated from the base value 100.0. *)
Theorem short_base_values_fall_back_to_100 libm_pow n_series n bv corr nl rs :
  pow_2_overflows libm_pow corr = false ->
  exists d,
    generate_multivariate_series libm_pow n_series n (Some bv) corr nl rs
    = Ok (d, advance rs (n + n_series * n))
    /\ size d = n_series
    /\ (forall i, (i < n_series)%nat ->
          exists vals, d !! series_name i = Some vals /\ length vals = n)
    /\ (forall i, (length bv <= i)%nat -> (i < n_series)%nat ->
          d !! series_name i
          = Some (series_values libm_pow n F64.lit_100 corr nl
                    (draws rs n) (draws (advance rs (n + i * n)) n))).
Proof.
  intros Hpow. rewrite generate_multivariate_series_spec by exact Hpow.
  eexists. split; [reflexivity|]. split; [|split].
  - rewrite series_dict_size; [rewrite map_size_empty; lia|].
    intros i _. apply lookup_empty.
  - intros i Hi. rewrite (series_dict_lookup _ n_series 0 ∅ i).
    destruct (decide _) as [_|]; [|lia].
    eexists. split; [reflexivity | apply series_of_call_length].
  - intros i Hshort Hi. rewrite (series_dict_lookup _ n_series 0 ∅ i).
    destruct (decide _) as [_|]; [|lia].
    unfold series_of_call. now rewrite base_of_short.
Qed.

(** Three series from two base values: the third uses 100.0. *)
Lemma short_base_values_three_series :
  exists d rs',
    generate_multivariate_series (fun x _ => x * x)%f64 3 2
      (Some [F64.lit_1000000; F64.lit_1500000]) F64.lit_0_5 F64.lit_0_1 sample_rs
    = Ok (d, rs')
    /\ size d = 3%nat
    /\ d !! "series_2"
       = Some (series_values (fun x _ => x * x)%f64 2 F64.lit_100 F64.lit_0_5 F64.lit_0_1
                 (draws sample_rs 2) (draws (advance sample_rs 6) 2)).
Proof.
  destruct (short_base_values_fall_back_to_100 (fun x _ => x * x)%f64 3 2
              [F64.lit_1000000; F64.lit_1500000] F64.lit_0_5 F64.lit_0_1 sample_rs)
    as (d & Heq & Hsize & _ & Hshort); [reflexivity|].
  exists d, (advance sample_rs (2 + 3 * 2)). split; [exact Heq|]. split; [exact Hsize|].
  apply (Hshort 2%nat); simpl; lia.
Defined.

(** C10, as stated, fails when [correlation ** 2] overflows: with three
    series, two base values and the correlation 1e200 the call raises
    [OverflowError] in the first pass of the loop and produces no entry. *)
Lemma short_base_values_with_huge_correlation_raise :
  generate_multivariate_series (fun x _ => x * x)%f64 3 2
    (Some [F64.lit_1000000; F64.lit_1500000]) huge_correlation F64.lit_0_1 sample_rs
  = Raise OverflowError
  /\ F64.is_finite huge_correlation = true
  /\ (huge_correlation * huge_correlation)%f64 = S754_infinity false.
Proof.
  split; [|split; reflexivity].
  apply generate_multivariate_series_overflow; [reflexivity | lia].
Qed.

(* ===================================================================== *)
(** * Covariates *)
(* ===================================================================== *)

(** The loop behind [dict_of_enumerate], from the index [a] and the
    dictionary [d]. *)
Lemma dict_of_enumerate_loop {V} (f : nat -> string -> V) keys :
  forall a (d : gmap string V) k,
  let d' := fold_left (fun d ik => <[snd ik := f (fst ik) (snd ik)]> d)
              (zip (seq a (length keys)) keys) d in
  (k ∈ keys /\ (exists i, d' !! k = Some (f i k)))
  \/ ((k ∉ keys) /\ (d' !! k = d !! k)).
Proof.
  induction keys as [|x keys IH]; intros a d k.
  - right. split; [apply not_elem_of_nil | reflexivity].
  - cbn [length seq].
    change (zip (a :: seq (S a) (length keys)) (x :: keys))
      with ((a, x) :: zip (seq (S a) (length keys)) keys).
    cbn [fold_left fst snd].
    destruct (IH (S a) (<[x := f a x]> d) k) as [[Hin Hex]|[Hnin Heq]].
    + left. split; [now apply list_elem_of_further | exact Hex].
    + destruct (decide (x = k)) as [->|Hne].
      * left. split; [apply list_elem_of_here|].
        exists a. cbv zeta. rewrite Heq. apply lookup_insert_eq.
      * right. split.
        -- intros [->|H]%elem_of_cons; [congruence | contradiction].
        -- cbv zeta. rewrite Heq. now apply lookup_insert_ne.
Qed.

Lemma dict_of_enumerate_lookup {V} (f : nat -> string -> V) keys k :
  (k ∈ keys /\ (exists i, dict_of_enumerate f keys !! k = Some (f i k)))
  \/ ((k ∉ keys) /\ (dict_of_enumerate f keys !! k = None)).
Proof.
  destruct (dict_of_enumerate_loop f keys 0%nat ∅ k) as [H|[H1 H2]]; [left; exact H|].
  right. split; [exact H1|]. unfold dict_of_enumerate. rewrite H2. apply lookup_empty.
Qed.

(** The loop behind [dict_of_keysM] when every value is produced with the
    same number of draws and has the property [P]. *)
Lemma dict_of_keysM_loop {V} (f : string -> M V) (P : V -> Prop) (cost : nat) :
  (forall k rs, exists v, f k rs = Ok (v, advance rs cost) /\ P v) ->
  forall keys (d : gmap string V) rs,
  exists d',
    foldM (fun d k => (let* v := f k in ret (<[k := v]> d))%rng) keys d rs
    = Ok (d', advance rs (length keys * cost))
    /\ forall k,
         (k ∈ keys /\ (exists v, d' !! k = Some v /\ P v))
         \/ ((k ∉ keys) /\ (d' !! k = d !! k)).
Proof.
  intros Hf. induction keys as [|x keys IH]; intros d rs.
  - exists d. split; [cbn; unfold ret; now rewrite advance_0|].
    intros k. right. split; [apply not_elem_of_nil | reflexivity].
  - destruct (Hf x rs) as (v & Hv & HP).
    destruct (IH (<[x := v]> d) (advance rs cost)) as (d' & Heq & Hd').
    exists d'. split.
    + cbn [foldM]. unfold bind at 1, bind at 1. rewrite Hv. unfold ret at 1.
      rewrite Heq, advance_advance. reflexivity.
    + intros k. destruct (Hd' k) as [[Hin Hex]|[Hnin Heq']].
      * left. split; [now apply list_elem_of_further | exact Hex].
      * destruct (decide (x = k)) as [->|Hne].
        -- left. split; [apply list_elem_of_here|].
           exists v. split; [|exact HP]. rewrite Heq'. apply lookup_insert_eq.
        -- right. split.
           ++ intros [->|H]%elem_of_cons; [congruence | contradiction].
           ++ rewrite Heq'. now apply lookup_insert_ne.
Qed.

Lemma dict_of_keysM_spec {V} (f : string -> M V) (P : V -> Prop) (cost : nat) keys rs :
  (forall k rs, exists v, f k rs = Ok (v, advance rs cost) /\ P v) ->
  exists d,
    dict_of_keysM f keys rs = Ok (d, advance rs (length keys * cost))
    /\ (forall k, k ∈ keys -> exists v, d !! k = Some v /\ P v)
    /\ (forall k v, d !! k = Some v -> k ∈ keys /\ P v).
Proof.
  intros Hf.
  destruct (dict_of_keysM_loop f P cost Hf keys ∅ rs) as (d & Heq & Hd).
  exists d. split; [exact Heq|]. split.
  - intros k Hk. destruct (Hd k) as [[_ H]|[H _]]; [exact H | contradiction].
  - intros k v Hkv. destruct (Hd k) as [[Hin (v' & Hv' & HP)]|[_ H]].
    + rewrite Hkv in Hv'. injection Hv' as <-. auto.
    + rewrite Hkv, lookup_empty in H. discriminate.
Qed.

Lemma daily_wave_ok np_sin offset scale sd t rs :
  scale_refused (F64.of_Z sd) = false ->
  exists v, daily_wave np_sin offset scale sd t rs = Ok (v, advance rs 1).
Proof.
  intros H. unfold daily_wave, bind, np_random_normal1. rewrite H.
  unfold bind, gauss, ret. eexists. do 2 f_equal.
  unfold advance. f_equal. lia.
Qed.

Lemma mapM_daily_wave np_sin offset scale sd l :
  scale_refused (F64.of_Z sd) = false ->
  forall rs, exists vals,
    mapM (daily_wave np_sin offset scale sd) l rs = Ok (vals, advance rs (length l))
    /\ length vals = length l.
Proof.
  intros H. induction l as [|t l IH]; intros rs.
  - exists []. split; [cbn; unfold ret; now rewrite advance_0 | reflexivity].
  - destruct (daily_wave_ok np_sin offset scale sd t rs H) as (v & Hv).
    destruct (IH (advance rs 1)) as (vals & Heq & Hlen).
    exists (v :: vals). split; [|cbn; now rewrite Hlen].
    cbn [mapM]. unfold bind at 1. rewrite Hv. unfold bind at 1. rewrite Heq.
    unfold ret. rewrite advance_advance. reflexivity.
Qed.

Lemma temperature_series_ok np_sin total :
  forall (k : string) rs, exists v,
    mapM (daily_wave np_sin 20 10 2) (np_arange total) rs = Ok (v, advance rs total)
    /\ length v = total.
Proof.
  intros _ rs.
  destruct (mapM_daily_wave np_sin 20 10 2 (np_arange total) eq_refl rs)
    as (vals & Heq & Hlen).
  rewrite np_arange_length in Heq, Hlen. eauto.
Qed.

(** A run of [generate_covariates]: it never raises, and the only part that
    depends on the random generator is the temperature mapping, which holds
    one sequence of [total_len] values per identifier. *)
Lemma generate_covariates_run
    np_sin (n_points : nat) (series_ids : list string)
    (include_horizon : bool) (horizon_len : nat) rs :
  let total_len :=
    if include_horizon then (n_points + horizon_len)%nat else n_points in
  exists temperature,
    generate_covariates np_sin n_points series_ids include_horizon horizon_len rs
    = Ok (mkCovariates
            {[ "base_price" :=
                 dict_of_enumerate
                   (fun i _ => (F64.lit_100 + F64.of_Z (Z.of_nat i * 50))%f64)
                   series_ids ]}
            {[ "category" :=
                 dict_of_enumerate
                   (fun i _ => nth (i mod length categories)%nat categories "")
                   series_ids ]}
            {[ "temperature" := temperature ]}
            {[ "day_of_week" :=
                 dict_of_enumerate
                   (fun _ _ => map (fun t => nth (Z.to_nat (t mod 7)) week_days "")
                                 (np_arange total_len)) series_ids ]},
          advance rs (length series_ids * total_len))
    /\ (forall sid, sid ∈ series_ids ->
          exists l, temperature !! sid = Some l /\ length l = total_len)
    /\ (forall sid l, temperature !! sid = Some l ->
          sid ∈ series_ids /\ length l = total_len).
Proof.
  intros total_len. unfold generate_covariates. fold total_len.
  destruct (dict_of_keysM_spec
              (fun _ => mapM (daily_wave np_sin 20 10 2) (np_arange total_len))
              (fun l => length l = total_len) total_len series_ids rs
              (temperature_series_ok np_sin total_len))
    as (temp & Htemp & Hin & Hall).
  exists temp. unfold bind. rewrite Htemp. unfold ret.
  split; [reflexivity|]. split; assumption.
Qed.

(** C8: [generate_covariates] returns (it does not raise) a bundle in which
    every supplied series identifier has an entry in each of the four
    sub-mappings (under the covariates "base_price", "category",
    "temperature" and "day_of_week"), and every sequence of the two dynamic
    sub-mappings has [n_points + horizon_len] elements when
    [include_horizon] is true and [n_points] elements otherwise. *)
Theorem covariates_cover_every_identifier
    np_sin (n_points : nat) (series_ids : list string)
    (include_horizon : bool) (horizon_len : nat) rs :
  let total_len :=
    if include_horizon then (n_points + horizon_len)%nat else n_points in
  exists c rs',
    generate_covariates np_sin n_points series_ids include_horizon horizon_len rs
    = Ok (c, rs')
    /\ (forall sid, sid ∈ series_ids ->
          (exists m v, static_numerical_covariates c !! "base_price" = Some m
                       /\ m !! sid = Some v)
          /\ (exists m v, static_categorical_covariates c !! "category" = Some m
                          /\ m !! sid = Some v)
          /\ (exists m l, dynamic_numerical_covariates c !! "temperature" = Some m
                          /\ m !! sid = Some l /\ length l = total_len)
          /\ (exists m l, dynamic_categorical_covariates c !! "day_of_week" = Some m
                          /\ m !! sid = Some l /\ length l = total_len))
    /\ (forall name m sid l,
          dynamic_numerical_covariates c !! name = Some m ->
          m !! sid = Some l -> length l = total_len)
    /\ (forall name m sid l,
          dynamic_categorical_covariates c !! name = Some m ->
          m !! sid = Some l -> length l = total_len).
Proof.
  intros total_len.
  destruct (generate_covariates_run np_sin n_points series_ids include_horizon
              horizon_len rs) as (temp & Heq & Hin & Hall).
  fold total_len in Heq, Hin, Hall.
  do 2 eexists. split; [exact Heq|].
  cbn [static_numerical_covariates static_categorical_covariates
       dynamic_numerical_covariates dynamic_categorical_covariates].
  split; [|split].
  - intros sid Hsid. repeat split.
    + eexists.
      destruct (dict_of_enumerate_lookup
                  (fun i (_ : string) => (F64.lit_100 + F64.of_Z (Z.of_nat i * 50))%f64)
                  series_ids sid) as [[_ (i & Hi)]|[Hn _]]; [|contradiction].
      eexists. split; [apply lookup_singleton_eq | exact Hi].
    + eexists.
      destruct (dict_of_enumerate_lookup
                  (fun i (_ : string) => nth (i mod length categories)%nat categories "")
                  series_ids sid) as [[_ (i & Hi)]|[Hn _]]; [|contradiction].
      eexists. split; [apply lookup_singleton_eq | exact Hi].
    + destruct (Hin sid Hsid) as (l & Hl & Hlen).
      exists temp, l. split; [apply lookup_singleton_eq | auto].
    + eexists.
      destruct (dict_of_enumerate_lookup
                  (fun (_ : nat) (_ : string) =>
                     map (fun t => nth (Z.to_nat (t mod 7)) week_days "")
                       (np_arange total_len))
                  series_ids sid) as [[_ (i & Hi)]|[Hn _]]; [|contradiction].
      eexists. split; [apply lookup_singleton_eq|]. split; [exact Hi|].
      now rewrite length_map, np_arange_length.
  - intros name m sid l Hm Hl.
    apply lookup_singleton_Some in Hm as [_ <-].
    now destruct (Hall sid l Hl).
  - intros name m sid l Hm Hl.
    apply lookup_singleton_Some in Hm as [_ <-].
    destruct (dict_of_enumerate_lookup
                (fun (_ : nat) (_ : string) =>
                   map (fun t => nth (Z.to_nat (t mod 7)) week_days "")
                     (np_arange total_len))
                series_ids sid) as [[_ (i & Hi)]|[_ Hn]].
    + rewrite Hl in Hi. injection Hi as ->.
      now rewrite length_map, np_arange_length.
    + rewrite Hl in Hn. discriminate.
Qed.

(* ===================================================================== *)
(** * Timestamps *)
(* ===================================================================== *)

Lemma rmap_length {A B} (f : A -> result B) l out :
  rmap f l = Ok out -> length out = length l.
Proof.
  revert out. induction l as [|a l IH]; intros out; cbn [rmap].
  - now intros [= <-].
  - destruct (f a) as [b|e]; cbn [rbind]; [|discriminate].
    destruct (rmap f l) as [bs|e]; cbn [rbind]; [|discriminate].
    intros [= <-]. cbn. f_equal. now apply IH.
Qed.

(** A comprehension returns when each of its elements does. *)
Lemma rmap_ok {A B} (f : A -> result B) (g : A -> B) l :
  (forall a, a ∈ l -> f a = Ok (g a)) -> rmap f l = Ok (map g l).
Proof.
  induction l as [|a l IH]; intros H; [reflexivity|].
  cbn [rmap map]. rewrite (H a) by apply list_elem_of_here. cbn [rbind].
  rewrite IH; [reflexivity|]. intros b Hb. apply H. now apply list_elem_of_further.
Qed.

(** The loop that appends is the comprehension over the indices. *)
Lemma timestamps_loop_rmap start_date delta indices : forall timestamps,
  timestamps_loop start_date delta indices timestamps
  = rbind (rmap (timestamp_at start_date delta) indices)
      (fun l => Ok (timestamps ++ l)).
Proof.
  induction indices as [|i indices IH]; intros acc; cbn [timestamps_loop rmap].
  - cbn. now rewrite app_nil_r.
  - destruct (timestamp_at start_date delta i) as [ts|e]; cbn [rbind]; [|reflexivity].
    rewrite IH. destruct (rmap _ indices) as [l|e]; cbn [rbind]; [|reflexivity].
    now rewrite <- app_assoc.
Qed.

Lemma generate_timestamps_rmap now n start_date freq :
  generate_timestamps now n (Some start_date) freq
  = rmap (timestamp_at start_date (freq_delta_get freq)) (np_arange n).
Proof.
  unfold generate_timestamps. cbn [rbind]. rewrite timestamps_loop_rmap.
  destruct (rmap _ _); reflexivity.
Qed.

(** The step of each frequency code is not negative. *)
Lemma freq_delta_nonneg freq : 0 <= Datetime.delta_to_us (freq_delta_get freq).
Proof.
  unfold freq_delta_get. repeat destruct (String.eqb freq _); vm_compute; discriminate.
Qed.

Lemma days_before_month_nonneg y m : 1 <= m <= 12 -> 0 <= Datetime.days_before_month y m.
Proof.
  intros Hm. unfold Datetime.days_before_month.
  assert (0 <= nth (Z.to_nat m) Datetime.DAYS_BEFORE_MONTH 0).
  { assert (m = 1 \/ m = 2 \/ m = 3 \/ m = 4 \/ m = 5 \/ m = 6 \/ m = 7 \/ m = 8
            \/ m = 9 \/ m = 10 \/ m = 11 \/ m = 12) as Hc by lia.
    repeat destruct Hc as [->|Hc]; try subst m; vm_compute; discriminate. }
  destruct (_ && _)%bool; lia.
Qed.

(** A valid [datetime] lies on the first day of year 1 or later. *)
Lemma valid_datetime_us dt :
  Datetime.valid dt = true -> Datetime.US_PER_DAY <= Datetime.datetime_to_us dt.
Proof.
  unfold Datetime.valid. rewrite !andb_true_iff.
  intros [[[[[[[[[[[[[Hy1 Hy2] Hm1] Hm2] Hd1] Hd2] Hh1] Hh2] Hmi1] Hmi2] Hs1] Hs2] Hu1] Hu2].
  apply Z.leb_le in Hy1, Hm1, Hm2, Hd1, Hh1, Hmi1, Hs1, Hu1.
  unfold Datetime.datetime_to_us, Datetime.toordinal, Datetime.ymd2ord,
    Datetime.days_before_year, Datetime.US_PER_DAY, Datetime.US_PER_SECOND.
  pose proof (days_before_month_nonneg (Datetime.year dt) (Datetime.month dt)
                (conj Hm1 Hm2)) as Hdbm.
  set (y1 := Datetime.year dt - 1) in *.
  assert (0 <= y1) by (unfold y1; lia).
  assert (0 <= y1 / 400) by (apply Z.div_pos; lia).
  assert (y1 / 100 <= y1 / 4).
  { apply Z.div_le_compat_l; lia. }
  lia.
Qed.

(** [start + i * delta] is a [datetime] when it falls on a day up to
    9999-12-31. *)
Lemma shifted_datetime_ok start delta i :
  0 <= Datetime.delta_to_us delta -> 0 <= i ->
  Datetime.US_PER_DAY <= Datetime.datetime_to_us start ->
  (Datetime.datetime_to_us start + i * Datetime.delta_to_us delta) / Datetime.US_PER_DAY
    <= Datetime.MAXORDINAL ->
  exists step dt,
    Datetime.mul i delta = Ok step /\ Datetime.add start step = Ok dt.
Proof.
  intros Hdelta Hi Hstart Hlast.
  set (x := i * Datetime.delta_to_us delta) in *.
  assert (0 <= x) as Hx by (unfold x; apply Z.mul_nonneg_nonneg; assumption).
  unfold Datetime.mul, Datetime.us_to_delta. fold x.
  unfold Datetime.US_PER_DAY, Datetime.US_PER_SECOND, Datetime.MAXORDINAL,
    Datetime.MAX_DELTA_DAYS in *.
  pose proof (Z.div_mod x (86400 * 1000000) ltac:(lia)) as Hdm.
  pose proof (Z.mod_pos_bound x (86400 * 1000000) ltac:(lia)) as Hr.
  set (d := x / (86400 * 1000000)) in *.
  set (r := x mod (86400 * 1000000)) in *.
  assert (0 <= d) as Hd0 by (apply Z.div_pos; lia).
  assert (d <= (Datetime.datetime_to_us start + x) / (86400 * 1000000)) as Hdle
    by (apply Z.div_le_mono; lia).
  destruct (Z.leb_spec (Z.abs d) 999999999) as [_|Hbad]; [|lia].
  eexists. unfold Datetime.add.
  assert (Datetime.delta_to_us (Datetime.mkTimedelta d (r / 1000000) (r mod 1000000)) = x)
    as ->.
  { unfold Datetime.delta_to_us, Datetime.US_PER_SECOND. cbn.
    pose proof (Z.div_mod r 1000000 ltac:(lia)). lia. }
  unfold Datetime.US_PER_DAY, Datetime.US_PER_SECOND, Datetime.MAXORDINAL.
  set (d' := (Datetime.datetime_to_us start + x) / (86400 * 1000000)) in *.
  assert (1 <= d') as Hd1.
  { unfold d'. apply Z.div_le_lower_bound; lia. }
  destruct (Z.ltb_spec 0 d') as [_|]; [|lia].
  destruct (Z.leb_spec d' 3652059) as [_|]; [|lia]. cbn [andb].
  destruct (Datetime.ord2ymd d') as [[y m] dd].
  eexists. split; reflexivity.
Qed.

(** The ordinal days from 1000-01-01 to 9999-12-31 have a year of four
    digits. *)
Lemma ord2ymd_year_range d :
  364878 <= d <= Datetime.MAXORDINAL ->
  1000 <= fst (fst (Datetime.ord2ymd d)) <= 9999.
Proof.
  intros Hd. unfold Datetime.ord2ymd, Datetime.MAXORDINAL, Datetime.DI400Y,
    Datetime.DI100Y, Datetime.DI4Y in *.
  set (n := d - 1).
  set (n400 := n / 146097). set (r400 := n mod 146097).
  set (n100 := r400 / 36524). set (r100 := r400 mod 36524).
  set (n4 := r100 / 1461). set (r4 := r100 mod 1461).
  set (n1 := r4 / 365). set (r1 := r4 mod 365).
  assert (Hn : 364877 <= n <= 3652058) by (unfold n; lia).
  pose proof (Z.div_mod n 146097 ltac:(lia)) as E400.
  pose proof (Z.mod_pos_bound n 146097 ltac:(lia)) as B400.
  pose proof (Z.div_mod r400 36524 ltac:(lia)) as E100.
  pose proof (Z.mod_pos_bound r400 36524 ltac:(lia)) as B100.
  pose proof (Z.div_mod r100 1461 ltac:(lia)) as E4.
  pose proof (Z.mod_pos_bound r100 1461 ltac:(lia)) as B4.
  pose proof (Z.div_mod r4 365 ltac:(lia)) as E1.
  pose proof (Z.mod_pos_bound r4 365 ltac:(lia)) as B1.
  fold n400 r400 in E400, B400. fold n100 r100 in E100, B100.
  fold n4 r4 in E4, B4. fold n1 r1 in E1, B1.
  clearbody n400 r400 n100 r100 n4 r4 n1 r1 n.
  destruct ((n1 =? 4) || (n100 =? 4)) eqn:Eb.
  - cbn [fst]. apply orb_true_iff in Eb as [Eb|Eb]; apply Z.eqb_eq in Eb; lia.
  - apply orb_false_iff in Eb as [Eb1 Eb2]. apply Z.eqb_neq in Eb1, Eb2.
    match goal with |- context [if ?c then _ else _] => destruct c end; cbn [fst]; lia.
Qed.

(** 364877 days precede the year 1000. *)
Lemma days_before_year_from_1000 y :
  1000 <= y -> 364877 <= Datetime.days_before_year y.
Proof.
  intros H. unfold Datetime.days_before_year.
  destruct (Z.eq_dec y 1000) as [->|Hne]; [vm_compute; discriminate|].
  assert (1000 <= y - 1) as H1 by lia. revert H1. generalize (y - 1). clear.
  intros y1 H. 
  pose proof (Z.div_mod y1 4 ltac:(lia)). pose proof (Z.mod_pos_bound y1 4 ltac:(lia)).
  pose proof (Z.div_mod y1 100 ltac:(lia)). pose proof (Z.mod_pos_bound y1 100 ltac:(lia)).
  pose proof (Z.div_mod y1 400 ltac:(lia)). pose proof (Z.mod_pos_bound y1 400 ltac:(lia)).
  lia.
Qed.

(** A valid [datetime] of the year 1000 or later lies on the ordinal day
    364878 (1000-01-01) or later. *)
Lemma valid_datetime_from_1000 dt :
  Datetime.valid dt = true -> 1000 <= Datetime.year dt ->
  364878 * Datetime.US_PER_DAY <= Datetime.datetime_to_us dt.
Proof.
  unfold Datetime.valid. rewrite !andb_true_iff.
  intros [[[[[[[[[[[[[Hy1 Hy2] Hm1] Hm2] Hd1] Hd2] Hh1] Hh2] Hmi1] Hmi2] Hs1] Hs2] Hu1] Hu2] Hy.
  apply Z.leb_le in Hy1, Hm1, Hm2, Hd1, Hh1, Hmi1, Hs1, Hu1.
  unfold Datetime.datetime_to_us, Datetime.toordinal, Datetime.ymd2ord,
    Datetime.US_PER_DAY, Datetime.US_PER_SECOND.
  pose proof (days_before_month_nonneg (Datetime.year dt) (Datetime.month dt)
                (conj Hm1 Hm2)) as Hdbm.
  pose proof (days_before_year_from_1000 (Datetime.year dt) Hy) as Hdby.
  revert Hdbm Hdby Hd1 Hh1 Hmi1 Hs1 Hu1. clear.
  generalize (Datetime.days_before_year (Datetime.year dt)).
  generalize (Datetime.days_before_month (Datetime.year dt) (Datetime.month dt)).
  generalize (Datetime.day dt), (Datetime.hour dt), (Datetime.minute dt),
    (Datetime.second dt), (Datetime.microsecond dt).
  intros. lia.
Qed.


(** The step [i * delta] stands for [i] times the microseconds of [delta]. *)
Lemma mul_delta_to_us i delta step :
  Datetime.mul i delta = Ok step ->
  Datetime.delta_to_us step = i * Datetime.delta_to_us delta.
Proof.
  unfold Datetime.mul, Datetime.us_to_delta.
  generalize (i * Datetime.delta_to_us delta). intros x.
  destruct (_ <=? _); [|discriminate]. intros [= <-].
  unfold Datetime.delta_to_us, Datetime.US_PER_DAY, Datetime.US_PER_SECOND.
  cbn [Datetime.days Datetime.seconds Datetime.microseconds].
  pose proof (Z.div_mod x (86400 * 1000000) ltac:(lia)).
  pose proof (Z.div_mod (x mod (86400 * 1000000)) 1000000 ltac:(lia)). lia.
Qed.

(** The year of a sum is the year of its ordinal day. *)
Lemma add_year dt td out :
  Datetime.add dt td = Ok out ->
  let d := (Datetime.datetime_to_us dt + Datetime.delta_to_us td) / Datetime.US_PER_DAY in
  d <= Datetime.MAXORDINAL /\ Datetime.year out = fst (fst (Datetime.ord2ymd d)).
Proof.
  unfold Datetime.add. cbv zeta.
  generalize ((Datetime.datetime_to_us dt + Datetime.delta_to_us td) / Datetime.US_PER_DAY).
  generalize ((Datetime.datetime_to_us dt + Datetime.delta_to_us td) mod Datetime.US_PER_DAY).
  intros r d.
  destruct (0 <? d); [|discriminate].
  destruct (Z.leb_spec d Datetime.MAXORDINAL) as [Hmax|]; [|discriminate].
  cbn [andb]. destruct (Datetime.ord2ymd d) as [[y m] dd].
  intros [= <-]. split; [exact Hmax | reflexivity].
Qed.

(** From a start in the year 1000 or later, every timestamp of the call has
    a year of four digits. *)
Lemma shifted_datetime_year start delta i step dt :
  0 <= Datetime.delta_to_us delta -> 0 <= i ->
  Datetime.valid start = true -> 1000 <= Datetime.year start ->
  Datetime.mul i delta = Ok step -> Datetime.add start step = Ok dt ->
  1000 <= Datetime.year dt <= 9999.
Proof.
  intros Hdelta Hi Hvalid Hy Hmul Hadd.
  pose proof (valid_datetime_from_1000 start Hvalid Hy) as Hstart.
  apply mul_delta_to_us in Hmul.
  apply add_year in Hadd as [Hmax ->]. rewrite Hmul in *.
  assert (0 <= i * Datetime.delta_to_us delta) as Hx
    by (apply Z.mul_nonneg_nonneg; assumption).
  revert Hmax Hstart Hx. generalize (i * Datetime.delta_to_us delta).
  generalize (Datetime.datetime_to_us start). intros s x Hmax Hstart Hx.
  apply ord2ymd_year_range. split; [|exact Hmax].
  apply Z.div_le_lower_bound; [reflexivity|]. lia.
Qed.

(** C9 (as amended): for every point count and every valid start time of
    the year 1000 or later such that the last timestamp falls on a day up to
    9999-12-31, [generate_timestamps] returns [n_points] strings, the [i]-th
    being [start + i * step] formatted as [MM/DD/YYYY, hh:mm AM/PM], with a
    year from 1000 to 9999 and so of four digits; the step is one hour for
    'H', one day for 'D', one week for 'W', 30 days for 'M' and one hour for
    any other code. *)
Theorem timestamps_are_start_plus_steps now n start_date freq :
  Datetime.valid start_date = true ->
  1000 <= Datetime.year start_date ->
  ((0 < n)%nat ->
   (Datetime.datetime_to_us start_date
    + (Z.of_nat n - 1) * Datetime.delta_to_us (freq_delta_get freq))
     / Datetime.US_PER_DAY <= Datetime.MAXORDINAL) ->
  exists out,
    generate_timestamps now n (Some start_date) freq = Ok out
    /\ length out = n
    /\ (forall i, (i < n)%nat ->
          exists step dt,
            Datetime.mul (Z.of_nat i) (freq_delta_get freq) = Ok step
            /\ Datetime.add start_date step = Ok dt
            /\ 1000 <= Datetime.year dt <= 9999
            /\ out !! i = Some (Datetime.strftime dt))
    /\ freq_delta_get "H" = Datetime.td_hours 1
    /\ freq_delta_get "D" = Datetime.td_days 1
    /\ freq_delta_get "W" = Datetime.td_weeks 1
    /\ freq_delta_get "M" = Datetime.td_days 30
    /\ (freq <> "H" -> freq <> "D" -> freq <> "W" -> freq <> "M" ->
        freq_delta_get freq = Datetime.td_hours 1).
Proof.
  intros Hvalid Hyear Hlast.
  set (delta := freq_delta_get freq) in *.
  assert (forall i, (i < n)%nat ->
            exists step dt,
              Datetime.mul (Z.of_nat i) delta = Ok step
              /\ Datetime.add start_date step = Ok dt) as Hok.
  { intros i Hi. apply shifted_datetime_ok.
    - apply freq_delta_nonneg.
    - lia.
    - apply valid_datetime_us, Hvalid.
    - eapply Z.le_trans; [|apply Hlast; lia].
      apply Z.div_le_mono; [vm_compute; reflexivity|].
      apply Z.add_le_mono_l, Z.mul_le_mono_nonneg_r; [apply freq_delta_nonneg | lia]. }
  rewrite generate_timestamps_rmap. fold delta.
  set (stamp := fun i => match timestamp_at start_date delta i with
                         | Ok ts => ts
                         | Raise _ => ""
                         end).
  assert (forall i step dt,
            Datetime.mul i delta = Ok step -> Datetime.add start_date step = Ok dt ->
            timestamp_at start_date delta i = Ok (Datetime.strftime dt)) as Hat.
  { intros i step dt Hmul Hadd. unfold timestamp_at.
    rewrite Hmul. cbn [rbind]. now rewrite Hadd. }
  rewrite (rmap_ok _ stamp).
  2:{ intros a Ha. unfold np_arange in Ha.
      apply list_elem_of_In, in_map_iff in Ha as (i & <- & Hi%in_seq).
      destruct (Hok i ltac:(lia)) as (step & dt & Hmul & Hadd).
      unfold stamp. now rewrite (Hat _ _ _ Hmul Hadd). }
  eexists. split; [reflexivity|]. split; [now rewrite length_map, np_arange_length|].
  split.
  - intros i Hi. destruct (Hok i Hi) as (step & dt & Hmul & Hadd).
    exists step, dt. split; [exact Hmul|]. split; [exact Hadd|].
    split.
    { apply (shifted_datetime_year start_date delta (Z.of_nat i) step dt);
        [apply freq_delta_nonneg | lia | exact Hvalid | exact Hyear
        | exact Hmul | exact Hadd]. }
    rewrite (map_arange_lookup stamp n i Hi). f_equal.
    unfold stamp. now rewrite (Hat _ _ _ Hmul Hadd).
  - unfold delta, freq_delta_get. repeat split; try reflexivity.
    intros H1 H2 H3 H4. apply String.eqb_neq in H1, H2, H3, H4.
    now rewrite H1, H2, H3, H4.
Qed.

Lemma timestamps_two_days :
  exists out,
    generate_timestamps sample_now 2 (Some sample_now) "D" = Ok out
    /\ length out = 2%nat
    /\ (forall i, (i < 2)%nat ->
          exists step dt,
            Datetime.mul (Z.of_nat i) (freq_delta_get "D") = Ok step
            /\ Datetime.add sample_now step = Ok dt
            /\ 1000 <= Datetime.year dt <= 9999
            /\ out !! i = Some (Datetime.strftime dt))
    /\ freq_delta_get "H" = Datetime.td_hours 1
    /\ freq_delta_get "D" = Datetime.td_days 1
    /\ freq_delta_get "W" = Datetime.td_weeks 1
    /\ freq_delta_get "M" = Datetime.td_days 30
    /\ ("D" <> "H" -> "D" <> "D" -> "D" <> "W" -> "D" <> "M" ->
        freq_delta_get "D" = Datetime.td_hours 1).
Proof.
  apply (timestamps_are_start_plus_steps sample_now 2 sample_now "D");
    [reflexivity | vm_compute; discriminate | intros _; vm_compute; discriminate].
Defined.

(** [generate_timestamps(n_points=2, start_date=T0, freq='D')] for
    [T0 = 2024-03-15 10:30]. *)
Example timestamps_two_days_value :
  generate_timestamps sample_now 2 (Some sample_now) "D"
  = Ok ["03/15/2024, 10:30 AM"; "03/16/2024, 10:30 AM"].
Proof. vm_compute. reflexivity. Qed.

(** Before the year 1000 the year is printed with fewer than four digits. *)
Example timestamp_of_year_999 :
  generate_timestamps sample_now 1 (Some (Datetime.mkDatetime 999 1 1 0 0 0 0)) "H"
  = Ok ["01/01/999, 12:00 AM"].
Proof. vm_compute. reflexivity. Qed.

(** C9, as stated, fails for a start time near the end of the calendar:
    one hour after 9999-12-31 23:00 is not a [datetime], and the call
    raises [OverflowError]. *)
Lemma timestamps_past_year_9999 :
  generate_timestamps sample_now 2
    (Some (Datetime.mkDatetime 9999 12 31 23 0 0 0)) "H"
  = Raise OverflowError
  /\ Datetime.valid (Datetime.mkDatetime 9999 12 31 23 0 0 0) = true.
Proof. split; vm_compute; reflexivity. Qed.

(* ===================================================================== *)
(** * Random anomaly indices and the payload *)
(* ===================================================================== *)

Lemma swap_length {A} (arr : list A) i j : length (swap arr i j) = length arr.
Proof.
  unfold swap. destruct (arr !! i), (arr !! j); try reflexivity.
  now rewrite !length_insert.
Qed.

Lemma shuffle_ok i : forall arr rs,
  exists out rs', shuffle i arr rs = Ok (out, rs') /\ length out = length arr.
Proof.
  induction i as [|i IH]; intros arr rs.
  - exists arr, rs. split; reflexivity.
  - cbn [shuffle]. unfold bind, randbelow.
    match goal with
    | |- context [shuffle i ?a ?r] => destruct (IH a r) as (out & rs' & -> & Hlen)
    end.
    exists out, rs'. split; [reflexivity|]. now rewrite Hlen, swap_length.
Qed.

(** Sampling without replacement returns when the sample is not larger
    than the population, and raises [ValueError] when it is. *)
Lemma np_random_choice_noreplace_ok a size rs :
  (size <= length a)%nat ->
  exists out rs',
    np_random_choice_noreplace a size rs = Ok (out, rs') /\ length out = size.
Proof.
  intros Hsize. unfold np_random_choice_noreplace.
  destruct (Nat.eqb_spec (length a) 0) as [H0|H0]; cbn [andb].
  - assert (size = 0%nat) as -> by lia. cbn [Nat.eqb negb].
    destruct (Nat.ltb_spec (length a) 0); [lia|].
    unfold bind, np_random_permutation.
    destruct (shuffle_ok (length a - 1) (np_arange (length a)) rs)
      as (out & rs' & -> & _).
    eexists _, _. split; [reflexivity|]. reflexivity.
  - destruct (Nat.ltb_spec (length a) size); [lia|].
    unfold bind, np_random_permutation.
    destruct (shuffle_ok (length a - 1) (np_arange (length a)) rs)
      as (out & rs' & -> & Hlen).
    eexists _, _. split; [reflexivity|].
    rewrite np_arange_length in Hlen.
    rewrite length_map, length_take. lia.
Qed.

Lemma np_random_choice_noreplace_too_many a size rs :
  (length a < size)%nat -> np_random_choice_noreplace a size rs = Raise ValueError.
Proof.
  intros H. unfold np_random_choice_noreplace.
  destruct (_ && _)%bool; [reflexivity|].
  destruct (Nat.ltb_spec (length a) size); [reflexivity | lia].
Qed.


(** With no point, the sample of one anomaly index cannot be taken. *)
Lemma generate_anomaly_series_random_empty base mag dir nl rs :
  scale_refused (base * nl)%f64 = false ->
  generate_anomaly_series 0 base None mag dir nl rs = Raise ValueError.
Proof.
  intros Hscale. unfold generate_anomaly_series, bind at 1.
  rewrite np_random_normal_ok by exact Hscale. reflexivity.
Qed.

(** The records of a payload: as many as timestamps when there are as many
    values and every value is finite. *)
Lemma payload_records_ok timestamps : forall values,
  length values = length timestamps ->
  Forall (fun v => F64.is_finite v = true) values ->
  exists recs,
    payload_records timestamps values = Ok recs
    /\ length recs = length timestamps
    /\ map timestamp recs = timestamps.
Proof.
  unfold payload_records.
  induction timestamps as [|ts timestamps IH]; intros [|v values] Hlen Hfin;
    try discriminate.
  - exists []. repeat split.
  - apply Forall_cons in Hfin as [Hv Hfin].
    destruct (IH values ltac:(simpl in Hlen; lia) Hfin) as (recs & Heq & Hl & Hts).
    assert (exists z, py_int v = Ok z) as (z & Hz).
    { destruct v; try discriminate; eexists; reflexivity. }
    exists (mkPayload ts z :: recs).
    change (zip (ts :: timestamps) (v :: values)) with ((ts, v) :: zip timestamps values).
    cbn [rmap fst snd]. rewrite Hz. cbn [rbind]. rewrite Heq. cbn [rbind].
    repeat split; cbn; congruence.
Qed.

Lemma generate_ad_payload_data_ok now n base inject ratio rs tss vals flags rs' :
  generate_timestamps now n None "H" = Ok tss ->
  ad_payload_series n base inject ratio rs = Ok ((vals, flags), rs') ->
  length tss = n -> length vals = n ->
  Forall (fun v => F64.is_finite v = true) vals ->
  exists recs,
    generate_ad_payload_data now n base inject ratio rs = Ok (recs, rs')
    /\ length recs = n
    /\ map timestamp recs = tss.
Proof.
  intros Hts Hser Hl1 Hl2 Hfin.
  destruct (payload_records_ok tss vals ltac:(lia) Hfin) as (recs & Heq & Hlen & Hmap).
  exists recs. split; [|split; [lia | exact Hmap]].
  unfold generate_ad_payload_data, bind. rewrite Hts. unfold lift at 1.
  rewrite Hser. cbn [fst]. unfold lift. now rewrite Heq.
Qed.


Lemma generate_timestamps_default now n freq start :
  Datetime.sub now (Datetime.td_days 30) = Ok start ->
  generate_timestamps now n None freq = generate_timestamps now n (Some start) freq.
Proof. intros H. unfold generate_timestamps. now rewrite H. Qed.

Lemma series_dict_values {V} (f : nat -> V) k : forall a (d : gmap string V) key v,
  fold_left (fun d i => <[series_name i := f i]> d) (seq a k) d !! key = Some v ->
  (exists i, (a <= i < a + k)%nat /\ key = series_name i /\ v = f i)
  \/ d !! key = Some v.
Proof.
  induction k as [|k IH]; intros a d key v; cbn [seq fold_left]; [auto|].
  intros H. apply IH in H as [(i & Hi & -> & ->)|H].
  - left. exists i. split; [lia | auto].
  - destruct (decide (series_name a = key)) as [<-|Hne].
    + rewrite lookup_insert_eq in H. injection H as <-.
      left. exists a. split; [lia | auto].
    + rewrite lookup_insert_ne in H by exact Hne. now right.
Qed.

(* ===================================================================== *)
(** * Lengths *)
(* ===================================================================== *)




(* ===================================================================== *)
(** * No point requested *)
(* ===================================================================== *)

(** With no point, no anomaly index is in range: the loop changes nothing
    and draws nothing. *)
Lemma inject_anomalies_no_point base mag dir idxs : forall st rs,
  foldM (inject_anomaly 0 base mag dir) idxs st rs = Ok (st, rs).
Proof.
  induction idxs as [|idx idxs IH]; intros st rs; [reflexivity|].
  cbn [foldM]. unfold bind, inject_anomaly at 1.
  assert (((0 <=? idx) && (idx <? Z.of_nat 0))%bool = false) as ->.
  { destruct (Z.leb_spec 0 idx), (Z.ltb_spec idx (Z.of_nat 0)); cbn [andb];
      try reflexivity; lia. }
  unfold ret. apply IH.
Qed.

Lemma electricity_prices_no_day (country : string) rs :
  electricity_prices 0 country rs = Ok ([], advance rs 0).
Proof. rewrite advance_0. reflexivity. Qed.

Lemma gen_forecast_series_ok np_sin total :
  forall (k : string) rs, exists v,
    mapM (daily_wave np_sin 5000 2000 200) (np_arange total) rs = Ok (v, advance rs total)
    /\ length v = total.
Proof.
  intros _ rs.
  destruct (mapM_daily_wave np_sin 5000 2000 200 (np_arange total) eq_refl rs)
    as (vals & Heq & Hlen).
  rewrite np_arange_length in Heq, Hlen. eauto.
Qed.

(** C1 (as amended): called with no point, every generator returns empty
    sequences and does not raise, under the conditions on which it returns
    at all: the trend, seasonal and trend-plus-seasonal series for a noise
    scale [base_value * noise_level] that is not negative; each series of
    [generate_multivariate_series] when [correlation ** 2] does not
    overflow; the values and flags of [generate_anomaly_series] when the
    anomaly indices are supplied and the noise scale is not negative; the
    timestamps (with the start omitted, when thirty days before the clock
    reading is a date); the records of [generate_ad_payload_data] with
    [inject_anomalies=False] when [base_value * 0.03] is not negative; the
    dynamic covariates of [generate_covariates] with
    [include_horizon=False]; and the prices of
    [generate_electricity_like_data] for no day. *)
Theorem no_point_gives_empty_sequences np_sin np_log1p libm_pow now rs :
  (forall trend_type base strength nl,
     scale_refused (base * nl)%f64 = false ->
     generate_trend_series np_log1p libm_pow 0 trend_type base strength nl rs
     = Ok ([], rs))
  /\ (forall base seasonality amplitude nl,
        scale_refused (base * nl)%f64 = false ->
        generate_seasonal_series np_sin 0 base seasonality amplitude nl rs
        = Ok ([], rs))
  /\ (forall base strength period amplitude nl,
        scale_refused (base * nl)%f64 = false ->
        generate_trend_seasonal_series np_sin 0 base strength period amplitude nl rs
        = Ok ([], rs))
  /\ (forall n_series base_values correlation nl,
        pow_2_overflows libm_pow correlation = false ->
        exists d,
          generate_multivariate_series libm_pow n_series 0 base_values correlation nl rs
          = Ok (d, rs)
          /\ size d = n_series
          /\ forall name l, d !! name = Some l -> l = [])
  /\ (forall base idxs magnitude direction nl,
        scale_refused (base * nl)%f64 = false ->
        generate_anomaly_series 0 base (Some idxs) magnitude direction nl rs
        = Ok (([], []), rs))
  /\ (forall start_date freq,
        generate_timestamps now 0 (Some start_date) freq = Ok [])
  /\ (forall freq start,
        Datetime.sub now (Datetime.td_days 30) = Ok start ->
        generate_timestamps now 0 None freq = Ok [])
  /\ (forall base ratio start,
        Datetime.sub now (Datetime.td_days 30) = Ok start ->
        scale_refused (base * F64.lit_0_03)%f64 = false ->
        generate_ad_payload_data now 0 base false ratio rs = Ok ([], rs))
  /\ (forall series_ids horizon_len,
        exists c rs',
          generate_covariates np_sin 0 series_ids false horizon_len rs = Ok (c, rs')
          /\ (forall name m sid l,
                dynamic_numerical_covariates c !! name = Some m ->
                m !! sid = Some l -> l = [])
          /\ (forall name m sid l,
                dynamic_categorical_covariates c !! name = Some m ->
                m !! sid = Some l -> l = []))
  /\ (forall countries,
        exists prices covs rs',
          generate_electricity_like_data np_sin 0 countries rs
          = Ok ((prices, covs), rs')
          /\ forall country l, prices !! country = Some l -> l = []).
Proof.
  split; [|split; [|split; [|split; [|split; [|split; [|split; [|split; [|split]]]]]]]].
  - intros tt base k nl Hs. rewrite generate_trend_series_ok by exact Hs.
    rewrite advance_0. do 2 f_equal.
    apply nil_length_inv. rewrite arr_add_length, trend_curve_length. lia.
  - intros base seas amp nl Hs. rewrite generate_seasonal_series_ok by exact Hs.
    now rewrite advance_0.
  - intros base k period amp nl Hs.
    rewrite generate_trend_seasonal_series_ok by exact Hs. now rewrite advance_0.
  - intros n_series bv corr nl Hpow.
    rewrite generate_multivariate_series_spec by exact Hpow.
    rewrite Nat.mul_0_r, advance_0. eexists. split; [reflexivity|]. split.
    + rewrite series_dict_size; [rewrite map_size_empty; lia|].
      intros i _. apply lookup_empty.
    + intros name l Hl. apply series_dict_values in Hl as [(i & _ & _ & ->)|Hl].
      * apply nil_length_inv, series_of_call_length.
      * rewrite lookup_empty in Hl. discriminate.
  - intros base idxs mag dir nl Hs. unfold generate_anomaly_series, bind at 1.
    rewrite np_random_normal_ok by exact Hs. unfold bind at 1, ret at 1.
    rewrite inject_anomalies_no_point, advance_0. reflexivity.
  - reflexivity.
  - intros freq start Hsub. now rewrite (generate_timestamps_default _ _ _ _ Hsub).
  - intros base ratio start Hsub Hs.
    unfold generate_ad_payload_data, bind at 1.
    rewrite (generate_timestamps_default _ _ _ _ Hsub).
    change (generate_timestamps now 0 (Some start) "H") with (@Ok (list string) []).
    unfold lift at 1.
    unfold bind at 1, ad_payload_series, generate_anomaly_series, bind at 1.
    rewrite np_random_normal_ok by exact Hs. unfold bind at 1, ret at 1.
    rewrite inject_anomalies_no_point, advance_0. reflexivity.
  - intros series_ids horizon_len.
    destruct (generate_covariates_run np_sin 0 series_ids false horizon_len rs)
      as (temp & Heq & _ & Hall).
    do 2 eexists. split; [exact Heq|].
    cbn [dynamic_numerical_covariates dynamic_categorical_covariates]. split.
    + intros name m sid l Hm Hl. apply lookup_singleton_Some in Hm as [_ <-].
      apply nil_length_inv. now destruct (Hall sid l Hl).
    + intros name m sid l Hm Hl. apply lookup_singleton_Some in Hm as [_ <-].
      destruct (dict_of_enumerate_lookup
                  (fun (_ : nat) (_ : string) =>
                     map (fun t => nth (Z.to_nat (t mod 7)) week_days "") (np_arange 0))
                  series_ids sid) as [[_ (i & Hi)]|[_ Hn]].
      * rewrite Hl in Hi. now injection Hi as ->.
      * rewrite Hl in Hn. discriminate.
  - intros countries.
    set (cs := match countries with None => ["FR"; "BE"] | Some l => l end).
    destruct (dict_of_keysM_spec (electricity_prices 0) (fun l => l = []) 0 cs rs)
      as (prices & Hprices & _ & Hall).
    { intros k rs0. exists []. split; [apply electricity_prices_no_day | reflexivity]. }
    rewrite Nat.mul_0_r, advance_0 in Hprices.
    destruct (generate_covariates_run np_sin (0 * 24) cs true 24 rs)
      as (temp & Hcov & _).
    set (rs1 := advance rs (length cs * (0 * 24 + 24))) in *.
    destruct (dict_of_keysM_spec
                (fun _ => mapM (daily_wave np_sin 5000 2000 200)
                            (np_arange (0 * 24 + 24)))
                (fun l => length l = (0 * 24 + 24)%nat) (0 * 24 + 24) cs rs1
                (gen_forecast_series_ok np_sin (0 * 24 + 24)))
      as (forecast & Hforecast & _).
    do 3 eexists. split.
    + unfold generate_electricity_like_data. fold cs.
      unfold bind at 1. rewrite Hprices.
      unfold bind at 1. rewrite Hcov.
      unfold bind at 1. rewrite Hforecast. reflexivity.
    + intros country l Hl. now destruct (Hall country l Hl).
Qed.

Lemma no_point_example :
  generate_trend_series (fun _ => F64.nan) (fun x _ => x * x)%f64
    0 "exponential" F64.lit_100 F64.lit_1 F64.lit_0_1 sample_rs = Ok ([], sample_rs)
  /\ generate_seasonal_series RefLibm.sin 0 F64.lit_100 "weekly" F64.lit_0_2
       F64.lit_0_05 sample_rs = Ok ([], sample_rs)
  /\ generate_trend_seasonal_series RefLibm.sin 0 F64.lit_100 F64.lit_0_5 7
       F64.lit_0_2 F64.lit_0_05 sample_rs = Ok ([], sample_rs)
  /\ (exists d,
        generate_multivariate_series (fun x _ => x * x)%f64 2 0 None F64.lit_0_5
          F64.lit_0_1 sample_rs = Ok (d, sample_rs)
        /\ size d = 2%nat
        /\ forall name l, d !! name = Some l -> l = [])
  /\ generate_anomaly_series 0 F64.lit_1000000 (Some [0; 3])
       F64.lit_0_5 "both" F64.lit_0_05 sample_rs = Ok (([], []), sample_rs)
  /\ generate_timestamps sample_now 0 None "H" = Ok []
  /\ generate_ad_payload_data sample_now 0 F64.lit_1500000 false F64.lit_0_05
       sample_rs = Ok ([], sample_rs).
Proof.
  destruct (no_point_gives_empty_sequences RefLibm.sin (fun _ => F64.nan)
              (fun x _ => x * x)%f64 sample_now sample_rs)
    as (Htrend & Hseas & Hts & Hmulti & Hanom & _ & Hstamps & Hpay & _).
  split; [apply Htrend; reflexivity|].
  split; [apply Hseas; reflexivity|].
  split; [apply Hts; reflexivity|].
  split; [apply Hmulti; reflexivity|].
  split; [apply Hanom; reflexivity|].
  split; [apply (Hstamps "H" sample_start); reflexivity|].
  apply (Hpay F64.lit_1500000 F64.lit_0_05 sample_start); reflexivity.
Defined.

(** C1, as stated, fails where an anomaly index is drawn at random: with no
    point, [generate_anomaly_series] with [anomaly_indices] omitted and
    [generate_ad_payload_data] with [inject_anomalies=True] are to draw
    [max(1, int(0 * 0.05)) = 1] index from an empty population, and
    [np.random.choice] raises [ValueError]. *)
Lemma random_anomaly_of_no_point_raises :
  generate_anomaly_series 0 F64.lit_1000000 None F64.lit_0_5 "both" F64.lit_0_05
    sample_rs = Raise ValueError
  /\ generate_ad_payload_data sample_now 0 F64.lit_1500000 true F64.lit_0_05
       sample_rs = Raise ValueError.
Proof. split; vm_compute; reflexivity. Qed.

(* ===================================================================== *)
(** * The sign of a rounded result *)
(* ===================================================================== *)

Lemma binary_round_aux_sign s m e l :
  0 <= m -> F64.signbit (binary_round_aux prec emax s m e l) = s.
Proof.
  intros H. unfold binary_round_aux.
  pose proof (shr_fexp_nonneg m e l H) as H1.
  destruct (shr_fexp prec emax m e l) as [mrs' e'].
  simpl in H1.
  pose proof (shr_fexp_nonneg _ e' loc_Exact
                (round_nearest_even_nonneg _ (loc_of_shr_record mrs') H1)) as H2.
  destruct (shr_fexp prec emax _ e' loc_Exact) as [mrs'' e''].
  simpl in H2.
  destruct (shr_m mrs'') as [|p|p]; [reflexivity | | lia].
  destruct (e'' <=? emax - prec); reflexivity.
Qed.

(** The sign bit of a product of finite values is the exclusive or of the
    sign bits. *)
Lemma mul_signbit x y :
  F64.is_finite x = true -> F64.is_finite y = true ->
  F64.signbit (x * y)%f64 = xorb (F64.signbit x) (F64.signbit y).
Proof.
  destruct x as [sx| | |sx mx ex], y as [sy| | |sy my ey]; simpl;
    intros Hx Hy; try discriminate; try reflexivity.
  apply binary_round_aux_sign. lia.
Qed.




(* ===================================================================== *)
(** * The values the anomaly loop leaves *)
(* ===================================================================== *)

Lemma in_range_test n idx :
  ((0 <=? idx) && (idx <? Z.of_nat n))%bool = true <-> in_range n idx.
Proof.
  unfold in_range. rewrite andb_true_iff, Z.leb_le, Z.ltb_lt. reflexivity.
Qed.

Lemma in_range_test_false n idx :
  ((0 <=? idx) && (idx <? Z.of_nat n))%bool = false <-> ~ in_range n idx.
Proof.
  rewrite <- in_range_test. destruct (_ && _)%bool; split; congruence.
Qed.

(** The sign drawn for an anomaly is 1 or -1; drawing it leaves the normal
    draws alone, and draws nothing for the directions 'up' and 'down'. *)
Lemma anomaly_sign_spec dir rs :
  exists s rs',
    anomaly_sign dir rs = Ok (s, rs')
    /\ (s = 1 \/ s = -1)
    /\ normals rs' = normals rs /\ normals_used rs' = normals_used rs
    /\ (dir = "up" -> s = 1 /\ rs' = rs)
    /\ (dir = "down" -> s = -1 /\ rs' = rs).
Proof.
  unfold anomaly_sign.
  destruct (String.eqb_spec dir "up") as [->|Hup].
  { exists 1, rs. repeat split; auto; discriminate. }
  destruct (String.eqb_spec dir "down") as [->|Hdown].
  { exists (-1), rs. repeat split; auto; discriminate. }
  unfold np_random_choice1, bind, randbelow, ret. cbn [length].
  do 2 eexists. split; [reflexivity|].
  split.
  { pose proof (Nat.mod_upper_bound (integers rs (integers_used rs)) 2 ltac:(lia)) as Hb.
    destruct (integers rs (integers_used rs) mod 2)%nat as [|[|k]];
      [right; reflexivity | left; reflexivity | lia]. }
  repeat split; try reflexivity; intros; contradiction.
Qed.

(** Indices that are not in range leave the series and the generator as
    they are. *)
Lemma inject_anomalies_out_of_range n base mag dir idxs :
  (forall idx, idx ∈ idxs -> ~ in_range n idx) ->
  forall st rs, foldM (inject_anomaly n base mag dir) idxs st rs = Ok (st, rs).
Proof.
  induction idxs as [|idx idxs IH]; intros Hout st rs; [reflexivity|].
  cbn [foldM]. unfold bind, inject_anomaly at 1.
  assert (((0 <=? idx) && (idx <? Z.of_nat n))%bool = false) as ->.
  { apply in_range_test_false, Hout, list_elem_of_here. }
  unfold ret. apply IH. intros i Hi. apply Hout. now apply list_elem_of_further.
Qed.

(** What the anomaly loop does to the values: a point that is not listed
    keeps its value, and a point listed once is moved once, up or down. *)
Lemma inject_anomalies_values n base mag dir idxs : forall st rs,
  exists vals rs',
    foldM (inject_anomaly n base mag dir) idxs st rs
    = Ok ((vals, fold_left (mark n) idxs (snd st)), rs')
    /\ length vals = length (fst st)
    /\ normals rs' = normals rs /\ normals_used rs' = normals_used rs
    /\ (forall i, Z.of_nat i ∉ idxs -> vals !! i = fst st !! i)
    /\ (forall i, (i < n)%nat -> count_occ Z.eq_dec idxs (Z.of_nat i) = 1%nat ->
          exists s, (s = 1 \/ s = -1)
                    /\ vals !! i = anomaly_shift base mag s <$> fst st !! i).
Proof.
  induction idxs as [|idx idxs IH]; intros [vals0 flags0] rs.
  - exists vals0, rs. cbn [fst snd fold_left]. repeat split; auto.
    intros i _ H. discriminate.
  - cbn [foldM fold_left]. unfold bind, inject_anomaly at 1, mark at 2.
    cbn [fst snd].
    destruct ((0 <=? idx) && (idx <? Z.of_nat n))%bool eqn:Ein.
    + apply in_range_test in Ein. unfold in_range in Ein.
      unfold bind.
      destruct (anomaly_sign_spec dir rs) as (s & rs1 & -> & Hs & Hn1 & Hu1 & _).
      unfold ret.
      destruct (IH (alter (fun v => (v + F64.of_Z s * base * mag)%f64) (Z.to_nat idx) vals0,
                    <[Z.to_nat idx := true]> flags0) rs1)
        as (vals & rs' & -> & Hlen & Hn & Hu & Hkeep & Hone).
      cbn [fst snd] in *.
      exists vals, rs'. split; [reflexivity|].
      split; [now rewrite Hlen, length_alter|].
      split; [congruence|]. split; [congruence|]. split.
      * intros i Hi. rewrite Hkeep.
        -- apply list_lookup_alter_ne. intros <-. apply Hi.
           rewrite Z2Nat.id by lia. apply list_elem_of_here.
        -- intros H. apply Hi. now apply list_elem_of_further.
      * intros i Hi Hc. cbn [count_occ] in Hc.
        destruct (Z.eq_dec idx (Z.of_nat i)) as [->|Hne].
        -- assert (count_occ Z.eq_dec idxs (Z.of_nat i) = 0%nat) as H0 by lia.
           apply count_occ_not_In in H0.
           exists s. split; [exact Hs|].
           rewrite Hkeep by (intros H; apply H0, list_elem_of_In, H).
           rewrite Nat2Z.id. apply list_lookup_alter_eq.
        -- destruct (Hone i Hi Hc) as (s' & Hs' & ->).
           exists s'. split; [exact Hs'|]. f_equal.
           apply list_lookup_alter_ne. intros <-. apply Hne.
           rewrite Z2Nat.id by lia. reflexivity.
    + apply in_range_test_false in Ein. unfold ret.
      destruct (IH (vals0, flags0) rs)
        as (vals & rs' & -> & Hlen & Hn & Hu & Hkeep & Hone).
      cbn [fst snd] in *.
      exists vals, rs'. split; [reflexivity|].
      split; [exact Hlen|]. split; [exact Hn|]. split; [exact Hu|]. split.
      * intros i Hi. apply Hkeep. intros H. apply Hi. now apply list_elem_of_further.
      * intros i Hi Hc. cbn [count_occ] in Hc.
        destruct (Z.eq_dec idx (Z.of_nat i)) as [->|Hne].
        -- exfalso. apply Ein. unfold in_range. lia.
        -- now apply Hone.
Qed.

(** The anomaly loop when the direction fixes the sign: no random integer
    is drawn, and a point listed [c] times is moved [c] times. *)
Lemma inject_anomalies_directed n base mag dir s idxs :
  (forall rs, anomaly_sign dir rs = Ok (s, rs)) ->
  forall st rs,
  exists vals,
    foldM (inject_anomaly n base mag dir) idxs st rs
    = Ok ((vals, fold_left (mark n) idxs (snd st)), rs)
    /\ length vals = length (fst st)
    /\ forall i, (i < n)%nat ->
         vals !! i
         = Nat.iter (count_occ Z.eq_dec idxs (Z.of_nat i)) (anomaly_shift base mag s)
             <$> fst st !! i.
Proof.
  intros Hsign.
  induction idxs as [|idx idxs IH]; intros [vals0 flags0] rs.
  - exists vals0. cbn [fst snd fold_left foldM count_occ Nat.iter]. repeat split.
    intros i _. now destruct (vals0 !! i).
  - cbn [foldM fold_left]. unfold bind, inject_anomaly at 1, mark at 2.
    cbn [fst snd].
    destruct ((0 <=? idx) && (idx <? Z.of_nat n))%bool eqn:Ein.
    + apply in_range_test in Ein. unfold in_range in Ein.
      unfold bind. rewrite Hsign. unfold ret.
      destruct (IH (alter (fun v => (v + F64.of_Z s * base * mag)%f64) (Z.to_nat idx) vals0,
                    <[Z.to_nat idx := true]> flags0) rs)
        as (vals & -> & Hlen & Hval).
      cbn [fst snd] in *.
      exists vals. split; [reflexivity|].
      split; [now rewrite Hlen, length_alter|].
      intros i Hi. rewrite (Hval i Hi). cbn [count_occ].
      destruct (Z.eq_dec idx (Z.of_nat i)) as [->|Hne].
      * rewrite Nat2Z.id, list_lookup_alter_eq.
        destruct (vals0 !! i) as [v|]; [|reflexivity].
        cbn [fmap option_fmap option_map]. f_equal.
        rewrite Nat.iter_succ_r. reflexivity.
      * f_equal. apply list_lookup_alter_ne. intros <-. apply Hne.
        rewrite Z2Nat.id by lia. reflexivity.
    + apply in_range_test_false in Ein. unfold ret.
      destruct (IH (vals0, flags0) rs) as (vals & -> & Hlen & Hval).
      cbn [fst snd] in *.
      exists vals. split; [reflexivity|]. split; [exact Hlen|].
      intros i Hi. rewrite (Hval i Hi). cbn [count_occ].
      destruct (Z.eq_dec idx (Z.of_nat i)) as [->|Hne]; [|reflexivity].
      exfalso. apply Ein. unfold in_range. lia.
Qed.

(** The series before the anomalies, one index at a time. *)
Lemma anomaly_baseline_lookup n base nl rs i :
  (i < n)%nat ->
  arr_add
    (map (fun ti => base + (F64.lit_0_001 * base) * F64.of_Z ti)%f64 (np_arange n))
    (map (fun z => F64.of_Z 0 + (base * nl) * z)%f64 (draws rs n)) !! i
  = Some (anomaly_baseline base nl rs i).
Proof.
  intros Hi. apply arr_add_lookup.
  - apply (map_arange_lookup
             (fun ti => base + (F64.lit_0_001 * base) * F64.of_Z ti)%f64), Hi.
  - apply (map_draws_lookup (fun z => F64.of_Z 0 + (base * nl) * z)%f64), Hi.
Qed.

(** X2: when no supplied index lies in [[0, n_points)] (the list may be
    empty, hold negative indices or indices past the end),
    [generate_anomaly_series] is [generate_trend_series] with the trend
    'linear' and the slope [0.001 * base_value]: the same values, from the
    same draws, with every flag [False]; it raises when that call raises. *)
Theorem no_anomaly_in_range_is_linear_trend
    np_log1p libm_pow n base idxs mag dir nl rs :
  (forall idx, idx ∈ idxs -> ~ in_range n idx) ->
  generate_anomaly_series n base (Some idxs) mag dir nl rs
  = match generate_trend_series np_log1p libm_pow n "linear" base
            (F64.lit_0_001 * base)%f64 nl rs with
    | Ok (vals, rs') => Ok ((vals, replicate n false), rs')
    | Raise e => Raise e
    end.
Proof.
  intros Hout. unfold generate_anomaly_series, generate_trend_series, bind.
  destruct (scale_refused (base * nl)%f64) eqn:Hs.
  - now rewrite !np_random_normal_refused by exact Hs.
  - rewrite !np_random_normal_ok by exact Hs.
    unfold ret. rewrite inject_anomalies_out_of_range by exact Hout.
    reflexivity.
Qed.

Lemma negative_and_late_indices_are_skipped :
  generate_anomaly_series 3 F64.lit_1000000 (Some [-1; 3; 7]) F64.lit_0_5 "both"
    F64.lit_0_05 sample_rs
  = match generate_trend_series (fun _ => F64.nan) (fun _ _ => F64.nan) 3 "linear"
            F64.lit_1000000 (F64.lit_0_001 * F64.lit_1000000)%f64 F64.lit_0_05
            sample_rs with
    | Ok (vals, rs') => Ok ((vals, replicate 3 false), rs')
    | Raise e => Raise e
    end.
Proof.
  apply (no_anomaly_in_range_is_linear_trend (fun _ => F64.nan) (fun _ _ => F64.nan)
           3 F64.lit_1000000 [-1; 3; 7] F64.lit_0_5 "both" F64.lit_0_05 sample_rs).
  intros idx Hidx. unfold in_range.
  repeat (apply elem_of_cons in Hidx as [->|Hidx]; [simpl; lia|]).
  inversion Hidx.
Defined.

(** X3: with the direction 'up' or 'down' and explicit indices,
    [generate_anomaly_series] draws no random integer (the generator is
    left [n_points] normal draws further), and the value at index [i] is
    the noisy trend value moved by [sign * base_value * anomaly_magnitude]
    once for every occurrence of [i] in the list: an index listed twice is
    moved twice (its flag is set once), an index outside [[0, n_points)]
    moves nothing. *)
Theorem directed_anomalies_move_each_listed_point n base idxs mag dir nl rs :
  scale_refused (base * nl)%f64 = false ->
  dir = "up" \/ dir = "down" ->
  exists vals flags,
    generate_anomaly_series n base (Some idxs) mag dir nl rs
    = Ok ((vals, flags), advance rs n)
    /\ forall i, (i < n)%nat ->
         vals !! i
         = Some (Nat.iter (count_occ Z.eq_dec idxs (Z.of_nat i))
                   (anomaly_shift base mag (if String.eqb dir "up" then 1 else -1))
                   (anomaly_baseline base nl rs i)).
Proof.
  intros Hscale Hdir.
  set (s := if String.eqb dir "up" then 1 else -1).
  assert (forall rs0, anomaly_sign dir rs0 = Ok (s, rs0)) as Hsign.
  { intros rs0. unfold anomaly_sign, s. destruct Hdir as [->| ->]; reflexivity. }
  unfold generate_anomaly_series, bind at 1.
  rewrite np_random_normal_ok by exact Hscale.
  unfold bind at 1, ret at 1.
  match goal with
  | |- context [foldM _ idxs ?st ?rs0] =>
      destruct (inject_anomalies_directed n base mag dir s idxs Hsign st rs0)
        as (vals & Heq & Hlen & Hval)
  end.
  exists vals, (fold_left (mark n) idxs (replicate n false)).
  split; [exact Heq|].
  intros i Hi. rewrite (Hval i Hi). cbn [fst].
  now rewrite anomaly_baseline_lookup by exact Hi.
Qed.

Lemma upward_anomaly_listed_twice :
  exists vals flags,
    generate_anomaly_series 4 F64.lit_1000000 (Some [2; 9; 2]) F64.lit_0_5 "up"
      F64.lit_0_05 sample_rs
    = Ok ((vals, flags), advance sample_rs 4)
    /\ forall i, (i < 4)%nat ->
         vals !! i
         = Some (Nat.iter (count_occ Z.eq_dec [2; 9; 2] (Z.of_nat i))
                   (anomaly_shift F64.lit_1000000 F64.lit_0_5
                      (if String.eqb "up" "up" then 1 else -1))
                   (anomaly_baseline F64.lit_1000000 F64.lit_0_05 sample_rs i)).
Proof.
  apply (directed_anomalies_move_each_listed_point 4 F64.lit_1000000 [2; 9; 2]
           F64.lit_0_5 "up" F64.lit_0_05 sample_rs);
    [reflexivity | left; reflexivity].
Defined.

(** X4: whatever the direction (for 'both', and for any other string, the
    sign of each anomaly is drawn at random), [generate_anomaly_series]
    with explicit indices leaves every point that is not listed at its
    noisy trend value, and moves a point that is listed once by exactly
    [base_value * anomaly_magnitude], up or down. *)
Theorem anomalies_move_only_listed_points n base idxs mag dir nl rs :
  scale_refused (base * nl)%f64 = false ->
  exists vals flags rs',
    generate_anomaly_series n base (Some idxs) mag dir nl rs
    = Ok ((vals, flags), rs')
    /\ (forall i, (i < n)%nat -> Z.of_nat i ∉ idxs ->
          vals !! i = Some (anomaly_baseline base nl rs i))
    /\ (forall i, (i < n)%nat -> count_occ Z.eq_dec idxs (Z.of_nat i) = 1%nat ->
          vals !! i = Some (anomaly_shift base mag 1 (anomaly_baseline base nl rs i))
          \/ vals !! i
             = Some (anomaly_shift base mag (-1) (anomaly_baseline base nl rs i))).
Proof.
  intros Hscale.
  unfold generate_anomaly_series, bind at 1.
  rewrite np_random_normal_ok by exact Hscale.
  unfold bind at 1, ret at 1.
  match goal with
  | |- context [foldM _ idxs ?st ?rs0] =>
      destruct (inject_anomalies_values n base mag dir idxs st rs0)
        as (vals & rs' & Heq & _ & _ & _ & Hkeep & Hone)
  end.
  cbn [fst] in Hkeep, Hone.
  exists vals, (fold_left (mark n) idxs (replicate n false)), rs'.
  split; [exact Heq|]. split.
  - intros i Hi Hni. rewrite Hkeep by exact Hni.
    now apply anomaly_baseline_lookup.
  - intros i Hi Hc. destruct (Hone i Hi Hc) as (s & Hs & ->).
    rewrite anomaly_baseline_lookup by exact Hi.
    destruct Hs as [-> | ->]; [left | right]; reflexivity.
Qed.

Lemma anomalies_of_both_directions_example :
  exists vals flags rs',
    generate_anomaly_series 6 F64.lit_1000000 (Some [4; -1; 9; 1]) F64.lit_0_5 "both"
      F64.lit_0_05 sample_rs
    = Ok ((vals, flags), rs')
    /\ (forall i, (i < 6)%nat -> Z.of_nat i ∉ [4; -1; 9; 1] ->
          vals !! i = Some (anomaly_baseline F64.lit_1000000 F64.lit_0_05 sample_rs i))
    /\ (forall i, (i < 6)%nat ->
          count_occ Z.eq_dec [4; -1; 9; 1] (Z.of_nat i) = 1%nat ->
          vals !! i
          = Some (anomaly_shift F64.lit_1000000 F64.lit_0_5 1
                    (anomaly_baseline F64.lit_1000000 F64.lit_0_05 sample_rs i))
          \/ vals !! i
             = Some (anomaly_shift F64.lit_1000000 F64.lit_0_5 (-1)
                       (anomaly_baseline F64.lit_1000000 F64.lit_0_05 sample_rs i))).
Proof.
  apply (anomalies_move_only_listed_points 6 F64.lit_1000000 [4; -1; 9; 1]
           F64.lit_0_5 "both" F64.lit_0_05 sample_rs).
  reflexivity.
Defined.

(* ===================================================================== *)
(** * Sampling without replacement *)
(* ===================================================================== *)

Lemma swap_perm {A} (arr : list A) i j : swap arr i j ≡ₚ arr.
Proof.
  unfold swap. destruct (arr !! i) as [x|] eqn:Ei; [|reflexivity].
  destruct (arr !! j) as [y|] eqn:Ej; [|reflexivity].
  pose proof (lookup_lt_Some _ _ _ Ei) as Hi.
  pose proof (lookup_lt_Some _ _ _ Ej) as Hj.
  apply Permutation_inj. split; [now rewrite !length_insert|].
  exists (fun k => if decide (k = i) then j else if decide (k = j) then i else k).
  split.
  - intros a b. repeat case_decide; intros; subst; congruence.
  - intros k. repeat case_decide; subst.
    + rewrite list_lookup_insert_eq by (now rewrite length_insert). now rewrite Ej.
    + rewrite list_lookup_insert_ne by congruence.
      rewrite list_lookup_insert_eq by exact Hj. now rewrite Ei.
    + now rewrite !list_lookup_insert_ne by congruence.
Qed.

(** The shuffle returns a permutation of its array and draws no normal
    value. *)
Lemma shuffle_spec i : forall arr rs,
  exists out rs',
    shuffle i arr rs = Ok (out, rs') /\ out ≡ₚ arr
    /\ normals rs' = normals rs /\ normals_used rs' = normals_used rs.
Proof.
  induction i as [|i IH]; intros arr rs.
  - exists arr, rs. repeat split; reflexivity.
  - cbn [shuffle]. unfold bind, randbelow.
    match goal with
    | |- context [shuffle i ?a ?r] =>
        destruct (IH a r) as (out & rs' & -> & Hp & Hn & Hu)
    end.
    exists out, rs'. split; [reflexivity|]. split; [now rewrite Hp, swap_perm|].
    split; [exact Hn | exact Hu].
Qed.

Lemma np_arange_NoDup n : NoDup (np_arange n).
Proof.
  unfold np_arange. change (map ?f ?l) with (f <$> l).
  apply (NoDup_fmap_2 Z.of_nat), NoDup_seq.
Qed.

Lemma elem_of_np_arange n x : x ∈ np_arange n <-> in_range n x.
Proof.
  unfold np_arange, in_range. change (map ?f ?l) with (f <$> l).
  rewrite list_elem_of_fmap. split.
  - intros (k & -> & Hk). apply elem_of_seq in Hk. lia.
  - intros H. exists (Z.to_nat x). split; [lia|]. apply elem_of_seq. lia.
Qed.

(** What a sample without replacement is, when one is returned: as many
    elements of the population as asked for, pairwise distinct when the
    population is. *)
Lemma np_random_choice_noreplace_inv a size rs out rs' :
  np_random_choice_noreplace a size rs = Ok (out, rs') ->
  (size <= length a)%nat /\ length out = size
  /\ (NoDup a -> NoDup out)
  /\ (forall x, x ∈ out -> x ∈ a)
  /\ normals rs' = normals rs /\ normals_used rs' = normals_used rs.
Proof.
  unfold np_random_choice_noreplace.
  destruct (Nat.eqb (length a) 0 && negb (Nat.eqb size 0))%bool; [discriminate|].
  destruct (Nat.ltb_spec (length a) size) as [|Hle]; [discriminate|].
  unfold bind, np_random_permutation.
  destruct (shuffle_spec (length a - 1) (np_arange (length a)) rs)
    as (idx & rs1 & -> & Hp & Hn & Hu).
  unfold ret. intros [= <- <-].
  assert (length idx = length a) as Hlen.
  { apply Permutation_length in Hp. now rewrite np_arange_length in Hp. }
  assert (forall i, i ∈ take size idx ->
            exists k, i = Z.of_nat k /\ (k < length a)%nat) as Hidx.
  { intros i Hi. apply elem_of_take in Hi as (j & Hj & _).
    apply list_elem_of_lookup_2 in Hj. rewrite Hp in Hj.
    apply elem_of_np_arange in Hj. unfold in_range in Hj.
    exists (Z.to_nat i). lia. }
  split; [exact Hle|]. split; [rewrite length_map, length_take; lia|].
  split; [|split; [|split; assumption]].
  - intros Hnd. change (map ?f ?l) with (f <$> l).
    apply NoDup_fmap_2_strong.
    + intros x y Hx Hy Heq.
      destruct (Hidx x Hx) as (kx & -> & Hkx), (Hidx y Hy) as (ky & -> & Hky).
      rewrite !Nat2Z.id in Heq. f_equal.
      apply NoDup_ListNoDup in Hnd.
      eapply (proj1 (List.NoDup_nth a 0) Hnd); eassumption.
    + eapply sublist_NoDup; [|apply sublist_take].
      rewrite Hp. apply np_arange_NoDup.
  - intros x Hx. change (map ?f ?l) with (f <$> l) in Hx.
    apply list_elem_of_fmap in Hx as (i & -> & Hi).
    destruct (Hidx i Hi) as (k & -> & Hk). rewrite Nat2Z.id.
    apply list_elem_of_In, nth_In. exact Hk.
Qed.

Lemma np_random_choice_noreplace_spec a size rs :
  (size <= length a)%nat ->
  exists out rs',
    np_random_choice_noreplace a size rs = Ok (out, rs')
    /\ length out = size
    /\ (NoDup a -> NoDup out)
    /\ (forall x, x ∈ out -> x ∈ a)
    /\ normals rs' = normals rs /\ normals_used rs' = normals_used rs.
Proof.
  intros H.
  destruct (np_random_choice_noreplace_ok a size rs H) as (out & rs' & Heq & _).
  exists out, rs'. split; [exact Heq|].
  apply np_random_choice_noreplace_inv in Heq as (_ & H1 & H2 & H3 & H4 & H5).
  auto.
Qed.

Lemma filter_all {A} (P : A -> Prop) `{!forall x, Decision (P x)} (l : list A) :
  (forall x, x ∈ l -> P x) -> filter P l = l.
Proof.
  induction l as [|x l IH]; intros Hall; [reflexivity|].
  rewrite filter_cons_True by (apply Hall, list_elem_of_here).
  f_equal. apply IH. intros y Hy. apply Hall. now apply list_elem_of_further.
Qed.

(* ===================================================================== *)
(** * The number of anomalies drawn at random *)
(* ===================================================================== *)

(** [int(x)] of a bounded value. *)
Lemma py_int_fin k x :
  fin_le k x -> exists z, py_int x = Ok z /\ Z.abs z < 2 ^ Z.max 0 (53 + k).
Proof.
  destruct x as [s| | |s m e]; cbn [fin_le]; try contradiction.
  - intros _. exists 0. split; [reflexivity|]. apply Z.pow_pos_nonneg; lia.
  - intros [Hm He].
    set (a := if 0 <=? e then Z.shiftl (Zpos m) e else Z.shiftr (Zpos m) (- e)).
    exists (if s then - a else a). split; [reflexivity|].
    assert (0 <= a < 2 ^ Z.max 0 (53 + k)) as Ha.
    { unfold a. destruct (Z.leb_spec 0 e).
      - rewrite Z.shiftl_mul_pow2 by lia. split.
        + apply Z.mul_nonneg_nonneg; [lia | apply Z.pow_nonneg; lia].
        + rewrite Z.max_r by lia.
          apply Z.lt_le_trans with (2 ^ 53 * 2 ^ e).
          * apply Z.mul_lt_mono_pos_r; [apply Z.pow_pos_nonneg; lia | exact Hm].
          * rewrite <- Z.pow_add_r by lia. apply Z.pow_le_mono_r; lia.
      - rewrite Z.shiftr_div_pow2 by lia. split.
        + apply Z.div_pos; [lia | apply Z.pow_pos_nonneg; lia].
        + destruct (Z.le_gt_cases 0 (53 + e)).
          * apply Z.lt_le_trans with (2 ^ (53 + e)); [|apply Z.pow_le_mono_r; lia].
            apply Z.div_lt_upper_bound; [apply Z.pow_pos_nonneg; lia|].
            rewrite <- Z.pow_add_r by lia.
            replace (- e + (53 + e)) with 53 by lia. exact Hm.
          * rewrite Z.div_small; [apply Z.pow_pos_nonneg; lia|].
            split; [lia|].
            apply Z.lt_le_trans with (2 ^ 53); [exact Hm|].
            apply Z.pow_le_mono_r; lia. }
    destruct s; lia.
Qed.

(** A ratio below 1/16 asks for at most half of the points. *)
Lemma anomaly_count_fits n ratio :
  (1 <= n)%nat -> Z.of_nat n < 2 ^ 63 -> fin_le (-57) ratio ->
  exists k, py_int (F64.of_nat n * ratio)%f64 = Ok k /\ 2 * Z.abs k <= Z.of_nat n.
Proof.
  intros Hn1 Hn Hr. unfold F64.of_nat.
  set (N := Z.of_nat n) in *.
  assert (0 < N) as HN by (unfold N; lia).
  pose proof (Z.log2_spec N HN) as [Hlo Hhi].
  pose proof (Z.log2_nonneg N) as Hl0.
  assert (Z.log2 N < 63) as Hl63 by (apply Z.log2_lt_pow2; lia).
  set (l := Z.log2 N) in *.
  assert (fin_le (l + 1 - 53 + 1) (F64.of_Z N)) as H1.
  { apply (of_Z_fin N (l + 1) (l + 1 - 53)); lia. }
  assert (fin_le (l - 55 + 1) (F64.of_Z N * ratio)%f64) as H2.
  { apply (mul_fin (l + 1 - 53 + 1) (-57) (l - 55)); try assumption; lia. }
  destruct (py_int_fin _ _ H2) as (k & Hk & Hb).
  exists k. split; [exact Hk|].
  destruct (Z.eq_dec l 0) as [E|E].
  - rewrite E in Hb. change (2 ^ Z.max 0 (53 + (0 - 55 + 1))) with 1 in Hb. lia.
  - rewrite Z.max_r in Hb by lia.
    replace (53 + (l - 55 + 1)) with (l - 1) in Hb by lia.
    assert (2 ^ l = 2 * 2 ^ (l - 1)) as Hp.
    { rewrite <- Z.pow_succ_r by lia. f_equal. lia. }
    lia.
Qed.

Lemma lit_0_05_small : fin_le (-57) F64.lit_0_05.
Proof. vm_compute. split; [reflexivity | discriminate]. Qed.

(** X5: with [anomaly_indices] omitted, [generate_anomaly_series] returns
    for every point count from 1 (up to the range of an array index) and
    every noise scale that is not negative, and exactly
    [max(1, int(n_points * 0.05))] of its flags are [True]: the indices
    are drawn without replacement, so no two anomalies fall on one point. *)
Theorem random_anomalies_flag_exact_count n base mag dir nl rs :
  (1 <= n)%nat -> Z.of_nat n < 2 ^ 63 ->
  scale_refused (base * nl)%f64 = false ->
  exists k vals flags rs',
    py_int (F64.of_nat n * F64.lit_0_05)%f64 = Ok k
    /\ Z.max 1 k <= Z.of_nat n
    /\ generate_anomaly_series n base None mag dir nl rs = Ok ((vals, flags), rs')
    /\ length vals = n /\ length flags = n
    /\ count_true flags = Z.to_nat (Z.max 1 k).
Proof.
  intros Hn1 Hn Hscale.
  destruct (anomaly_count_fits n F64.lit_0_05 Hn1 Hn lit_0_05_small) as (k & Hk & Hfit).
  assert (Z.max 1 k <= Z.of_nat n) as Hmax by lia.
  assert (exists vals flags rs',
            generate_anomaly_series n base None mag dir nl rs = Ok ((vals, flags), rs')
            /\ length vals = n /\ length flags = n
            /\ count_true flags = Z.to_nat (Z.max 1 k))
    as (vals & flags & rs' & H1 & H2 & H3 & H4).
  { unfold generate_anomaly_series, bind at 1.
    rewrite np_random_normal_ok by exact Hscale.
    unfold bind at 1. unfold bind at 1. rewrite Hk. unfold lift at 1.
    destruct (np_random_choice_noreplace_spec (np_arange n) (Z.to_nat (Z.max 1 k))
                (advance rs n)) as (idxs & rs1 & -> & Hlen & Hnd & Hin & _).
    { rewrite np_arange_length. lia. }
    match goal with
    | |- context [foldM _ idxs ?st ?rs0] =>
        destruct (inject_anomalies_spec n base mag dir idxs st rs0)
          as (vals & rs' & Heq & Hlv)
    end.
    exists vals, (fold_left (mark n) idxs (replicate n false)), rs'.
    split; [exact Heq|].
    split; [rewrite Hlv; cbn [fst]; array_length|].
    split; [now rewrite marks_length, length_replicate|].
    rewrite marks_count, filter_all.
    - rewrite size_list_to_set by (apply Hnd, np_arange_NoDup). exact Hlen.
    - intros x Hx. apply elem_of_np_arange, Hin, Hx. }
  exists k, vals, flags, rs'. auto 10.
Qed.

Lemma random_anomalies_of_forty_points :
  exists k vals flags rs',
    py_int (F64.of_nat 40 * F64.lit_0_05)%f64 = Ok k
    /\ Z.max 1 k <= Z.of_nat 40
    /\ generate_anomaly_series 40 F64.lit_1000000 None F64.lit_0_5 "both"
         F64.lit_0_05 sample_rs = Ok ((vals, flags), rs')
    /\ length vals = 40%nat /\ length flags = 40%nat
    /\ count_true flags = Z.to_nat (Z.max 1 k).
Proof.
  apply (random_anomalies_flag_exact_count 40 F64.lit_1000000 F64.lit_0_5 "both"
           F64.lit_0_05 sample_rs); [lia | vm_compute; reflexivity | reflexivity].
Defined.

(* ===================================================================== *)
(** * The payload *)
(* ===================================================================== *)

Lemma rmap_lookup {A B} (f : A -> result B) l out i a :
  rmap f l = Ok out -> l !! i = Some a -> exists b, out !! i = Some b /\ f a = Ok b.
Proof.
  revert out i. induction l as [|x l IH]; intros out i; cbn [rmap].
  - intros _ H. discriminate.
  - destruct (f x) as [b|e] eqn:Ef; cbn [rbind]; [|discriminate].
    destruct (rmap f l) as [bs|e]; cbn [rbind]; [|discriminate].
    intros [= <-] Hl. destruct i as [|i]; cbn in Hl |- *.
    + injection Hl as <-. eauto.
    + now apply IH.
Qed.

Lemma generate_timestamps_length now n start_date freq out :
  generate_timestamps now n start_date freq = Ok out -> length out = n.
Proof.
  unfold generate_timestamps.
  destruct (match start_date with
            | None => Datetime.sub now (Datetime.td_days 30)
            | Some d => Ok d
            end) as [sd|e]; cbn [rbind]; [|discriminate].
  rewrite timestamps_loop_rmap.
  destruct (rmap _ _) as [l|e] eqn:E; cbn [rbind]; [|discriminate].
  intros [= <-]. apply rmap_length in E. now rewrite np_arange_length in E.
Qed.

(** The values of [generate_anomaly_series] with explicit indices. *)
Lemma generate_anomaly_series_values n base idxs mag dir nl rs :
  scale_refused (base * nl)%f64 = false ->
  exists vals rs',
    generate_anomaly_series n base (Some idxs) mag dir nl rs
    = Ok ((vals, fold_left (mark n) idxs (replicate n false)), rs')
    /\ length vals = n
    /\ (forall i, (i < n)%nat -> Z.of_nat i ∉ idxs ->
          vals !! i = Some (anomaly_baseline base nl rs i))
    /\ (forall i, (i < n)%nat -> count_occ Z.eq_dec idxs (Z.of_nat i) = 1%nat ->
          exists s, (s = 1 \/ s = -1)
                    /\ vals !! i
                       = Some (anomaly_shift base mag s (anomaly_baseline base nl rs i))).
Proof.
  intros Hscale.
  unfold generate_anomaly_series, bind at 1.
  rewrite np_random_normal_ok by exact Hscale.
  unfold bind at 1, ret at 1.
  match goal with
  | |- context [foldM _ idxs ?st ?rs0] =>
      destruct (inject_anomalies_values n base mag dir idxs st rs0)
        as (vals & rs' & Heq & Hlen & _ & _ & Hkeep & Hone)
  end.
  cbn [fst] in Hlen, Hkeep, Hone.
  exists vals, rs'. split; [exact Heq|]. split.
  { rewrite Hlen. array_length. }
  split.
  - intros i Hi Hni. rewrite Hkeep by exact Hni.
    now apply anomaly_baseline_lookup.
  - intros i Hi Hc. destruct (Hone i Hi Hc) as (s & Hs & ->).
    rewrite anomaly_baseline_lookup by exact Hi. eauto.
Qed.

Lemma anomaly_baseline_same_draws base nl rs rs' i :
  normals rs' = normals rs -> normals_used rs' = normals_used rs ->
  anomaly_baseline base nl rs' i = anomaly_baseline base nl rs i.
Proof. intros H1 H2. unfold anomaly_baseline. now rewrite H1, H2. Qed.

(** X6: [generate_ad_payload_data] with [inject_anomalies=True] draws its
    [max(1, int(n_points * anomaly_ratio))] anomaly indices from the second
    half of the points; when that is more than the second half holds, it
    raises [ValueError] (this includes [n_points = 0]). *)
Theorem payload_with_too_many_anomalies_raises now n base ratio rs tss k :
  generate_timestamps now n None "H" = Ok tss ->
  py_int (F64.of_nat n * ratio)%f64 = Ok k ->
  (n - n / 2 < Z.to_nat (Z.max 1 k))%nat ->
  generate_ad_payload_data now n base true ratio rs = Raise ValueError.
Proof.
  intros Hts Hk Hmany. unfold generate_ad_payload_data, bind at 1.
  rewrite Hts. unfold lift at 1.
  unfold bind at 1, ad_payload_series, bind at 1. rewrite Hk. unfold lift at 1.
  unfold bind at 1.
  rewrite np_random_choice_noreplace_too_many; [reflexivity|].
  rewrite length_drop, np_arange_length. exact Hmany.
Qed.

Lemma payload_with_seven_anomalies_of_ten_raises :
  generate_ad_payload_data sample_now 10 F64.lit_1500000 true F64.lit_0_7 sample_rs
  = Raise ValueError.
Proof.
  eapply (payload_with_too_many_anomalies_raises sample_now 10 F64.lit_1500000
            F64.lit_0_7 sample_rs);
    [vm_compute; reflexivity | vm_compute; reflexivity | vm_compute; lia].
Defined.

(* ===================================================================== *)
(** * Correlated series: more series, default bases, correlations past 1 *)
(* ===================================================================== *)

(** X7: a call of [generate_multivariate_series] for more series returns
    the series of the call for fewer (same arguments, same generator)
    under the same names, and the further ones after them: the series
    ["series_i"] does not depend on [n_series]. ([correlation ** 2] is
    taken not to overflow: Python raises [OverflowError] when it does.) *)
Theorem more_series_keep_the_earlier_ones libm_pow n_series extra n bv corr nl rs :
  F64.is_finite (libm_pow corr (F64.of_Z 2)) = true ->
  exists d d',
    generate_multivariate_series libm_pow n_series n bv corr nl rs
    = Ok (d, advance rs (n + n_series * n))
    /\ generate_multivariate_series libm_pow (n_series + extra) n bv corr nl rs
       = Ok (d', advance rs (n + (n_series + extra) * n))
    /\ size d = n_series /\ size d' = (n_series + extra)%nat
    /\ forall i, (i < n_series)%nat ->
         d' !! series_name i = d !! series_name i
         /\ exists vals, d !! series_name i = Some vals.
Proof.
  intros Hfin.
  rewrite !generate_multivariate_series_spec by (apply finite_square_no_overflow, Hfin).
  do 2 eexists. split; [reflexivity|]. split; [reflexivity|].
  split; [|split].
  - rewrite series_dict_size; [rewrite map_size_empty; lia|].
    intros i _. apply lookup_empty.
  - rewrite series_dict_size; [rewrite map_size_empty; lia|].
    intros i _. apply lookup_empty.
  - intros i Hi.
    rewrite (series_dict_lookup _ (n_series + extra) 0 ∅ i).
    rewrite (series_dict_lookup _ n_series 0 ∅ i).
    destruct (decide _) as [_|]; [|lia].
    destruct (decide _) as [_|]; [|lia].
    split; [|eauto].
    f_equal. unfold series_of_call. f_equal.
    destruct bv as [l|]; [reflexivity|].
    rewrite !base_of_default by lia. reflexivity.
Qed.

Lemma two_series_more_keep_the_first_three :
  exists d d',
    generate_multivariate_series (fun x _ => x * x)%f64 3 4 None F64.lit_0_5
      F64.lit_0_1 sample_rs = Ok (d, advance sample_rs (4 + 3 * 4))
    /\ generate_multivariate_series (fun x _ => x * x)%f64 (3 + 2) 4 None F64.lit_0_5
         F64.lit_0_1 sample_rs = Ok (d', advance sample_rs (4 + (3 + 2) * 4))
    /\ size d = 3%nat /\ size d' = (3 + 2)%nat
    /\ forall i, (i < 3)%nat ->
         d' !! series_name i = d !! series_name i
         /\ exists vals, d !! series_name i = Some vals.
Proof.
  apply (more_series_keep_the_earlier_ones (fun x _ => x * x)%f64 3 2 4 None
           F64.lit_0_5 F64.lit_0_1 sample_rs).
  reflexivity.
Defined.

(** X8: with [base_values] omitted, the series ["series_i"] of
    [generate_multivariate_series] is built on the base value
    [100.0 + i * 50], from the shared component and the [i]-th block of
    draws after it. ([correlation ** 2] is taken not to overflow.) *)
Theorem default_bases_step_by_fifty libm_pow n_series n corr nl rs :
  F64.is_finite (libm_pow corr (F64.of_Z 2)) = true ->
  exists d,
    generate_multivariate_series libm_pow n_series n None corr nl rs
    = Ok (d, advance rs (n + n_series * n))
    /\ forall i, (i < n_series)%nat ->
         d !! series_name i
         = Some (series_values libm_pow n
                   (F64.lit_100 + F64.of_Z (Z.of_nat i * 50))%f64 corr nl
                   (draws rs n) (draws (advance rs (n + i * n)) n)).
Proof.
  intros Hfin.
  rewrite generate_multivariate_series_spec by (apply finite_square_no_overflow, Hfin).
  eexists. split; [reflexivity|].
  intros i Hi. rewrite (series_dict_lookup _ n_series 0 ∅ i).
  destruct (decide _) as [_|]; [|lia].
  unfold series_of_call. now rewrite base_of_default by exact Hi.
Qed.

Lemma default_bases_of_three_series :
  exists d,
    generate_multivariate_series (fun x _ => x * x)%f64 3 4 None F64.lit_0_5
      F64.lit_0_1 sample_rs = Ok (d, advance sample_rs (4 + 3 * 4))
    /\ forall i, (i < 3)%nat ->
         d !! series_name i
         = Some (series_values (fun x _ => x * x)%f64 4
                   (F64.lit_100 + F64.of_Z (Z.of_nat i * 50))%f64 F64.lit_0_5 F64.lit_0_1
                   (draws sample_rs 4) (draws (advance sample_rs (4 + i * 4)) 4)).
Proof.
  apply (default_bases_step_by_fifty (fun x _ => x * x)%f64 3 4 F64.lit_0_5
           F64.lit_0_1 sample_rs).
  reflexivity.
Defined.

Lemma sqrt_negative x : negative_number x = true -> F64.sqrt x = F64.nan.
Proof. destruct x as [| | |[] m e]; try discriminate; reflexivity. Qed.

Lemma add_nan_r x : (x + F64.nan)%f64 = F64.nan.
Proof. destruct x as [[]|[]| |[] m e]; reflexivity. Qed.

Lemma mul_nan_l x : (F64.nan * x)%f64 = F64.nan.
Proof. reflexivity. Qed.

Lemma all_equal_replicate {A} (l : list A) n x :
  length l = n -> (forall j v, l !! j = Some v -> v = x) -> l = replicate n x.
Proof.
  revert n. induction l as [|a l IH]; intros n Hlen Hall; subst n; [reflexivity|].
  cbn [length replicate]. f_equal.
  - apply (Hall 0%nat). reflexivity.
  - apply IH; [reflexivity|]. intros j v Hj. apply (Hall (S j)). exact Hj.
Qed.

(** When [1 - correlation ** 2] is a number, the square did not overflow. *)
Lemma negative_rest_no_overflow libm_pow corr :
  negative_number (F64.of_Z 1 - libm_pow corr (F64.of_Z 2))%f64 = true ->
  pow_2_overflows libm_pow corr = false.
Proof.
  intros H. unfold pow_2_overflows.
  destruct (libm_pow corr (F64.of_Z 2)) as [s|[]| |s m e];
    try apply andb_false_r; vm_compute in H; discriminate.
Qed.

Lemma series_values_nan libm_pow n base corr nl common individual :
  negative_number (F64.of_Z 1 - libm_pow corr (F64.of_Z 2))%f64 = true ->
  forall j v,
    series_values libm_pow n base corr nl common individual !! j = Some v ->
    v = F64.nan.
Proof.
  intros Hneg j v. unfold series_values, arr_add.
  rewrite sqrt_negative by exact Hneg. intros H.
  apply lookup_zip_with_Some in H as (a & b & -> & _ & Hb).
  change (map ?f ?l) with (f <$> l) in Hb.
  apply list_lookup_fmap_Some in Hb as (c & -> & Hc).
  apply lookup_zip_with_Some in Hc as (x & y & -> & _ & Hy).
  change (map ?f ?l) with (f <$> l) in Hy.
  apply list_lookup_fmap_Some in Hy as (w & -> & _).
  rewrite mul_nan_l, add_nan_r, !mul_nan_l, add_nan_r. reflexivity.
Qed.

(** X9: a correlation whose square exceeds 1 is not refused: when
    [1 - correlation ** 2] is a negative number, its square root is [nan], and
    [generate_multivariate_series] returns, without raising, [n_series]
    series of [n_points] values that are all [nan]. *)
Theorem correlation_past_one_gives_nan libm_pow n_series n bv corr nl rs :
  negative_number (F64.of_Z 1 - libm_pow corr (F64.of_Z 2))%f64 = true ->
  exists d,
    generate_multivariate_series libm_pow n_series n bv corr nl rs
    = Ok (d, advance rs (n + n_series * n))
    /\ size d = n_series
    /\ forall i, (i < n_series)%nat ->
         d !! series_name i = Some (replicate n F64.nan).
Proof.
  intros Hneg.
  rewrite generate_multivariate_series_spec by (apply negative_rest_no_overflow, Hneg).
  eexists. split; [reflexivity|]. split.
  - rewrite series_dict_size; [rewrite map_size_empty; lia|].
    intros i _. apply lookup_empty.
  - intros i Hi. rewrite (series_dict_lookup _ n_series 0 ∅ i).
    destruct (decide _) as [_|]; [|lia].
    f_equal. apply all_equal_replicate; [apply series_of_call_length|].
    unfold series_of_call. now apply series_values_nan.
Qed.

Lemma correlation_two_gives_nan :
  exists d,
    generate_multivariate_series (fun x _ => x * x)%f64 2 3 None (F64.of_Z 2)
      F64.lit_0_1 sample_rs = Ok (d, advance sample_rs (3 + 2 * 3))
    /\ size d = 2%nat
    /\ forall i, (i < 2)%nat -> d !! series_name i = Some (replicate 3 F64.nan).
Proof.
  apply (correlation_past_one_gives_nan (fun x _ => x * x)%f64 2 3 None (F64.of_Z 2)
           F64.lit_0_1 sample_rs).
  reflexivity.
Defined.

(* ===================================================================== *)
(** * Timestamps: one step as a multiple of another, the end of the calendar *)
(* ===================================================================== *)

Lemma timestamp_at_multiple start coarse fine k i :
  Datetime.delta_to_us coarse = k * Datetime.delta_to_us fine ->
  timestamp_at start coarse i = timestamp_at start fine (k * i).
Proof.
  intros H. unfold timestamp_at, Datetime.mul. rewrite H.
  now rewrite Z.mul_assoc, (Z.mul_comm i k).
Qed.

Lemma coarser_timestamps_subsample now start coarse fine (k : nat) n m outC outF :
  Datetime.delta_to_us (freq_delta_get coarse)
  = Z.of_nat k * Datetime.delta_to_us (freq_delta_get fine) ->
  generate_timestamps now n (Some start) coarse = Ok outC ->
  generate_timestamps now m (Some start) fine = Ok outF ->
  forall i, (i < n)%nat -> (k * i < m)%nat -> outC !! i = outF !! (k * i)%nat.
Proof.
  intros Hk HC HF i Hi Hki. rewrite generate_timestamps_rmap in HC, HF.
  destruct (rmap_lookup _ _ _ i (Z.of_nat i) HC) as (x & -> & Hx);
    [now apply np_arange_lookup|].
  destruct (rmap_lookup _ _ _ (k * i)%nat (Z.of_nat (k * i)) HF) as (y & -> & Hy);
    [now apply np_arange_lookup|].
  rewrite (timestamp_at_multiple _ _ _ _ _ Hk) in Hx.
  rewrite Nat2Z.inj_mul in Hy. congruence.
Qed.

(** X10: from one start, the timestamps of a coarser frequency are every
    [k]-th timestamp of a finer one: 'W' takes every 7th of 'D', 'M' every
    30th of 'D' (a step of 30 days, not a calendar month), and 'D' every
    24th of 'H'. *)
Theorem coarser_steps_are_multiples_of_finer now start :
  (forall n m outW outD,
     generate_timestamps now n (Some start) "W" = Ok outW ->
     generate_timestamps now m (Some start) "D" = Ok outD ->
     forall i, (i < n)%nat -> (7 * i < m)%nat -> outW !! i = outD !! (7 * i)%nat)
  /\ (forall n m outM outD,
        generate_timestamps now n (Some start) "M" = Ok outM ->
        generate_timestamps now m (Some start) "D" = Ok outD ->
        forall i, (i < n)%nat -> (30 * i < m)%nat -> outM !! i = outD !! (30 * i)%nat)
  /\ (forall n m outD outH,
        generate_timestamps now n (Some start) "D" = Ok outD ->
        generate_timestamps now m (Some start) "H" = Ok outH ->
        forall i, (i < n)%nat -> (24 * i < m)%nat -> outD !! i = outH !! (24 * i)%nat).
Proof.
  split; [|split]; intros n m outC outF HC HF.
  - exact (coarser_timestamps_subsample now start "W" "D" 7 n m outC outF eq_refl HC HF).
  - exact (coarser_timestamps_subsample now start "M" "D" 30 n m outC outF eq_refl HC HF).
  - exact (coarser_timestamps_subsample now start "D" "H" 24 n m outC outF eq_refl HC HF).
Qed.

Lemma coarser_steps_example :
  (exists outW outD,
     generate_timestamps sample_now 2 (Some sample_now) "W" = Ok outW
     /\ generate_timestamps sample_now 8 (Some sample_now) "D" = Ok outD
     /\ outW !! 1%nat = outD !! 7%nat)
  /\ (exists outM outD,
        generate_timestamps sample_now 2 (Some sample_now) "M" = Ok outM
        /\ generate_timestamps sample_now 31 (Some sample_now) "D" = Ok outD
        /\ outM !! 1%nat = outD !! 30%nat)
  /\ (exists outD outH,
        generate_timestamps sample_now 2 (Some sample_now) "D" = Ok outD
        /\ generate_timestamps sample_now 25 (Some sample_now) "H" = Ok outH
        /\ outD !! 1%nat = outH !! 24%nat).
Proof.
  destruct (coarser_steps_are_multiples_of_finer sample_now sample_now)
    as (HW & HM & HD).
  split; [|split].
  - destruct (generate_timestamps sample_now 2 (Some sample_now) "W")
      as [outW|e] eqn:EW; [|vm_compute in EW; discriminate].
    destruct (generate_timestamps sample_now 8 (Some sample_now) "D")
      as [outD|e] eqn:ED; [|vm_compute in ED; discriminate].
    exists outW, outD. split; [reflexivity|]. split; [reflexivity|].
    apply (HW 2%nat 8%nat outW outD EW ED 1%nat); lia.
  - destruct (generate_timestamps sample_now 2 (Some sample_now) "M")
      as [outM|e] eqn:EM; [|vm_compute in EM; discriminate].
    destruct (generate_timestamps sample_now 31 (Some sample_now) "D")
      as [outD|e] eqn:ED; [|vm_compute in ED; discriminate].
    exists outM, outD. split; [reflexivity|]. split; [reflexivity|].
    apply (HM 2%nat 31%nat outM outD EM ED 1%nat); lia.
  - destruct (generate_timestamps sample_now 2 (Some sample_now) "D")
      as [outD|e] eqn:ED; [|vm_compute in ED; discriminate].
    destruct (generate_timestamps sample_now 25 (Some sample_now) "H")
      as [outH|e] eqn:EH; [|vm_compute in EH; discriminate].
    exists outD, outH. split; [reflexivity|]. split; [reflexivity|].
    apply (HD 2%nat 25%nat outD outH ED EH 1%nat); lia.
Defined.

(** A comprehension raises the one exception its elements can raise as soon
    as one element raises. *)
Lemma rmap_raises {A B} (f : A -> result B) l e :
  (forall a e', f a = Raise e' -> e' = e) ->
  (exists a e', a ∈ l /\ f a = Raise e') ->
  rmap f l = Raise e.
Proof.
  intros Honly. induction l as [|x l IH]; intros (a & e' & Ha & Hf).
  - inversion Ha.
  - cbn [rmap]. destruct (f x) as [b|ex] eqn:Ex; cbn [rbind].
    + rewrite IH; [reflexivity|].
      apply elem_of_cons in Ha as [->|Ha]; [congruence|]. eauto.
    + f_equal. now apply (Honly x).
Qed.

(** The only exception of a timestamp is [OverflowError]. *)
Lemma timestamp_at_error start delta i e :
  timestamp_at start delta i = Raise e -> e = OverflowError.
Proof.
  unfold timestamp_at, Datetime.mul, Datetime.us_to_delta.
  destruct (Z.abs _ <=? _); cbn [rbind]; [|now intros [= <-]].
  unfold Datetime.add.
  destruct (_ && _)%bool; cbn [rbind]; [|now intros [= <-]].
  destruct (Datetime.ord2ymd _) as [[y m] d]. discriminate.
Qed.

(** A timestamp past 9999-12-31 cannot be built. *)
Lemma timestamp_at_past_calendar start delta i :
  Datetime.MAXORDINAL
  < (Datetime.datetime_to_us start + i * Datetime.delta_to_us delta) / Datetime.US_PER_DAY ->
  exists e, timestamp_at start delta i = Raise e.
Proof.
  intros Hlate. unfold timestamp_at, Datetime.mul, Datetime.us_to_delta.
  set (x := i * Datetime.delta_to_us delta) in *.
  destruct (Z.abs _ <=? _); cbn [rbind]; [|eauto].
  unfold Datetime.add.
  assert (Datetime.delta_to_us
            (Datetime.mkTimedelta (x / Datetime.US_PER_DAY)
               (x mod Datetime.US_PER_DAY / Datetime.US_PER_SECOND)
               (x mod Datetime.US_PER_DAY mod Datetime.US_PER_SECOND)) = x) as ->.
  { unfold Datetime.delta_to_us, Datetime.US_PER_DAY, Datetime.US_PER_SECOND. cbn.
    pose proof (Z.div_mod x (86400 * 1000000) ltac:(lia)).
    pose proof (Z.div_mod (x mod (86400 * 1000000)) 1000000 ltac:(lia)). lia. }
  destruct (Z.leb_spec
              ((Datetime.datetime_to_us start + x) / Datetime.US_PER_DAY)
              Datetime.MAXORDINAL) as [Hle|_]; [lia|].
  rewrite andb_false_r. cbn [rbind]. eauto.
Qed.

(** X11: [generate_timestamps] raises [OverflowError] whenever its last
    timestamp, [start + (n_points - 1) * step], falls on a day after
    9999-12-31 (earlier timestamps are then built and lost). *)
Theorem timestamps_past_the_calendar_raise now n start freq :
  (0 < n)%nat ->
  Datetime.MAXORDINAL
  < (Datetime.datetime_to_us start
     + (Z.of_nat n - 1) * Datetime.delta_to_us (freq_delta_get freq))
    / Datetime.US_PER_DAY ->
  generate_timestamps now n (Some start) freq = Raise OverflowError.
Proof.
  intros Hn Hlate. rewrite generate_timestamps_rmap.
  apply rmap_raises; [intros a e'; apply timestamp_at_error|].
  destruct (timestamp_at_past_calendar start (freq_delta_get freq) (Z.of_nat n - 1) Hlate)
    as (e & He).
  exists (Z.of_nat n - 1), e. split; [|exact He].
  apply elem_of_np_arange. unfold in_range. lia.
Qed.

Lemma three_days_from_the_last_day_raise :
  generate_timestamps sample_now 3 (Some (Datetime.mkDatetime 9999 12 30 8 0 0 0)) "D"
  = Raise OverflowError.
Proof.
  apply (timestamps_past_the_calendar_raise sample_now 3
           (Datetime.mkDatetime 9999 12 30 8 0 0 0) "D");
    [lia | vm_compute; reflexivity].
Defined.

(* ===================================================================== *)
(** * Dictionaries built from a list of keys *)
(* ===================================================================== *)

(** The entry of a key is the one computed at its last position. *)
Lemma dict_of_enumerate_loop_last {V} (f : nat -> string -> V) keys :
  forall a (d : gmap string V) p k,
  keys !! p = Some k -> (forall q, (p < q)%nat -> keys !! q <> Some k) ->
  fold_left (fun d ik => <[snd ik := f (fst ik) (snd ik)]> d)
    (zip (seq a (length keys)) keys) d !! k
  = Some (f (a + p)%nat k).
Proof.
  induction keys as [|x keys IH]; intros a d p k Hp Hlast; [discriminate|].
  cbn [length seq].
  change (zip (a :: seq (S a) (length keys)) (x :: keys))
    with ((a, x) :: zip (seq (S a) (length keys)) keys).
  cbn [fold_left fst snd].
  destruct p as [|p].
  - injection Hp as ->. rewrite Nat.add_0_r.
    destruct (dict_of_enumerate_loop f keys (S a) (<[k := f a k]> d) k)
      as [[Hin _]|[_ Heq]].
    + exfalso. apply list_elem_of_lookup in Hin as (q & Hq).
      apply (Hlast (S q)); [lia | exact Hq].
    + cbv zeta in Heq. rewrite Heq. apply lookup_insert_eq.
  - rewrite (IH (S a) _ p k).
    + f_equal. f_equal. lia.
    + exact Hp.
    + intros q Hq. apply (Hlast (S q)). lia.
Qed.

Lemma dict_of_enumerate_last {V} (f : nat -> string -> V) keys p k :
  keys !! p = Some k -> (forall q, (p < q)%nat -> keys !! q <> Some k) ->
  dict_of_enumerate f keys !! k = Some (f p k).
Proof.
  intros Hp Hlast. unfold dict_of_enumerate.
  now rewrite (dict_of_enumerate_loop_last f keys 0%nat ∅ p k Hp Hlast).
Qed.

Lemma dict_of_keysM_loop_last {V} (f : string -> M V)
    (g : string -> RandomState -> V) (cost : nat) :
  (forall k rs, f k rs = Ok (g k rs, advance rs cost)) ->
  forall keys (d : gmap string V) rs,
  exists d',
    foldM (fun d k => (let* v := f k in ret (<[k := v]> d))%rng) keys d rs
    = Ok (d', advance rs (length keys * cost))
    /\ (forall p k, keys !! p = Some k ->
          (forall q, (p < q)%nat -> keys !! q <> Some k) ->
          d' !! k = Some (g k (advance rs (p * cost))))
    /\ (forall k, k ∉ keys -> d' !! k = d !! k).
Proof.
  intros Hf. induction keys as [|x keys IH]; intros d rs.
  - exists d. split; [cbn; unfold ret; now rewrite advance_0|].
    split; [intros p k Hp; discriminate | reflexivity].
  - destruct (IH (<[x := g x rs]> d) (advance rs cost)) as (d' & Heq & Hlast & Hout).
    exists d'. split; [|split].
    + cbn [foldM]. unfold bind at 1, bind at 1. rewrite Hf. unfold ret at 1.
      rewrite Heq, advance_advance. reflexivity.
    + intros p k Hp Hno. destruct p as [|p].
      * injection Hp as ->. rewrite Hout.
        -- cbn [Nat.mul]. rewrite advance_0. apply lookup_insert_eq.
        -- intros Hin. apply list_elem_of_lookup in Hin as (q & Hq).
           apply (Hno (S q)); [lia | exact Hq].
      * rewrite (Hlast p k Hp).
        -- rewrite advance_advance. reflexivity.
        -- intros q Hq. apply (Hno (S q)). lia.
    + intros k Hk. rewrite Hout.
      * apply lookup_insert_ne. intros ->. apply Hk, list_elem_of_here.
      * intros Hin. apply Hk. now apply list_elem_of_further.
Qed.

Lemma dict_of_keysM_last {V} (f : string -> M V)
    (g : string -> RandomState -> V) (cost : nat) keys rs :
  (forall k rs, f k rs = Ok (g k rs, advance rs cost)) ->
  exists d,
    dict_of_keysM f keys rs = Ok (d, advance rs (length keys * cost))
    /\ (forall p k, keys !! p = Some k ->
          (forall q, (p < q)%nat -> keys !! q <> Some k) ->
          d !! k = Some (g k (advance rs (p * cost))))
    /\ (forall k, k ∉ keys -> d !! k = None).
Proof.
  intros Hf.
  destruct (dict_of_keysM_loop_last f g cost Hf keys ∅ rs) as (d & Heq & Hlast & Hout).
  exists d. split; [exact Heq|]. split; [exact Hlast|].
  intros k Hk. rewrite Hout by exact Hk. apply lookup_empty.
Qed.

(** Every key of the list has a last position. *)
Lemma last_position (keys : list string) k :
  k ∈ keys ->
  exists p, keys !! p = Some k /\ forall q, (p < q)%nat -> keys !! q <> Some k.
Proof.
  induction keys as [|x keys IH]; intros Hin; [inversion Hin|].
  destruct (decide (k ∈ keys)) as [Hk|Hk].
  - destruct (IH Hk) as (p & Hp & Hlast). exists (S p). split; [exact Hp|].
    intros [|q] Hq; [lia|]. apply Hlast. lia.
  - apply elem_of_cons in Hin as [->|Hin]; [|contradiction].
    exists 0%nat. split; [reflexivity|].
    intros [|q] Hq; [lia|]. cbn. intros Hq'. apply Hk.
    apply list_elem_of_lookup. eauto.
Qed.

(* ===================================================================== *)
(** * The daily wave *)
(* ===================================================================== *)

Lemma mapM_daily_wave_from np_sin offset scale sd k :
  scale_refused (F64.of_Z sd) = false ->
  forall a rs,
  mapM (daily_wave np_sin offset scale sd) (map Z.of_nat (seq a k)) rs
  = Ok (map (fun j =>
               ((F64.of_Z offset
                 + F64.of_Z scale * sin_phase np_sin (Z.of_nat (a + j)) 24)
                + (F64.of_Z 0 + F64.of_Z sd * normals rs (normals_used rs + j)%nat))%f64)
          (seq 0 k),
        advance rs k).
Proof.
  intros Hsd. induction k as [|k IH]; intros a rs.
  - cbn. unfold ret. now rewrite advance_0.
  - cbn [seq map mapM]. unfold bind at 1.
    unfold daily_wave at 1, bind at 1, np_random_normal1. rewrite Hsd.
    unfold bind at 1, gauss at 1, ret at 1, ret at 1.
    unfold bind at 1. rewrite IH. unfold ret. cbn [normals normals_used].
    f_equal. f_equal.
    + f_equal.
      * now rewrite !Nat.add_0_r.
      * rewrite <- seq_shift, map_map. apply map_ext. intros j.
        now rewrite !Nat.add_succ_r.
    + unfold advance. cbn. f_equal. lia.
Qed.

Lemma mapM_daily_wave_spec np_sin offset scale sd total rs :
  scale_refused (F64.of_Z sd) = false ->
  mapM (daily_wave np_sin offset scale sd) (np_arange total) rs
  = Ok (wave_series np_sin offset scale sd total rs, advance rs total).
Proof.
  intros Hsd. unfold np_arange. rewrite mapM_daily_wave_from by exact Hsd.
  reflexivity.
Qed.

Lemma wave_series_length np_sin offset scale sd total rs :
  length (wave_series np_sin offset scale sd total rs) = total.
Proof. unfold wave_series. now rewrite length_map, length_seq. Qed.

Lemma wave_series_lookup np_sin offset scale sd total rs t :
  (t < total)%nat ->
  wave_series np_sin offset scale sd total rs !! t
  = Some ((F64.of_Z offset + F64.of_Z scale * sin_phase np_sin (Z.of_nat t) 24)
          + (F64.of_Z 0 + F64.of_Z sd * normals rs (normals_used rs + t)%nat))%f64.
Proof.
  intros Ht. unfold wave_series. change (map ?f ?l) with (f <$> l).
  rewrite list_lookup_fmap.
  assert (seq 0 total !! t = Some t) as ->; [|reflexivity].
  apply lookup_seq. split; [reflexivity | exact Ht].
Qed.

(** A run of [generate_covariates], with the temperatures it draws. *)
Lemma generate_covariates_values
    np_sin (n_points : nat) (series_ids : list string)
    (include_horizon : bool) (horizon_len : nat) rs :
  let total_len :=
    if include_horizon then (n_points + horizon_len)%nat else n_points in
  exists temperature,
    generate_covariates np_sin n_points series_ids include_horizon horizon_len rs
    = Ok (mkCovariates
            {[ "base_price" :=
                 dict_of_enumerate
                   (fun i _ => (F64.lit_100 + F64.of_Z (Z.of_nat i * 50))%f64)
                   series_ids ]}
            {[ "category" :=
                 dict_of_enumerate
                   (fun i _ => nth (i mod length categories)%nat categories "")
                   series_ids ]}
            {[ "temperature" := temperature ]}
            {[ "day_of_week" :=
                 dict_of_enumerate
                   (fun _ _ => map (fun t => nth (Z.to_nat (t mod 7)) week_days "")
                                 (np_arange total_len)) series_ids ]},
          advance rs (length series_ids * total_len))
    /\ (forall p sid, series_ids !! p = Some sid ->
          (forall q, (p < q)%nat -> series_ids !! q <> Some sid) ->
          temperature !! sid
          = Some (wave_series np_sin 20 10 2 total_len (advance rs (p * total_len))))
    /\ (forall sid, sid ∉ series_ids -> temperature !! sid = None).
Proof.
  intros total_len. unfold generate_covariates. fold total_len.
  destruct (dict_of_keysM_last
              (fun _ => mapM (daily_wave np_sin 20 10 2) (np_arange total_len))
              (fun _ rs0 => wave_series np_sin 20 10 2 total_len rs0)
              total_len series_ids rs)
    as (temp & Htemp & Hlast & Hout).
  { intros k rs0. now apply mapM_daily_wave_spec. }
  exists temp. unfold bind. rewrite Htemp. unfold ret.
  split; [reflexivity|]. split; assumption.
Qed.

(* ===================================================================== *)
(** * Covariates *)
(* ===================================================================== *)

(** X12: the static covariates of [generate_covariates] follow the
    position of the identifier in [series_ids]: the identifier at position
    [p] has the base price [100.0 + p * 50] and the category
    [categories[p % 4]] (electronics, clothing, food, home, and again). An
    identifier listed more than once has the values of its last position. *)
Theorem static_covariates_follow_position
    np_sin n_points series_ids include_horizon horizon_len rs p sid :
  series_ids !! p = Some sid ->
  (forall q, (p < q)%nat -> series_ids !! q <> Some sid) ->
  exists c rs' prices cats,
    generate_covariates np_sin n_points series_ids include_horizon horizon_len rs
    = Ok (c, rs')
    /\ static_numerical_covariates c !! "base_price" = Some prices
    /\ prices !! sid = Some (F64.lit_100 + F64.of_Z (Z.of_nat p * 50))%f64
    /\ static_categorical_covariates c !! "category" = Some cats
    /\ cats !! sid = categories !! (p mod 4)%nat.
Proof.
  intros Hp Hlast.
  destruct (generate_covariates_values np_sin n_points series_ids include_horizon
              horizon_len rs) as (temp & Heq & _).
  do 4 eexists. split; [exact Heq|].
  cbn [static_numerical_covariates static_categorical_covariates].
  split; [apply lookup_singleton_eq|].
  split.
  { exact (dict_of_enumerate_last
             (fun i (_ : string) => (F64.lit_100 + F64.of_Z (Z.of_nat i * 50))%f64)
             series_ids p sid Hp Hlast). }
  split; [apply lookup_singleton_eq|].
  rewrite (dict_of_enumerate_last
             (fun i (_ : string) => nth (i mod length categories)%nat categories "")
             series_ids p sid Hp Hlast).
  change (length categories) with 4%nat.
  pose proof (Nat.mod_upper_bound p 4 ltac:(lia)) as Hb.
  destruct (p mod 4)%nat as [|[|[|[|k]]]]; try reflexivity; lia.
Qed.

Lemma static_covariates_of_a_repeated_identifier :
  exists c rs' prices cats,
    generate_covariates RefLibm.sin 2 ["a"; "b"; "a"; "c"; "d"; "e"] true 1 sample_rs
    = Ok (c, rs')
    /\ static_numerical_covariates c !! "base_price" = Some prices
    /\ prices !! "a" = Some (F64.lit_100 + F64.of_Z (Z.of_nat 2 * 50))%f64
    /\ static_categorical_covariates c !! "category" = Some cats
    /\ cats !! "a" = categories !! (2 mod 4)%nat.
Proof.
  apply (static_covariates_follow_position RefLibm.sin 2 ["a"; "b"; "a"; "c"; "d"; "e"]
           true 1 sample_rs 2 "a"); [reflexivity|].
  intros q Hq. do 3 (destruct q as [|q]; [lia|]).
  do 3 (destruct q as [|q]; [discriminate|]). discriminate.
Defined.

(** X13: the dynamic covariates of [generate_covariates]. For every
    identifier in [series_ids], the day-of-week sequence is Mon, Tue, ...,
    Sun repeated from index 0 (element [t] is [days[t % 7]]), and the
    temperature at index [t] is
    [20 + 10 * sin(2 * pi * t / 24) + noise], the noise being
    [0 + 2 * z] for one standard-normal draw [z]: the draw number
    [p * total_len + t] of the call, [p] being the last position of the
    identifier in the list. The call consumes
    [len(series_ids) * total_len] draws. *)
Theorem dynamic_covariates_values
    np_sin (n_points : nat) (series_ids : list string) (include_horizon : bool)
    (horizon_len : nat) rs p sid :
  series_ids !! p = Some sid ->
  (forall q, (p < q)%nat -> series_ids !! q <> Some sid) ->
  let total_len :=
    if include_horizon then (n_points + horizon_len)%nat else n_points in
  exists c temps days,
    generate_covariates np_sin n_points series_ids include_horizon horizon_len rs
    = Ok (c, advance rs (length series_ids * total_len))
    /\ dynamic_numerical_covariates c !! "temperature" = Some temps
    /\ dynamic_categorical_covariates c !! "day_of_week" = Some days
    /\ exists temp_sid days_sid,
         temps !! sid = Some temp_sid /\ days !! sid = Some days_sid
         /\ length temp_sid = total_len /\ length days_sid = total_len
         /\ forall t, (t < total_len)%nat ->
              days_sid !! t = week_days !! (t mod 7)%nat
              /\ temp_sid !! t
                 = Some ((F64.of_Z 20 + F64.of_Z 10 * sin_phase np_sin (Z.of_nat t) 24)
                         + (F64.of_Z 0
                            + F64.of_Z 2
                              * normals rs (normals_used rs + p * total_len + t)%nat))%f64.
Proof.
  intros Hp Hlast total_len.
  destruct (generate_covariates_values np_sin n_points series_ids include_horizon
              horizon_len rs) as (temp & Heq & Htemp & _).
  fold total_len in Heq, Htemp.
  do 3 eexists. split; [exact Heq|].
  cbn [dynamic_numerical_covariates dynamic_categorical_covariates].
  split; [apply lookup_singleton_eq|]. split; [apply lookup_singleton_eq|].
  do 2 eexists. split; [exact (Htemp p sid Hp Hlast)|].
  split.
  { exact (dict_of_enumerate_last
             (fun (_ : nat) (_ : string) =>
                map (fun t => nth (Z.to_nat (t mod 7)) week_days "")
                  (np_arange total_len))
             series_ids p sid Hp Hlast). }
  split; [apply wave_series_length|].
  split; [now rewrite length_map, np_arange_length|].
  intros t Ht. split.
  - rewrite (map_arange_lookup _ total_len t Ht).
    replace (Z.to_nat (Z.of_nat t mod 7)) with (t mod 7)%nat
      by (rewrite <- (Nat2Z.id (t mod 7)), Nat2Z.inj_mod; reflexivity).
    pose proof (Nat.mod_upper_bound t 7 ltac:(lia)) as Hb.
    destruct (t mod 7)%nat as [|[|[|[|[|[|[|k]]]]]]]; try reflexivity; lia.
  - rewrite wave_series_lookup by exact Ht. cbn [advance normals normals_used].
    reflexivity.
Qed.

Lemma dynamic_covariates_example :
  exists c temps days,
    generate_covariates RefLibm.sin 2 ["a"; "b"] true 7 sample_rs
    = Ok (c, advance sample_rs (2 * (2 + 7)))
    /\ dynamic_numerical_covariates c !! "temperature" = Some temps
    /\ dynamic_categorical_covariates c !! "day_of_week" = Some days
    /\ exists temp_sid days_sid,
         temps !! "b" = Some temp_sid /\ days !! "b" = Some days_sid
         /\ length temp_sid = (2 + 7)%nat /\ length days_sid = (2 + 7)%nat
         /\ forall t, (t < 2 + 7)%nat ->
              days_sid !! t = week_days !! (t mod 7)%nat
              /\ temp_sid !! t
                 = Some ((F64.of_Z 20
                          + F64.of_Z 10 * sin_phase RefLibm.sin (Z.of_nat t) 24)
                         + (F64.of_Z 0
                            + F64.of_Z 2
                              * normals sample_rs
                                  (normals_used sample_rs + 1 * (2 + 7) + t)%nat))%f64.
Proof.
  apply (dynamic_covariates_values RefLibm.sin 2 ["a"; "b"] true 7 sample_rs 1 "b");
    [reflexivity|].
  intros q Hq. do 2 (destruct q as [|q]; [lia|]). discriminate.
Defined.

(* ===================================================================== *)
(** * Electricity-like data *)
(* ===================================================================== *)

Lemma np_tile_length {A} (a : list A) reps :
  length (np_tile a reps) = (reps * length a)%nat.
Proof.
  induction reps as [|r IH]; [reflexivity|].
  cbn [np_tile]. rewrite length_app, IH. lia.
Qed.

(** [np.tile] repeats its argument: element [i] is element
    [i % len(a)] of the argument. *)
Lemma np_tile_lookup {A} (a : list A) reps : forall i,
  (i < reps * length a)%nat -> np_tile a reps !! i = a !! (i mod length a)%nat.
Proof.
  induction reps as [|r IH]; intros i Hi; [lia|].
  cbn [np_tile]. destruct (Nat.lt_ge_cases i (length a)) as [Hlt|Hge].
  - rewrite lookup_app_l by exact Hlt. now rewrite Nat.mod_small.
  - rewrite lookup_app_r by exact Hge. rewrite IH by lia.
    f_equal.
    replace i with ((i - length a) + 1 * length a)%nat at 2 by lia.
    now rewrite Nat.Div0.mod_add.
Qed.

(** The prices of one country: as many as hours, each the level of the
    hour plus a noise of scale 3. *)
Lemma electricity_prices_spec n_days country rs :
  exists vals,
    electricity_prices n_days country rs = Ok (vals, advance rs (n_days * 24))
    /\ length vals = (n_days * 24)%nat
    /\ forall i, (i < n_days * 24)%nat ->
         exists h r,
           hourly_pattern !! (i mod 24)%nat = Some h
           /\ np_linspace (F64.of_Z 0) (F64.of_Z 5) (n_days * 24) !! i = Some r
           /\ vals !! i
              = Some ((((F64.of_Z (if String.eqb country "FR" then 50 else 55) * h)
                        * (if (Z.of_nat i / 24) mod 7 <? 5
                           then F64.lit_1 else F64.lit_0_85))
                       + r)
                      + (F64.of_Z 0
                         + F64.of_Z 3 * normals rs (normals_used rs + i)%nat))%f64.
Proof.
  unfold electricity_prices, bind.
  rewrite np_random_normal_ok by reflexivity. unfold ret.
  eexists. split; [reflexivity|]. split.
  { rewrite !arr_add_length, arr_mul_length, !length_map, np_tile_length,
      np_linspace_length, np_arange_length, draws_length.
    change (length hourly_pattern) with 24%nat. lia. }
  intros i Hi.
  destruct (hourly_pattern !! (i mod 24)%nat) as [h|] eqn:Eh.
  2:{ apply lookup_ge_None in Eh. change (length hourly_pattern) with 24%nat in Eh.
      pose proof (Nat.mod_upper_bound i 24 ltac:(lia)). lia. }
  destruct (np_linspace (F64.of_Z 0) (F64.of_Z 5) (n_days * 24) !! i) as [r|] eqn:Er.
  2:{ apply lookup_ge_None in Er. rewrite np_linspace_length in Er. lia. }
  exists h, r. split; [reflexivity|]. split; [reflexivity|].
  apply arr_add_lookup; [apply arr_add_lookup; [|exact Er]|].
  - unfold arr_mul. rewrite lookup_zip_with.
    change (map ?f ?l) with (f <$> l). rewrite !list_lookup_fmap.
    rewrite np_tile_lookup by (change (length hourly_pattern) with 24%nat; lia).
    change (length hourly_pattern) with 24%nat. rewrite Eh.
    rewrite np_arange_lookup by exact Hi. reflexivity.
  - apply (map_draws_lookup (fun z => F64.of_Z 0 + F64.of_Z 3 * z)%f64), Hi.
Qed.

(** The three parts of [generate_electricity_like_data], one after the
    other on the random generator: the prices, the covariates of
    [generate_covariates], the generation forecast. *)
Lemma generate_electricity_like_data_run np_sin n_days countries rs :
  let cs := match countries with None => ["FR"; "BE"] | Some l => l end in
  let n := (n_days * 24)%nat in
  let rs1 := advance rs (length cs * n) in
  let rs2 := advance rs1 (length cs * (n + 24)) in
  exists prices temps forecasts,
    generate_electricity_like_data np_sin n_days countries rs
    = Ok ((prices,
           mkCovariates
             {[ "base_price" :=
                  dict_of_enumerate
                    (fun i _ => (F64.lit_100 + F64.of_Z (Z.of_nat i * 50))%f64) cs ]}
             {[ "category" :=
                  dict_of_enumerate
                    (fun i _ => nth (i mod length categories)%nat categories "") cs ]}
             (<["gen_forecast" := forecasts]> {[ "temperature" := temps ]})
             {[ "day_of_week" :=
                  dict_of_enumerate
                    (fun _ _ => map (fun t => nth (Z.to_nat (t mod 7)) week_days "")
                                  (np_arange (n + 24))) cs ]}),
          advance rs2 (length cs * (n + 24)))
    /\ (forall p c, cs !! p = Some c ->
          (forall q, (p < q)%nat -> cs !! q <> Some c) ->
          (exists vals,
             prices !! c = Some vals
             /\ electricity_prices n_days c (advance rs (p * n))
                = Ok (vals, advance (advance rs (p * n)) n))
          /\ temps !! c
             = Some (wave_series np_sin 20 10 2 (n + 24) (advance rs1 (p * (n + 24))))
          /\ forecasts !! c
             = Some (wave_series np_sin 5000 2000 200 (n + 24)
                       (advance rs2 (p * (n + 24)))))
    /\ (forall c, c ∉ cs ->
          prices !! c = None /\ temps !! c = None /\ forecasts !! c = None).
Proof.
  intros cs n rs1 rs2.
  set (g := fun c rs0 => match electricity_prices n_days c rs0 with
                         | Ok (v, _) => v
                         | Raise _ => []
                         end).
  destruct (dict_of_keysM_last (electricity_prices n_days) g n cs rs)
    as (prices & Hprices & Hplast & Hpout).
  { intros c rs0. unfold g.
    destruct (electricity_prices_spec n_days c rs0) as (vals & -> & _). reflexivity. }
  destruct (generate_covariates_values np_sin n cs true 24 rs1)
    as (temps & Hcov & Htlast & Htout).
  destruct (dict_of_keysM_last
              (fun _ => mapM (daily_wave np_sin 5000 2000 200) (np_arange (n + 24)))
              (fun _ rs0 => wave_series np_sin 5000 2000 200 (n + 24) rs0)
              (n + 24) cs rs2)
    as (forecasts & Hfc & Hflast & Hfout).
  { intros k rs0. now apply mapM_daily_wave_spec. }
  exists prices, temps, forecasts. split; [|split].
  - unfold generate_electricity_like_data. fold cs. fold n.
    unfold bind at 1. rewrite Hprices. fold rs1.
    unfold bind at 1. rewrite Hcov. fold rs2.
    unfold bind at 1. rewrite Hfc. reflexivity.
  - intros p c Hp Hlast. split; [|split].
    + destruct (electricity_prices_spec n_days c (advance rs (p * n)))
        as (vals & Heq & _).
      exists vals. split; [|exact Heq].
      rewrite (Hplast p c Hp Hlast). unfold g. now rewrite Heq.
    + exact (Htlast p c Hp Hlast).
    + exact (Hflast p c Hp Hlast).
  - intros c Hc. auto.
Qed.

(** X14: [generate_electricity_like_data] never raises. Its prices are
    keyed by the countries (["FR", "BE"] when none are given), one series
    of [n_days * 24] values each; its covariates hold, for every country,
    a temperature, a generation forecast and a day-of-week sequence of
    [n_days * 24 + 24] elements (the horizon of 24 hours included), and
    the static covariates of [generate_covariates]. For [c] countries and
    [n = n_days * 24] it consumes [c * n + 2 * c * (n + 24)] draws. *)
Theorem electricity_data_shape np_sin n_days countries rs :
  let cs := match countries with None => ["FR"; "BE"] | Some l => l end in
  let n := (n_days * 24)%nat in
  exists prices covs temps forecasts days,
    generate_electricity_like_data np_sin n_days countries rs
    = Ok ((prices, covs),
          advance rs (length cs * n + 2 * (length cs * (n + 24))))
    /\ (forall c, c ∉ cs -> prices !! c = None)
    /\ dynamic_numerical_covariates covs !! "temperature" = Some temps
    /\ dynamic_numerical_covariates covs !! "gen_forecast" = Some forecasts
    /\ dynamic_categorical_covariates covs !! "day_of_week" = Some days
    /\ forall c, c ∈ cs ->
         exists price temp forecast day base_price category,
           prices !! c = Some price /\ length price = n
           /\ temps !! c = Some temp /\ length temp = (n + 24)%nat
           /\ forecasts !! c = Some forecast /\ length forecast = (n + 24)%nat
           /\ days !! c = Some day /\ length day = (n + 24)%nat
           /\ static_numerical_covariates covs !! "base_price" = Some base_price
           /\ is_Some (base_price !! c)
           /\ static_categorical_covariates covs !! "category" = Some category
           /\ is_Some (category !! c).
Proof.
  intros cs n.
  destruct (generate_electricity_like_data_run np_sin n_days countries rs)
    as (prices & temps & forecasts & Heq & Hlast & Hout).
  fold cs in Heq, Hlast, Hout. fold n in Heq, Hlast, Hout.
  do 5 eexists. split.
  { rewrite Heq. rewrite !advance_advance. do 2 f_equal. f_equal. lia. }
  cbn [static_numerical_covariates static_categorical_covariates
       dynamic_numerical_covariates dynamic_categorical_covariates].
  split; [intros c Hc; now destruct (Hout c Hc)|].
  split; [rewrite lookup_insert_ne by discriminate; apply lookup_singleton_eq|].
  split; [apply lookup_insert_eq|].
  split; [apply lookup_singleton_eq|].
  intros c Hc.
  destruct (last_position cs c Hc) as (p & Hp & Hnext).
  destruct (Hlast p c Hp Hnext) as ((price & Hprice & Hrun) & Htemp & Hfc).
  destruct (electricity_prices_spec n_days c (advance rs (p * n)))
    as (vals & Hvals & Hlen & _).
  rewrite Hvals in Hrun. injection Hrun as <-.
  do 6 eexists.
  split; [exact Hprice|]. split; [exact Hlen|].
  split; [exact Htemp|]. split; [apply wave_series_length|].
  split; [exact Hfc|]. split; [apply wave_series_length|].
  split.
  { exact (dict_of_enumerate_last
             (fun (_ : nat) (_ : string) =>
                map (fun t => nth (Z.to_nat (t mod 7)) week_days "")
                  (np_arange (n + 24)))
             cs p c Hp Hnext). }
  split; [now rewrite length_map, np_arange_length|].
  split; [apply lookup_singleton_eq|].
  split.
  { rewrite (dict_of_enumerate_last
               (fun i (_ : string) => (F64.lit_100 + F64.of_Z (Z.of_nat i * 50))%f64)
               cs p c Hp Hnext). eauto. }
  split; [apply lookup_singleton_eq|].
  rewrite (dict_of_enumerate_last
             (fun i (_ : string) => nth (i mod length categories)%nat categories "")
             cs p c Hp Hnext). eauto.
Qed.

(** X15: the values of [generate_electricity_like_data]. For the country
    whose last position in the list is [p] and the hour [i], the price is
    [base * hourly[i % 24] * weekly + trend_i + noise]: [base] is 50 for
    "FR" and 55 for any other country, [hourly] is the intraday pattern,
    [weekly] is 1.0 on the first five days of every seven and 0.85 on the
    other two, [trend] is [np.linspace(0, 5, n)] and the noise is
    [0 + 3 * z] for the draw number [p * n + i] of the call. The generation
    forecast at hour [t] is [5000 + 2000 * sin(2 * pi * t / 24) + noise]
    with a noise of scale 200, drawn after all prices and all
    temperatures. *)
Theorem electricity_prices_and_forecast np_sin n_days countries rs p c :
  let cs := match countries with None => ["FR"; "BE"] | Some l => l end in
  let n := (n_days * 24)%nat in
  cs !! p = Some c ->
  (forall q, (p < q)%nat -> cs !! q <> Some c) ->
  exists prices covs rs' price forecasts forecast,
    generate_electricity_like_data np_sin n_days countries rs = Ok ((prices, covs), rs')
    /\ prices !! c = Some price
    /\ dynamic_numerical_covariates covs !! "gen_forecast" = Some forecasts
    /\ forecasts !! c = Some forecast
    /\ (forall i, (i < n)%nat ->
          exists h r,
            hourly_pattern !! (i mod 24)%nat = Some h
            /\ np_linspace (F64.of_Z 0) (F64.of_Z 5) n !! i = Some r
            /\ price !! i
               = Some ((((F64.of_Z (if String.eqb c "FR" then 50 else 55) * h)
                         * (if (Z.of_nat i / 24) mod 7 <? 5
                            then F64.lit_1 else F64.lit_0_85))
                        + r)
                       + (F64.of_Z 0
                          + F64.of_Z 3
                            * normals rs (normals_used rs + p * n + i)%nat))%f64)
    /\ (forall t, (t < n + 24)%nat ->
          forecast !! t
          = Some ((F64.of_Z 5000
                   + F64.of_Z 2000 * sin_phase np_sin (Z.of_nat t) 24)
                  + (F64.of_Z 0
                     + F64.of_Z 200
                       * normals rs
                           (normals_used rs + length cs * n + length cs * (n + 24)
                            + p * (n + 24) + t)%nat))%f64).
Proof.
  intros cs n Hp Hnext.
  destruct (generate_electricity_like_data_run np_sin n_days countries rs)
    as (prices & temps & forecasts & Heq & Hlast & _).
  fold cs in Heq, Hlast. fold n in Heq, Hlast.
  destruct (Hlast p c Hp Hnext) as ((price & Hprice & Hrun) & _ & Hfc).
  destruct (electricity_prices_spec n_days c (advance rs (p * n)))
    as (vals & Hvals & _ & Hval).
  rewrite Hvals in Hrun. injection Hrun as <-.
  do 6 eexists. split; [exact Heq|].
  cbn [dynamic_numerical_covariates].
  split; [exact Hprice|]. split; [apply lookup_insert_eq|].
  split; [exact Hfc|]. split.
  - intros i Hi. destruct (Hval i Hi) as (h & r & Hh & Hr & Hv).
    exists h, r. split; [exact Hh|]. split; [exact Hr|]. exact Hv.
  - intros t Ht. rewrite wave_series_lookup by exact Ht.
    cbn [advance normals normals_used]. reflexivity.
Qed.

Lemma electricity_of_two_days_example :
  exists prices covs rs' price forecasts forecast,
    generate_electricity_like_data RefLibm.sin 2 None sample_rs
    = Ok ((prices, covs), rs')
    /\ prices !! "BE" = Some price
    /\ dynamic_numerical_covariates covs !! "gen_forecast" = Some forecasts
    /\ forecasts !! "BE" = Some forecast
    /\ (forall i, (i < 2 * 24)%nat ->
          exists h r,
            hourly_pattern !! (i mod 24)%nat = Some h
            /\ np_linspace (F64.of_Z 0) (F64.of_Z 5) (2 * 24) !! i = Some r
            /\ price !! i
               = Some ((((F64.of_Z (if String.eqb "BE" "FR" then 50 else 55) * h)
                         * (if (Z.of_nat i / 24) mod 7 <? 5
                            then F64.lit_1 else F64.lit_0_85))
                        + r)
                       + (F64.of_Z 0
                          + F64.of_Z 3
                            * normals sample_rs
                                (normals_used sample_rs + 1 * (2 * 24) + i)%nat))%f64)
    /\ (forall t, (t < 2 * 24 + 24)%nat ->
          forecast !! t
          = Some ((F64.of_Z 5000
                   + F64.of_Z 2000 * sin_phase RefLibm.sin (Z.of_nat t) 24)
                  + (F64.of_Z 0
                     + F64.of_Z 200
                       * normals sample_rs
                           (normals_used sample_rs + 2 * (2 * 24) + 2 * (2 * 24 + 24)
                            + 1 * (2 * 24 + 24) + t)%nat))%f64).
Proof.
  apply (electricity_prices_and_forecast RefLibm.sin 2 None sample_rs 1 "BE");
    [reflexivity|].
  intros q Hq. do 2 (destruct q as [|q]; [lia|]). discriminate.
Defined.

(* ===================================================================== *)
(** * One generator in terms of another *)
(* ===================================================================== *)

Lemma arr_add_map_map {A} (f g : A -> float) l :
  arr_add (map f l) (map g l) = map (fun x => f x + g x)%f64 l.
Proof.
  unfold arr_add. induction l as [|x l IH]; [reflexivity|].
  cbn [map zip_with]. now rewrite IH.
Qed.

(** Adding [+0.0] changes nothing but [-0.0]. *)
Lemma add_zero_r x : x <> S754_zero true -> (x + F64.zero)%f64 = x.
Proof. destruct x as [[]|[]| |[] m e]; intros H; try reflexivity; congruence. Qed.

(** [0.0 * t] is [+0.0] for an index [t] of an array. *)
Lemma zero_mul_index t :
  0 <= t < 2 ^ 63 -> (F64.zero * F64.of_Z t)%f64 = F64.zero.
Proof.
  intros Ht.
  assert (fin_le 11 (F64.of_Z t)) as Hfin by (apply (of_Z_fin t 63 10); lia).
  pose proof (of_Z_finite_or_inf_nonneg t ltac:(lia)) as Hsign.
  destruct (F64.of_Z t) as [s| | |s m e]; cbn in Hfin, Hsign |- *;
    try contradiction; subst s; reflexivity.
Qed.

(** X16: a seasonal series is a trend-plus-seasonal series without trend:
    [generate_seasonal_series(n, base, seasonality, amplitude, noise)]
    returns what
    [generate_trend_seasonal_series(n, base, 0.0, period, amplitude, noise)]
    returns from the same generator, [period] being the period of the
    seasonality name (24, 7, 52, 12, 1, and 7 for any other name), and
    raises when it raises; [base] is any value but [-0.0]. *)
Theorem seasonal_series_is_trendless_trend_seasonal
    np_sin n base seasonality amplitude nl rs :
  Z.of_nat n <= 2 ^ 63 -> base <> S754_zero true ->
  generate_seasonal_series np_sin n base seasonality amplitude nl rs
  = generate_trend_seasonal_series np_sin n base F64.zero
      (period_map_get seasonality) amplitude nl rs.
Proof.
  intros Hn Hbase. unfold generate_seasonal_series, generate_trend_seasonal_series.
  rewrite arr_add_map_map, map_map.
  assert (map (fun ti => (base + base * amplitude
                                 * sin_phase np_sin ti (period_map_get seasonality))%f64)
              (np_arange n)
          = map (fun ti => ((base + F64.zero * F64.of_Z ti)
                            + base * amplitude
                              * sin_phase np_sin ti (period_map_get seasonality))%f64)
              (np_arange n)) as ->; [|reflexivity].
  apply map_ext_in. intros ti Hti.
  apply list_elem_of_In, elem_of_np_arange in Hti. unfold in_range in Hti.
  rewrite zero_mul_index by lia. now rewrite add_zero_r.
Qed.

Lemma seasonal_series_of_five_points :
  generate_seasonal_series RefLibm.sin 5 F64.lit_100 "daily" F64.lit_0_2 F64.lit_0_05
    sample_rs
  = generate_trend_seasonal_series RefLibm.sin 5 F64.lit_100 F64.zero
      (period_map_get "daily") F64.lit_0_2 F64.lit_0_05 sample_rs.
Proof.
  apply (seasonal_series_is_trendless_trend_seasonal RefLibm.sin 5 F64.lit_100 "daily"
           F64.lit_0_2 F64.lit_0_05 sample_rs);
    [vm_compute; discriminate | discriminate].
Defined.

(* ===================================================================== *)
(** * A longer series extends a shorter one *)
(* ===================================================================== *)







(* ===================================================================== *)
(** * The records of the payload *)
(* ===================================================================== *)

(** The records of a payload, when they are returned. *)
Lemma payload_records_inv timestamps : forall values recs,
  payload_records timestamps values = Ok recs ->
  length timestamps = length values ->
  map timestamp recs = timestamps
  /\ forall i v, values !! i = Some v ->
       exists rec, recs !! i = Some rec /\ py_int v = Ok (value rec).
Proof.
  unfold payload_records.
  induction timestamps as [|ts timestamps IH]; intros [|v values] recs Hrec Hlen;
    try discriminate.
  - injection Hrec as <-. split; [reflexivity|]. intros i v H. discriminate.
  - change (zip (ts :: timestamps) (v :: values))
      with ((ts, v) :: zip timestamps values) in Hrec.
    cbn [rmap fst snd] in Hrec.
    destruct (py_int v) as [z|e] eqn:Ez; cbn [rbind] in Hrec; [|discriminate].
    destruct (rmap _ (zip timestamps values)) as [recs0|e] eqn:Erest;
      cbn [rbind] in Hrec; [|discriminate].
    injection Hrec as <-.
    destruct (IH values recs0 Erest ltac:(simpl in Hlen; lia)) as (Hts & Hval).
    split; [cbn; now rewrite Hts|].
    intros [|i] w Hw; cbn in Hw |- *.
    + injection Hw as <-. eauto.
    + now apply Hval.
Qed.

(** The series behind the payload, when it is returned: [n_points] values,
    and no anomaly in the first half (none at all when no anomaly is
    injected). *)
Lemma ad_payload_series_inv n base (inject : bool) ratio rs vals flags rs' :
  ad_payload_series n base inject ratio rs = Ok ((vals, flags), rs') ->
  length vals = n
  /\ forall i, (i < if inject then n / 2 else n)%nat ->
       vals !! i = Some (anomaly_baseline base F64.lit_0_03 rs i).
Proof.
  unfold ad_payload_series. intros Hser.
  assert (scale_refused (base * F64.lit_0_03)%f64 = false) as Hs.
  { destruct (scale_refused (base * F64.lit_0_03)%f64) eqn:Hs; [|reflexivity].
    destruct inject.
    - unfold bind at 1 in Hser.
      destruct (lift _ rs) as [[k rs0]|e]; [|discriminate].
      unfold bind at 1 in Hser.
      destruct (np_random_choice_noreplace _ _ rs0) as [[idxs rs1]|e]; [|discriminate].
      unfold generate_anomaly_series, bind at 1 in Hser.
      rewrite np_random_normal_refused in Hser by exact Hs. discriminate.
    - unfold generate_anomaly_series, bind at 1 in Hser.
      rewrite np_random_normal_refused in Hser by exact Hs. discriminate. }
  destruct inject.
  - unfold bind at 1 in Hser.
    destruct (py_int (F64.of_nat n * ratio)%f64) as [k|e]; unfold lift at 1 in Hser;
      [|discriminate].
    unfold bind at 1 in Hser.
    destruct (np_random_choice_noreplace _ _ rs) as [[idxs rs1]|e] eqn:Ech;
      [|discriminate].
    apply np_random_choice_noreplace_inv in Ech as (_ & _ & _ & Hin & Hn1 & Hu1).
    destruct (generate_anomaly_series_values n base idxs F64.lit_0_4 "both" F64.lit_0_03
                rs1 Hs) as (vals' & rs2' & Heq & Hlen & Hkeep & _).
    rewrite Heq in Hser. injection Hser as <- _ _.
    split; [exact Hlen|]. intros i Hi. change (i < n / 2)%nat in Hi.
    assert (i < n)%nat as Hin'.
    { apply Nat.lt_le_trans with (n / 2)%nat; [exact Hi|].
      apply Nat.Div0.div_le_upper_bound. lia. }
    rewrite Hkeep; [|exact Hin'|].
    + f_equal. now apply anomaly_baseline_same_draws.
    + intros Hel. apply Hin in Hel.
      apply list_elem_of_lookup in Hel as (j & Hj). rewrite lookup_drop in Hj.
      pose proof (lookup_lt_Some _ _ _ Hj) as Hlt. rewrite np_arange_length in Hlt.
      rewrite np_arange_lookup in Hj by exact Hlt. injection Hj as Hj.
      apply Nat2Z.inj in Hj.
      change (fst (Nat.divmod n 1 0 1)) with (n / 2)%nat in Hj.
      revert Hi Hj. generalize (n / 2)%nat. lia.
  - destruct (generate_anomaly_series_values n base [] F64.lit_0_5 "both" F64.lit_0_03
                rs Hs) as (vals' & rs2' & Heq & Hlen & Hkeep & _).
    rewrite Heq in Hser. injection Hser as <- _ _.
    split; [exact Hlen|]. intros i Hi.
    apply Hkeep; [exact Hi | apply not_elem_of_nil].
Qed.

(** X18: when [generate_ad_payload_data] returns, it returns [n_points]
    records in the order of the timestamps of
    [generate_timestamps(n_points, freq='H')] (hourly from 30 days before
    the clock reading), and the value of a record that carries no anomaly
    is [int] of the noisy trend value
    [base_value + 0.001 * base_value * i + noise_i] (noise of scale
    [base_value * 0.03]): that is every record with
    [inject_anomalies=False], and every record of the first half,
    [i < n_points // 2], with [inject_anomalies=True]. *)
Theorem payload_records_follow_the_series now n base (inject : bool) ratio rs recs rs' :
  generate_ad_payload_data now n base inject ratio rs = Ok (recs, rs') ->
  exists tss,
    generate_timestamps now n None "H" = Ok tss
    /\ map timestamp recs = tss
    /\ length recs = n
    /\ forall i, (i < if inject then n / 2 else n)%nat ->
         exists rec, recs !! i = Some rec
                     /\ py_int (anomaly_baseline base F64.lit_0_03 rs i)
                        = Ok (value rec).
Proof.
  unfold generate_ad_payload_data, bind at 1.
  destruct (generate_timestamps now n None "H") as [tss|e] eqn:Ets;
    unfold lift at 1; [|discriminate].
  unfold bind at 1.
  destruct (ad_payload_series n base inject ratio rs) as [[[vals flags] rs2]|e] eqn:Eser;
    [|discriminate].
  cbn [fst]. unfold lift.
  destruct (payload_records tss vals) as [recs0|e] eqn:Erec; [|discriminate].
  intros [= <- <-].
  pose proof (generate_timestamps_length _ _ _ _ _ Ets) as Hlts.
  destruct (ad_payload_series_inv _ _ _ _ _ _ _ _ Eser) as (Hlen & Hval).
  destruct (payload_records_inv tss vals recs0 Erec ltac:(lia)) as (Hts & Hrec).
  exists tss. split; [reflexivity|]. split; [exact Hts|].
  split; [rewrite <- (length_map timestamp), Hts; exact Hlts|].
  intros i Hi. apply Hrec, Hval, Hi.
Qed.

Lemma payload_of_four_points_example :
  exists recs rs' tss,
    generate_ad_payload_data sample_now 4 F64.lit_1500000 true F64.lit_0_05 sample_rs
    = Ok (recs, rs')
    /\ generate_timestamps sample_now 4 None "H" = Ok tss
    /\ map timestamp recs = tss
    /\ length recs = 4%nat
    /\ forall i, (i < 4 / 2)%nat ->
         exists rec, recs !! i = Some rec
                     /\ py_int (anomaly_baseline F64.lit_1500000 F64.lit_0_03 sample_rs i)
                        = Ok (value rec).
Proof.
  destruct (generate_ad_payload_data sample_now 4 F64.lit_1500000 true F64.lit_0_05
              sample_rs) as [[recs rs']|e] eqn:E; [|vm_compute in E; discriminate].
  destruct (payload_records_follow_the_series sample_now 4 F64.lit_1500000 true
              F64.lit_0_05 sample_rs recs rs' E) as (tss & H1 & H2 & H3 & H4).
  exists recs, rs', tss. auto.
Defined.

(* ===================================================================== *)
(** * When the payload is returned *)
(* ===================================================================== *)

Lemma lit_0_001_small : fin_le (-62) F64.lit_0_001.
Proof. vm_compute. split; [reflexivity | discriminate]. Qed.

Lemma lit_0_03_small : fin_le (-58) F64.lit_0_03.
Proof. vm_compute. split; [reflexivity | discriminate]. Qed.

Lemma lit_0_4_small : fin_le (-54) F64.lit_0_4.
Proof. vm_compute. split; [reflexivity | discriminate]. Qed.

(** The noisy trend value is finite for a bounded base value and bounded
    draws. *)
Lemma anomaly_baseline_fin base rs i :
  fin_le 400 base -> bounded_normals 400 rs -> Z.of_nat i < 2 ^ 63 ->
  fin_le 854 (anomaly_baseline base F64.lit_0_03 rs i).
Proof.
  intros Hb Hrs Hi. unfold anomaly_baseline.
  assert (fin_le 392 (F64.lit_0_001 * base)%f64) as Ha
    by (apply (mul_fin (-62) 400 391); [apply lit_0_001_small | exact Hb | lia..]).
  assert (fin_le 11 (F64.of_Z (Z.of_nat i))) as Hi'
    by (apply (of_Z_fin (Z.of_nat i) 63 10); lia).
  assert (fin_le 457 (F64.lit_0_001 * base * F64.of_Z (Z.of_nat i))%f64) as Hb'
    by (apply (mul_fin 392 11 456); [exact Ha | exact Hi' | lia..]).
  assert (fin_le 459 (base + F64.lit_0_001 * base * F64.of_Z (Z.of_nat i))%f64) as Hc
    by (apply (add_fin 400 457 458); [exact Hb | exact Hb' | lia..]).
  assert (fin_le 396 (base * F64.lit_0_03)%f64) as Hd
    by (apply (mul_fin 400 (-58) 395); [exact Hb | apply lit_0_03_small | lia..]).
  assert (fin_le 850 (base * F64.lit_0_03 * normals rs (normals_used rs + i))%f64) as He
    by (apply (mul_fin 396 400 849); [exact Hd | apply Hrs | lia..]).
  assert (fin_le 852
            (F64.of_Z 0 + base * F64.lit_0_03 * normals rs (normals_used rs + i))%f64)
    as Hf by (apply (add_fin 0 850 851); [exact I | exact He | lia..]).
  apply (add_fin 459 852 853); [exact Hc | exact Hf | lia..].
Qed.

(** So is the value of a point moved by one anomaly. *)
Lemma anomaly_shift_fin base mag s v :
  fin_le 400 base -> fin_le (-54) mag -> s = 1 \/ s = -1 -> fin_le 854 v ->
  fin_le 856 (anomaly_shift base mag s v).
Proof.
  intros Hb Hm Hs Hv. unfold anomaly_shift.
  assert (fin_le 11 (F64.of_Z s)) as Hs'
    by (apply (of_Z_fin s 63 10); try lia; destruct Hs as [-> | ->]; reflexivity).
  assert (fin_le 465 (F64.of_Z s * base)%f64) as H1
    by (apply (mul_fin 11 400 464); [exact Hs' | exact Hb | lia..]).
  assert (fin_le 465 (F64.of_Z s * base * mag)%f64) as H2
    by (apply (mul_fin 465 (-54) 464); [exact H1 | exact Hm | lia..]).
  apply (add_fin 854 465 855); [exact Hv | exact H2 | lia..].
Qed.

Lemma nonneg_scale_accepted base nl :
  F64.is_finite base = true -> F64.is_finite nl = true ->
  F64.signbit base = false -> F64.signbit nl = false ->
  scale_refused (base * nl)%f64 = false.
Proof.
  intros Hb Hn Hsb Hsn. unfold scale_refused.
  rewrite mul_signbit, Hsb, Hsn by assumption. apply andb_false_r.
Qed.

(** X19: [generate_ad_payload_data] returns [n_points] records, one per
    timestamp, whenever there is at least one point, the timestamps can be
    built, the base value is not negative and the anomaly ratio is below
    1/16 in magnitude (as the default 0.05 is): the number of anomalies then fits the
    second half of the points, no two of them fall on one point, and every
    value is finite (base value and draws below [2^453] in magnitude), so
    that [int] is defined on it. *)
Theorem payload_is_returned now n base (inject : bool) ratio rs tss :
  (1 <= n)%nat -> Z.of_nat n < 2 ^ 63 ->
  generate_timestamps now n None "H" = Ok tss ->
  fin_le 400 base -> F64.signbit base = false ->
  (inject = true -> fin_le (-57) ratio) ->
  bounded_normals 400 rs ->
  exists recs rs',
    generate_ad_payload_data now n base inject ratio rs = Ok (recs, rs')
    /\ length recs = n
    /\ map timestamp recs = tss.
Proof.
  intros Hn1 Hn Hts Hb Hsb Hratio Hrs.
  pose proof (generate_timestamps_length _ _ _ _ _ Hts) as Hlts.
  assert (scale_refused (base * F64.lit_0_03)%f64 = false) as Hs.
  { apply nonneg_scale_accepted; try reflexivity; [|exact Hsb].
    eapply fin_le_finite, Hb. }
  assert (exists vals flags rs',
            ad_payload_series n base inject ratio rs = Ok ((vals, flags), rs')
            /\ length vals = n
            /\ Forall (fun v => F64.is_finite v = true) vals)
    as (vals & flags & rs' & Hser & Hlen & Hfin).
  { unfold ad_payload_series. destruct inject.
    - destruct (anomaly_count_fits n ratio Hn1 Hn (Hratio eq_refl)) as (k & Hk & Hfit).
      unfold bind at 1. rewrite Hk. unfold lift at 1. unfold bind at 1.
      destruct (np_random_choice_noreplace_spec (drop (n / 2) (np_arange n))
                  (Z.to_nat (Z.max 1 k)) rs)
        as (idxs & rs1 & -> & _ & Hnd & _ & Hn1' & Hu1).
      { rewrite length_drop, np_arange_length.
        assert (Z.max 1 k <= Z.of_nat (n - n / 2)); [|lia].
        pose proof (Nat.div_mod_eq n 2) as Hdm.
        pose proof (Nat.mod_upper_bound n 2 ltac:(lia)) as Hm.
        revert Hdm Hm. generalize (n / 2)%nat (n mod 2)%nat. intros q r Hdm Hm. lia. }
      destruct (generate_anomaly_series_values n base idxs F64.lit_0_4 "both"
                  F64.lit_0_03 rs1 Hs) as (vals & rs2 & -> & Hlen & Hkeep & Hone).
      exists vals, (fold_left (mark n) idxs (replicate n false)), rs2.
      split; [reflexivity|]. split; [exact Hlen|].
      apply Forall_lookup. intros i v Hv.
      pose proof (lookup_lt_Some _ _ _ Hv) as Hi. rewrite Hlen in Hi.
      assert (fin_le 854 (anomaly_baseline base F64.lit_0_03 rs1 i)) as Hbase.
      { rewrite (anomaly_baseline_same_draws _ _ rs rs1) by assumption.
        apply anomaly_baseline_fin; [exact Hb | exact Hrs | lia]. }
      destruct (decide (Z.of_nat i ∈ idxs)) as [Hel|Hel].
      + assert (count_occ Z.eq_dec idxs (Z.of_nat i) = 1%nat) as Hc.
        { specialize (Hnd (sublist_NoDup _ _ (np_arange_NoDup n) (sublist_drop _ _))).
          apply NoDup_ListNoDup in Hnd.
          pose proof (proj1 (NoDup_count_occ Z.eq_dec idxs) Hnd (Z.of_nat i)) as Hle.
          apply list_elem_of_In in Hel.
          apply (count_occ_In Z.eq_dec) in Hel. lia. }
        destruct (Hone i Hi Hc) as (s & Hsg & Hv').
        rewrite Hv in Hv'. injection Hv' as ->.
        eapply fin_le_finite, anomaly_shift_fin;
          [exact Hb | apply lit_0_4_small | exact Hsg | exact Hbase].
      + rewrite (Hkeep i Hi Hel) in Hv. injection Hv as <-.
        eapply fin_le_finite, Hbase.
    - destruct (generate_anomaly_series_values n base [] F64.lit_0_5 "both" F64.lit_0_03
                  rs Hs) as (vals & rs2 & -> & Hlen & Hkeep & _).
      exists vals, (fold_left (mark n) [] (replicate n false)), rs2.
      split; [reflexivity|]. split; [exact Hlen|].
      apply Forall_lookup. intros i v Hv.
      pose proof (lookup_lt_Some _ _ _ Hv) as Hi. rewrite Hlen in Hi.
      rewrite (Hkeep i Hi (not_elem_of_nil _)) in Hv. injection Hv as <-.
      eapply fin_le_finite, anomaly_baseline_fin; [exact Hb | exact Hrs | lia]. }
  destruct (generate_ad_payload_data_ok now n base inject ratio rs tss vals flags rs'
              Hts Hser Hlts Hlen Hfin) as (recs & Heq & Hl & Hmap).
  exists recs, rs'. auto.
Qed.

Lemma sample_rs_bounded : bounded_normals 400 sample_rs.
Proof.
  intros k. cbn [sample_rs normals].
  destruct (Nat.even k); vm_compute; split; (reflexivity || discriminate).
Qed.

Lemma payload_of_fifty_points_is_returned :
  exists tss recs rs',
    generate_timestamps sample_now 50 None "H" = Ok tss
    /\ generate_ad_payload_data sample_now 50 F64.lit_1500000 true F64.lit_0_05
         sample_rs = Ok (recs, rs')
    /\ length recs = 50%nat
    /\ map timestamp recs = tss.
Proof.
  destruct (generate_timestamps sample_now 50 None "H") as [tss|e] eqn:Ets;
    [|vm_compute in Ets; discriminate].
  destruct (payload_is_returned sample_now 50 F64.lit_1500000 true F64.lit_0_05
              sample_rs tss) as (recs & rs' & H1 & H2 & H3).
  - lia.
  - vm_compute. reflexivity.
  - exact Ets.
  - vm_compute. split; [reflexivity | discriminate].
  - reflexivity.
  - intros _. exact lit_0_05_small.
  - exact sample_rs_bounded.
  - exists tss, recs, rs'. auto.
Defined.

(* ===================================================================== *)
(** * A trend of strength zero *)
(* ===================================================================== *)

(** Multiplying a binary64 value by 1.0 is exact. *)
Lemma mul_one_r x :
  SpecFloat.valid_binary prec emax x = true -> (x * F64.lit_1)%f64 = x.
Proof.
  destruct x as [s|s| |s m e]; try reflexivity.
  - destruct s; reflexivity.
  - destruct s; reflexivity.
  - cbn [SpecFloat.valid_binary]. unfold bounded, canonical_mantissa.
    rewrite andb_true_iff. intros [Hc He].
    apply Z.eqb_eq in Hc. apply Z.leb_le in He.
    unfold F64.mul, SF64mul, SFmul, F64.lit_1.
    rewrite xorb_false_r, Pos.mul_comm.
    unfold binary_round_aux, shr_fexp.
    replace (4503599627370496 * m)%positive with (Pos.iter xO m 52) by reflexivity.
    cbn [Pos.iter Zdigits2 digits2_pos shr_record_of_loc].
    rewrite !Pos2Z.inj_succ.
    replace (fexp prec emax _ - (e + -52)) with 52
      by (rewrite fexp_eq in *; lia).
    cbn [shr SpecFloat.iter_pos shr_1 orb shr_m shr_r shr_s loc_of_shr_record
         round_nearest_even].
    replace (e + -52 + 52) with e by lia.
    cbn [Zdigits2]. rewrite Hc, Z.sub_diag. cbn [shr shr_m].
    apply Z.leb_le in He. now rewrite He.
Qed.

(** Adding a zero of either sign changes nothing but [-0.0]. *)
Lemma add_any_zero_r x z :
  x <> S754_zero true -> F64.is_zero z = true -> (x + z)%f64 = x.
Proof.
  destruct x as [[]|[]| |[] m e], z as [[]| | |]; intros Hx Hz;
    try discriminate; try reflexivity; congruence.
Qed.

(** The curve of a trend of strength zero is flat, whatever its type. *)
Lemma trend_curve_zero_strength np_log1p libm_pow n trend_type base :
  (forall y, libm_pow (F64.of_Z 1) y = F64.of_Z 1) ->
  (forall t, 0 <= t < 2 ^ 63 -> F64.is_finite (np_log1p (F64.of_Z t)) = true) ->
  Z.of_nat n <= 2 ^ 63 ->
  SpecFloat.valid_binary prec emax base = true -> base <> S754_zero true ->
  trend_curve np_log1p libm_pow n trend_type base F64.zero = replicate n base.
Proof.
  intros Hpow Hlog Hn Hvalid Hbase.
  assert (forall f : Z -> float,
            (forall t, 0 <= t < 2 ^ 63 -> f t = base) ->
            map f (np_arange n) = replicate n base) as Hconst.
  { intros f Hf. apply all_equal_replicate; [array_length|].
    intros j v Hj. change (map f ?l) with (f <$> l) in Hj.
    apply list_lookup_fmap_Some in Hj as (t & -> & Ht).
    apply list_elem_of_lookup_2, elem_of_np_arange in Ht. unfold in_range in Ht.
    apply Hf. lia. }
  unfold trend_curve, np_full.
  destruct (String.eqb trend_type "linear").
  { apply Hconst. intros t Ht. rewrite zero_mul_index by exact Ht.
    now apply add_zero_r. }
  destruct (String.eqb trend_type "exponential").
  { apply Hconst. intros t Ht.
    change (F64.of_Z 1 + F64.lit_0_01 * F64.zero)%f64 with (F64.of_Z 1).
    rewrite Hpow. now apply mul_one_r. }
  destruct (String.eqb trend_type "logarithmic"); [|reflexivity].
  apply Hconst. intros t Ht.
  change (F64.zero * F64.of_Z 10)%f64 with F64.zero.
  apply add_any_zero_r; [exact Hbase|].
  apply zero_mul_finite, Hlog, Ht.
Qed.

(** X20: with [trend_strength = 0.0] every trend type is the flat one:
    'linear', 'exponential' and 'logarithmic' return what 'flat' returns
    from the same generator (and raise when it raises), for every
    binary64 base value but [-0.0] and every point count within the range
    of an array index. [pow] is any function with [pow(1, y) = 1] and
    [np.log1p] any function that is finite on the indices. *)
Theorem zero_strength_is_flat np_log1p libm_pow n trend_type base nl rs :
  (forall y, libm_pow (F64.of_Z 1) y = F64.of_Z 1) ->
  (forall t, 0 <= t < 2 ^ 63 -> F64.is_finite (np_log1p (F64.of_Z t)) = true) ->
  Z.of_nat n <= 2 ^ 63 ->
  SpecFloat.valid_binary prec emax base = true -> base <> S754_zero true ->
  generate_trend_series np_log1p libm_pow n trend_type base F64.zero nl rs
  = generate_trend_series np_log1p libm_pow n "flat" base F64.zero nl rs.
Proof.
  intros Hpow Hlog Hn Hvalid Hbase.
  pose proof (trend_curve_zero_strength np_log1p libm_pow n trend_type base
                Hpow Hlog Hn Hvalid Hbase) as Hcurve.
  unfold trend_curve in Hcurve. unfold generate_trend_series. cbv zeta.
  rewrite Hcurve. reflexivity.
Qed.

Lemma exponential_of_zero_strength_is_flat :
  generate_trend_series (fun _ => F64.zero) (fun x _ => x) 4 "exponential"
    F64.lit_100 F64.zero F64.lit_0_1 sample_rs
  = generate_trend_series (fun _ => F64.zero) (fun x _ => x) 4 "flat"
      F64.lit_100 F64.zero F64.lit_0_1 sample_rs.
Proof.
  apply (zero_strength_is_flat (fun _ => F64.zero) (fun x _ => x) 4 "exponential"
           F64.lit_100 F64.lit_0_1 sample_rs);
    [reflexivity | reflexivity | vm_compute; discriminate | reflexivity | discriminate].
Defined.

(* ===================================================================== *)
(** * The anomalies of the payload *)
(* ===================================================================== *)

(** The series behind a payload with anomalies, when it is returned: the
    anomaly indices are distinct points of the second half, and each of
    them is moved once. *)
Lemma ad_payload_series_anomalies n base ratio rs vals flags rs' :
  ad_payload_series n base true ratio rs = Ok ((vals, flags), rs') ->
  exists k idxs,
    py_int (F64.of_nat n * ratio)%f64 = Ok k
    /\ length idxs = Z.to_nat (Z.max 1 k) /\ NoDup idxs
    /\ (forall idx, idx ∈ idxs -> Z.of_nat (n / 2) <= idx < Z.of_nat n)
    /\ length vals = n
    /\ forall i, (i < n)%nat ->
         (Z.of_nat i ∉ idxs ->
          vals !! i = Some (anomaly_baseline base F64.lit_0_03 rs i))
         /\ (Z.of_nat i ∈ idxs ->
             exists s, (s = 1 \/ s = -1)
                       /\ vals !! i
                          = Some (anomaly_shift base F64.lit_0_4 s
                                    (anomaly_baseline base F64.lit_0_03 rs i))).
Proof.
  unfold ad_payload_series. intros Hser.
  unfold bind at 1 in Hser.
  destruct (py_int (F64.of_nat n * ratio)%f64) as [k|e]; unfold lift at 1 in Hser;
    [|discriminate].
  unfold bind at 1 in Hser.
  destruct (np_random_choice_noreplace _ _ rs) as [[idxs rs1]|e] eqn:Ech;
    [|discriminate].
  apply np_random_choice_noreplace_inv in Ech as (_ & Hlen & Hnd & Hin & Hn1 & Hu1).
  specialize (Hnd (sublist_NoDup _ _ (np_arange_NoDup n) (sublist_drop _ _))).
  assert (scale_refused (base * F64.lit_0_03)%f64 = false) as Hs.
  { destruct (scale_refused (base * F64.lit_0_03)%f64) eqn:Hs; [|reflexivity].
    unfold generate_anomaly_series, bind at 1 in Hser.
    rewrite np_random_normal_refused in Hser by exact Hs. discriminate. }
  destruct (generate_anomaly_series_values n base idxs F64.lit_0_4 "both" F64.lit_0_03
              rs1 Hs) as (vals' & rs2' & Heq & Hlv & Hkeep & Hone).
  rewrite Heq in Hser. injection Hser as <- _ _.
  exists k, idxs. split; [reflexivity|]. split; [exact Hlen|]. split; [exact Hnd|].
  split.
  { intros idx Hidx. apply Hin in Hidx.
    apply list_elem_of_lookup in Hidx as (j & Hj). rewrite lookup_drop in Hj.
    pose proof (lookup_lt_Some _ _ _ Hj) as Hlt. rewrite np_arange_length in Hlt.
    rewrite np_arange_lookup in Hj by exact Hlt. injection Hj as <-.
    change (fst (Nat.divmod n 1 0 1)) with (n / 2)%nat in *. lia. }
  split; [exact Hlv|].
  intros i Hi. rewrite <- (anomaly_baseline_same_draws base F64.lit_0_03 rs rs1 i)
    by assumption.
  split; [now apply Hkeep|].
  intros Hel. apply Hone; [exact Hi|].
  apply NoDup_ListNoDup in Hnd.
  pose proof (proj1 (NoDup_count_occ Z.eq_dec idxs) Hnd (Z.of_nat i)) as Hle.
  apply list_elem_of_In in Hel. apply (count_occ_In Z.eq_dec) in Hel. lia.
Qed.

(** X21: when [generate_ad_payload_data] with [inject_anomalies=True]
    returns, exactly [max(1, int(n_points * anomaly_ratio))] of its
    records carry an anomaly, at pairwise distinct indices of the second
    half ([n_points // 2 <= idx < n_points]); the value of such a record
    is [int] of the noisy trend value moved by [0.4 * base_value] up or
    down, and the value of every other record is [int] of the noisy trend
    value. *)
Theorem payload_anomalies_fall_in_second_half now n base ratio rs recs rs' :
  generate_ad_payload_data now n base true ratio rs = Ok (recs, rs') ->
  exists k idxs,
    py_int (F64.of_nat n * ratio)%f64 = Ok k
    /\ length idxs = Z.to_nat (Z.max 1 k) /\ NoDup idxs
    /\ (forall idx, idx ∈ idxs -> Z.of_nat (n / 2) <= idx < Z.of_nat n)
    /\ forall i, (i < n)%nat ->
         exists rec,
           recs !! i = Some rec
           /\ (Z.of_nat i ∉ idxs ->
               py_int (anomaly_baseline base F64.lit_0_03 rs i) = Ok (value rec))
           /\ (Z.of_nat i ∈ idxs ->
               py_int (anomaly_shift base F64.lit_0_4 1
                         (anomaly_baseline base F64.lit_0_03 rs i)) = Ok (value rec)
               \/ py_int (anomaly_shift base F64.lit_0_4 (-1)
                            (anomaly_baseline base F64.lit_0_03 rs i))
                  = Ok (value rec)).
Proof.
  unfold generate_ad_payload_data, bind at 1.
  destruct (generate_timestamps now n None "H") as [tss|e] eqn:Ets;
    unfold lift at 1; [|discriminate].
  unfold bind at 1.
  destruct (ad_payload_series n base true ratio rs) as [[[vals flags] rs2]|e] eqn:Eser;
    [|discriminate].
  cbn [fst]. unfold lift.
  destruct (payload_records tss vals) as [recs0|e] eqn:Erec; [|discriminate].
  intros [= <- <-].
  pose proof (generate_timestamps_length _ _ _ _ _ Ets) as Hlts.
  destruct (ad_payload_series_anomalies _ _ _ _ _ _ _ Eser)
    as (k & idxs & Hk & Hlen & Hnd & Hin & Hlv & Hval).
  destruct (payload_records_inv tss vals recs0 Erec ltac:(lia)) as (_ & Hrec).
  exists k, idxs. split; [exact Hk|]. split; [exact Hlen|]. split; [exact Hnd|].
  split; [exact Hin|].
  intros i Hi. destruct (Hval i Hi) as (Hout & Hhit).
  destruct (vals !! i) as [v|] eqn:Ev; [|apply lookup_ge_None in Ev; lia].
  destruct (Hrec i v Ev) as (rec & Hr & Hint).
  exists rec. split; [exact Hr|]. split.
  - intros Hni. specialize (Hout Hni). injection Hout as <-. exact Hint.
  - intros Hel. destruct (Hhit Hel) as (s & [-> | ->] & [= <-]); [left | right]; exact Hint.
Qed.

Lemma payload_anomalies_of_forty_points :
  exists recs rs' k idxs,
    generate_ad_payload_data sample_now 40 F64.lit_1500000 true F64.lit_0_05 sample_rs
    = Ok (recs, rs')
    /\ py_int (F64.of_nat 40 * F64.lit_0_05)%f64 = Ok k
    /\ length idxs = Z.to_nat (Z.max 1 k) /\ NoDup idxs
    /\ (forall idx, idx ∈ idxs -> Z.of_nat (40 / 2) <= idx < Z.of_nat 40)
    /\ forall i, (i < 40)%nat ->
         exists rec,
           recs !! i = Some rec
           /\ (Z.of_nat i ∉ idxs ->
               py_int (anomaly_baseline F64.lit_1500000 F64.lit_0_03 sample_rs i)
               = Ok (value rec))
           /\ (Z.of_nat i ∈ idxs ->
               py_int (anomaly_shift F64.lit_1500000 F64.lit_0_4 1
                         (anomaly_baseline F64.lit_1500000 F64.lit_0_03 sample_rs i))
               = Ok (value rec)
               \/ py_int (anomaly_shift F64.lit_1500000 F64.lit_0_4 (-1)
                            (anomaly_baseline F64.lit_1500000 F64.lit_0_03 sample_rs i))
                  = Ok (value rec)).
Proof.
  destruct (generate_ad_payload_data sample_now 40 F64.lit_1500000 true F64.lit_0_05
              sample_rs) as [[recs rs']|e] eqn:E; [|vm_compute in E; discriminate].
  destruct (payload_anomalies_fall_in_second_half sample_now 40 F64.lit_1500000
              F64.lit_0_05 sample_rs recs rs' E) as (k & idxs & H).
  exists recs, rs', k, idxs. split; [reflexivity | exact H].
Defined.
